(** * Blog engagement and comment subsystem: a shallow embedding

    The Django application [blog] (models.py, forms.py, views.py) is embedded
    as pure functions over an explicit database state.  Tables are lists of
    rows in insertion order, each table with the sequence that hands out its
    primary keys; a view is a computation in a small state-and-exception
    monad over the database, the flashed messages and the mail outbox. *)

From Stdlib Require Import ZArith List String Ascii Bool Lia Arith.
From Stdlib Require Import Permutation Sorted.
From Stdlib Require Import QArith Qround Qabs Lqa.
From Stdlib Require PrimFloat SpecFloat FloatOps DecimalString DecimalPos.
Import ListNotations.

Local Open Scope string_scope.
Local Open Scope list_scope.
Local Open Scope Z_scope.

(** ** Rows (models.py) *)

Module Models.

(** [django.contrib.auth.models.User], as far as the views read it. *)
Record User := mkUser {
  user_id : Z;
  user_email : string;
  is_staff : bool
}.

(** [class Blog(models.Model)], without the columns no view embedded here
    reads ([content], [categories], [featured_image]).  [created_at] is
    [auto_now_add]; [updated_at] is [auto_now], so every [save()] rewrites
    it. *)
Record Blog := mkBlog {
  blog_id : Z;
  blog_title : string;
  blog_author : Z;
  blog_created_at : Z;
  blog_updated_at : Z;
  blog_published : bool
}.

(** [class Like], [class Dislike] and [class Favorite] have the same columns:
    the primary key, [user] and [blog] (and [created_at], which no view
    reads back for these three). *)
Record Like := mkLike { like_id : Z; like_user : Z; like_blog : Z }.
Record Dislike := mkDislike { dislike_id : Z; dislike_user : Z; dislike_blog : Z }.
Record Favorite := mkFavorite { favorite_id : Z; favorite_user : Z; favorite_blog : Z }.

(** [class Rating(models.Model)]. *)
Record Rating := mkRating {
  rating_id : Z;
  rating_user : Z;
  rating_blog : Z;
  score : Z
}.

(** [class Comment(models.Model)]; [parent_comment] is the nullable
    self-reference. *)
Record Comment := mkComment {
  comment_id : Z;
  comment_blog : Z;
  comment_user : Z;
  content : string;
  created_at : Z;
  parent_comment : option Z
}.

(** A table: its rows and the next value of its primary-key sequence. *)
Record Table (A : Type) := mkTable { rows : list A; seq : Z }.
Arguments mkTable {A} _ _.
Arguments rows {A} _.
Arguments seq {A} _.

Definition empty_table {A : Type} : Table A := mkTable [] 1.

Record DB := mkDB {
  blogs : Table Blog;
  likes : Table Like;
  dislikes : Table Dislike;
  favorites : Table Favorite;
  ratings : Table Rating;
  comments : Table Comment
}.

Definition set_blogs t d := mkDB t (likes d) (dislikes d) (favorites d) (ratings d) (comments d).
Definition set_likes t d := mkDB (blogs d) t (dislikes d) (favorites d) (ratings d) (comments d).
Definition set_dislikes t d := mkDB (blogs d) (likes d) t (favorites d) (ratings d) (comments d).
Definition set_favorites t d := mkDB (blogs d) (likes d) (dislikes d) t (ratings d) (comments d).
Definition set_ratings t d := mkDB (blogs d) (likes d) (dislikes d) (favorites d) t (comments d).
Definition set_comments t d := mkDB (blogs d) (likes d) (dislikes d) (favorites d) (ratings d) t.

End Models.
Export Models.

(** ** The view monad: state and exceptions *)

Module Effects.

Inductive Level := SUCCESS | WARNING | ERROR.

(** What a request can change: the database, the messages flashed to the
    user ([django.contrib.messages]) and the mail handed to the backend. *)
Record World := mkWorld {
  db : DB;
  flash : list (Level * string);
  outbox : list (string * string)
}.

Inductive exn :=
| DoesNotExist
| MultipleObjectsReturned
| IntegrityError
| Http404
| ValueError
| JSONDecodeError
| AttributeError
| TypeError
| SMTPException.

Inductive result (A : Type) :=
| Ok (a : A)
| Raise (e : exn).
Arguments Ok {A} _.
Arguments Raise {A} _.

Definition M (A : Type) : Type := World -> result A * World.

Definition ret {A} (a : A) : M A := fun w => (Ok a, w).

Definition bind {A B} (m : M A) (k : A -> M B) : M B :=
  fun w => match m w with
           | (Ok a, w') => k a w'
           | (Raise e, w') => (Raise e, w')
           end.

Definition raise {A} (e : exn) : M A := fun w => (Raise e, w).

(** [try: m except Exception as e: ...]: the exception becomes a value.
    The database keeps what [m] wrote before it raised (autocommit). *)
Definition try {A} (m : M A) : M (exn + A) :=
  fun w => match m w with
           | (Ok a, w') => (Ok (inr a), w')
           | (Raise e, w') => (Ok (inl e), w')
           end.

Definition read_db {A} (f : DB -> A) : M A := fun w => (Ok (f (db w)), w).

Definition write_db (f : DB -> DB) : M unit :=
  fun w => (Ok tt, mkWorld (f (db w)) (flash w) (outbox w)).

Definition messages_add (l : Level) (text : string) : M unit :=
  fun w => (Ok tt, mkWorld (db w) (flash w ++ [(l, text)]) (outbox w)).

End Effects.
Export Effects.

Declare Scope view_scope.
Delimit Scope view_scope with view.
Notation "x <- m ;; k" := (bind m (fun x => k))
  (at level 100, m at next level, right associativity) : view_scope.
Notation "m ;;; k" := (bind m (fun _ => k))
  (at level 100, right associativity) : view_scope.
Local Open Scope view_scope.

(** ** The object-relational layer, as the views use it *)

Module ORM.

(** [Model.objects]: where the table lives in the database, the primary key
    of a row, and the [unique_together] key if the model declares one. *)
Record Manager (A : Type) := mkManager {
  table : DB -> Table A;
  with_table : Table A -> DB -> DB;
  pk : A -> Z;
  unique_together : option (A -> Z * Z)
}.
Arguments mkManager {A} _ _ _ _.
Arguments table {A} _ _.
Arguments with_table {A} _ _ _.
Arguments pk {A} _ _.
Arguments unique_together {A} _.

Definition pair_eqb (p q : Z * Z) : bool :=
  (fst p =? fst q) && (snd p =? snd q).

Definition all {A} (o : Manager A) (d : DB) : list A := rows (table o d).

(** [objects.filter(...)] evaluated. *)
Definition objects_filter {A} (o : Manager A) (p : A -> bool) : M (list A) :=
  read_db (fun d => filter p (all o d)).

(** [objects.filter(...).exists()]. *)
Definition objects_exists {A} (o : Manager A) (p : A -> bool) : M bool :=
  read_db (fun d => existsb p (all o d)).

(** [objects.filter(...).count()]. *)
Definition objects_count {A} (o : Manager A) (p : A -> bool) : M nat :=
  read_db (fun d => List.length (filter p (all o d))).

(** [objects.get(...)]: exactly one row, else [DoesNotExist] or
    [MultipleObjectsReturned]. *)
Definition objects_get {A} (o : Manager A) (p : A -> bool) : M A :=
  fun w => match filter p (all o (db w)) with
           | [] => (Raise DoesNotExist, w)
           | [r] => (Ok r, w)
           | _ :: _ :: _ => (Raise MultipleObjectsReturned, w)
           end.

(** Does inserting [r] break the table's [unique_together]? *)
Definition violates_unique {A} (o : Manager A) (r : A) (d : DB) : bool :=
  match unique_together o with
  | None => false
  | Some key => existsb (fun r' => pair_eqb (key r') (key r)) (all o d)
  end.

(** [objects.create(...)]: the row takes the next primary key; the database
    refuses it with [IntegrityError] when [unique_together] is violated. *)
Definition objects_create {A} (o : Manager A) (mk : Z -> A) : M A :=
  fun w =>
    let t := table o (db w) in
    let r := mk (seq t) in
    if violates_unique o r (db w) then (Raise IntegrityError, w)
    else (Ok r, mkWorld (with_table o (mkTable (rows t ++ [r]) (seq t + 1)) (db w))
                        (flash w) (outbox w)).

(** [objects.filter(...).delete()]. *)
Definition queryset_delete {A} (o : Manager A) (p : A -> bool) : M unit :=
  write_db (fun d =>
    let t := table o d in
    with_table o (mkTable (filter (fun r => negb (p r)) (rows t)) (seq t)) d).

(** [instance.delete()] for a model nothing cascades from: by primary key. *)
Definition instance_delete {A} (o : Manager A) (r : A) : M unit :=
  queryset_delete o (fun r' => pk o r' =? pk o r).

(** [instance.save()] of a row that is already stored: an UPDATE by
    primary key. *)
Definition instance_save {A} (o : Manager A) (r : A) : M unit :=
  write_db (fun d =>
    let t := table o d in
    with_table o
      (mkTable (map (fun r' => if pk o r' =? pk o r then r else r') (rows t)) (seq t)) d).

Definition Blog_objects : Manager Blog :=
  mkManager blogs set_blogs blog_id None.
Definition Like_objects : Manager Like :=
  mkManager likes set_likes like_id (Some (fun r => (like_user r, like_blog r))).
Definition Dislike_objects : Manager Dislike :=
  mkManager dislikes set_dislikes dislike_id (Some (fun r => (dislike_user r, dislike_blog r))).
Definition Favorite_objects : Manager Favorite :=
  mkManager favorites set_favorites favorite_id (Some (fun r => (favorite_user r, favorite_blog r))).
Definition Rating_objects : Manager Rating :=
  mkManager ratings set_ratings rating_id (Some (fun r => (rating_user r, rating_blog r))).
Definition Comment_objects : Manager Comment :=
  mkManager comments set_comments comment_id None.

End ORM.
Export ORM.

(** ** The pieces of Python's [str] and [int] the forms and queries rely on *)

Module Py.

(** A [str] is carried by its UTF-8 encoding.  A character is a byte that is
    not a continuation byte ([10xxxxxx]) together with the continuation bytes
    that follow it. *)
Definition byte (c : ascii) : Z := Z.of_nat (nat_of_ascii c).

Definition is_continuation (c : ascii) : bool :=
  (128 <=? byte c) && (byte c <? 192).

Definition continues (s : string) : bool :=
  match s with
  | String c _ => is_continuation c
  | EmptyString => false
  end.

(** The characters of a text, in order. *)
Fixpoint chars (s : string) : list string :=
  match s with
  | EmptyString => []
  | String c s' =>
      match chars s' with
      | ch :: more =>
          if continues s' then String c ch :: more
          else String c EmptyString :: ch :: more
      | [] => [String c EmptyString]
      end
  end.

(** [''.join(l)]. *)
Definition join (l : list string) : string :=
  fold_right String.append EmptyString l.

(** [len(s)] and [s[:n]] count characters. *)
Definition len (s : string) : nat := List.length (chars s).

Definition slice_to (n : nat) (s : string) : string := join (firstn n (chars s)).

Definition payload (c : ascii) : option Z :=
  if is_continuation c then Some (byte c - 128) else None.

(** [ord(ch)]: the code point a character encodes; [None] for bytes that
    are not the UTF-8 encoding of a code point. *)
Definition ord (ch : string) : option Z :=
  match ch with
  | String a EmptyString =>
      if byte a <? 128 then Some (byte a) else None
  | String a (String b EmptyString) =>
      match payload b with
      | Some x =>
          if (194 <=? byte a) && (byte a <? 224)
          then Some ((byte a - 192) * 64 + x) else None
      | None => None
      end
  | String a (String b (String c EmptyString)) =>
      match payload b, payload c with
      | Some x, Some y =>
          let n := (byte a - 224) * 4096 + x * 64 + y in
          if (224 <=? byte a) && (byte a <? 240) && (2048 <=? n) &&
             negb ((55296 <=? n) && (n <? 57344))
          then Some n else None
      | _, _ => None
      end
  | String a (String b (String c (String d EmptyString))) =>
      match payload b, payload c, payload d with
      | Some x, Some y, Some z =>
          let n := (byte a - 240) * 262144 + x * 4096 + y * 64 + z in
          if (240 <=? byte a) && (byte a <? 245) && (65536 <=? n) && (n <? 1114112)
          then Some n else None
      | _, _, _ => None
      end
  | _ => None
  end.

Definition in_ranges (n : Z) (ranges : list (Z * Z)) : bool :=
  existsb (fun r => (fst r <=? n) && (n <=? snd r)) ranges.

(** The code points [str.isspace] accepts: TAB..CR, FS..US and the space,
    NEL, NBSP, the Ogham space mark, EN QUAD..HAIR SPACE, the line and
    paragraph separators, the narrow and the medium mathematical space, and
    the ideographic space. *)
Definition whitespace : list (Z * Z) :=
  [(9, 13); (28, 32); (133, 133); (160, 160); (5760, 5760); (8192, 8202);
   (8232, 8233); (8239, 8239); (8287, 8287); (12288, 12288)].

Definition is_space (ch : string) : bool :=
  match ord ch with
  | Some n => in_ranges n whitespace
  | None => false
  end.

Fixpoint drop_while {A : Type} (p : A -> bool) (l : list A) : list A :=
  match l with
  | [] => []
  | x :: l' => if p x then drop_while p l' else l
  end.

Definition lstrip_chars (l : list string) : list string := drop_while is_space l.
Definition rstrip_chars (l : list string) : list string :=
  rev (drop_while is_space (rev l)).

(** [s.strip()]. *)
Definition strip (s : string) : string :=
  join (rstrip_chars (lstrip_chars (chars s))).

(** The code points of the digit zero of every script with decimal digits
    (general category Nd, Unicode 14.0 as in Python 3.11); the other nine
    digits of a script follow its zero. *)
Definition decimal_zeros : list Z :=
  [48; 1632; 1776; 1984; 2406; 2534; 2662; 2790; 2918; 3046; 3174; 3302; 3430;
   3558; 3664; 3792; 3872; 4160; 4240; 6112; 6160; 6470; 6608; 6784; 6800;
   6992; 7088; 7232; 7248; 42528; 43216; 43264; 43472; 43504; 43600; 44016;
   65296; 66720; 68912; 69734; 69872; 69942; 70096; 70384; 70736; 70864;
   71248; 71360; 71472; 71904; 72016; 72784; 73040; 73120; 92768; 92864;
   93008; 120782; 120792; 120802; 120812; 120822; 123200; 123632; 125264;
   130032].

(** [unicodedata.decimal]. *)
Definition decimal (n : Z) : option Z :=
  match find (fun z => (z <=? n) && (n <? z + 10)) decimal_zeros with
  | Some z => Some (n - z)
  | None => None
  end.

(** What [int] makes of a character before it parses: ASCII stays, any other
    white space becomes a space, any other decimal digit its ASCII digit, and
    nothing else is accepted. *)
Definition to_ascii (ch : string) : option ascii :=
  match ord ch with
  | None => None
  | Some n =>
      if n <? 128 then Some (ascii_of_nat (Z.to_nat n))
      else if in_ranges n whitespace then Some " "%char
      else option_map (fun d => ascii_of_nat (Z.to_nat (48 + d))) (decimal n)
  end.

Fixpoint transform (l : list string) : option string :=
  match l with
  | [] => Some EmptyString
  | ch :: l' =>
      match to_ascii ch, transform l' with
      | Some a, Some r => Some (String a r)
      | _, _ => None
      end
  end.

(** The white space of the C locale, which the parser of [int] skips at
    both ends: TAB..CR and the space. *)
Definition is_c_space (c : ascii) : bool :=
  ((9 <=? byte c) && (byte c <=? 13)) || (byte c =? 32).

Fixpoint c_lstrip (s : string) : string :=
  match s with
  | EmptyString => EmptyString
  | String c s' => if is_c_space c then c_lstrip s' else s
  end.

Fixpoint c_rstrip (s : string) : string :=
  match s with
  | EmptyString => EmptyString
  | String c s' =>
      match c_rstrip s' with
      | EmptyString => if is_c_space c then EmptyString else String c EmptyString
      | r => String c r
      end
  end.

Definition digit (c : ascii) : option Z :=
  let n := nat_of_ascii c in
  if ((48 <=? n) && (n <=? 57))%nat then Some (Z.of_nat n - 48) else None.

(** Decimal digits, single underscores allowed between two digits. *)
Fixpoint digits (acc : Z) (after_digit : bool) (s : string) : option Z :=
  match s with
  | EmptyString => if after_digit then Some acc else None
  | String c s' =>
      match digit c with
      | Some d => digits (10 * acc + d) true s'
      | None =>
          if Ascii.eqb c "_"%char && after_digit then digits acc false s' else None
      end
  end.

Fixpoint count_digits (s : string) : nat :=
  match s with
  | EmptyString => O
  | String c s' =>
      match digit c with
      | Some _ => S (count_digits s')
      | None => count_digits s'
      end
  end.

(** [sys.get_int_max_str_digits()]. *)
Definition int_max_str_digits : nat := 4300.

(** The sign a numeral begins with, and what follows it. *)
Definition split_sign (body : string) : bool * string :=
  match body with
  | String "-"%char r => (true, r)
  | String "+"%char r => (false, r)
  | r => (false, r)
  end.

(** [int(s)] for a [str]: [None] stands for [ValueError]. *)
Definition int_of_str (s : string) : option Z :=
  match transform (chars s) with
  | None => None
  | Some text =>
      let signed := split_sign (c_rstrip (c_lstrip text)) in
      if (int_max_str_digits <? count_digits (snd signed))%nat then None
      else option_map (fun n => if fst signed then - n else n)
                      (digits 0 false (snd signed))
  end.

(** [bool(s)] for a [str]. *)
Definition truthy (s : string) : bool :=
  match s with EmptyString => false | _ => true end.

Fixpoint every (p : ascii -> bool) (s : string) : bool :=
  match s with
  | EmptyString => true
  | String c s' => p c && every p s'
  end.

Definition is_ascii (c : ascii) : bool := byte c <? 128.

(** One character: a byte and nothing but continuation bytes after it. *)
Definition is_char (ch : string) : bool :=
  match ch with
  | String _ t => every is_continuation t
  | EmptyString => false
  end.

(** A list of characters as [chars] cuts them: none but the first begins
    with a continuation byte. *)
Definition well_cut (l : list string) : Prop :=
  Forall (fun ch => is_char ch = true) l /\
  Forall (fun ch => continues ch = false) (tl l).

(** A text made of white space only. *)
Definition is_blank (s : string) : Prop :=
  Forall (fun ch => is_space ch = true) (chars s).

Fixpoint contains_nul (s : string) : bool :=
  match s with
  | EmptyString => false
  | String c s' => Ascii.eqb c Ascii.zero || contains_nul s'
  end.

End Py.

(** ** Requests and responses *)

Module Http.

Inductive Method := GET | POST | OTHER.

(** What [json.loads] returns. An object is the dict Python builds from it:
    the items in order, one per key. *)
#[local] Unset Elimination Schemes.
Inductive Json :=
| JNull
| JBool (b : bool)
| JNum (z : Z)
| JStr (s : string)
| JArr (l : list Json)
| JObj (items : list (string * Json)).
#[local] Set Elimination Schemes.

(** [request.user]: [None] is [AnonymousUser].  [request.POST] and
    [request.GET] are given by their items, one per key.  [request.body] is
    carried by what [json.loads] makes of it: [None] when it is not a JSON
    document.  [received_at] is the clock that [auto_now_add] reads, and
    [mail_up] says whether the mail backend accepts a message during this
    request. *)
Record HttpRequest := mkRequest {
  method : Method;
  user : option User;
  POST_data : list (string * string);
  GET_data : list (string * string);
  body : option Json;
  received_at : Z;
  mail_up : bool
}.

Fixpoint dict_get {V : Type} (k : string) (d : list (string * V)) : option V :=
  match d with
  | [] => None
  | (k', v) :: d' => if String.eqb k' k then Some v else dict_get k d'
  end.

Definition dict_in {V : Type} (k : string) (d : list (string * V)) : bool :=
  match dict_get k d with Some _ => true | None => false end.

(** The URLs the views redirect to (reverse of the names in urls.py). *)
Inductive Url :=
| url_blog_detail (pk : Z)
| url_blog_list
| url_login.

(** The payloads [like_dislike_post] answers with. *)
Inductive JsonPayload :=
| ErrorPayload (message : string)
| SuccessPayload (likes_count dislikes_count : nat) (user_reaction : option string).

(** The context [blog_detail] hands to its template, the two forms apart:
    the post, the flags of the visitor, the recent posts of the sidebar and
    the page of top-level comments. *)
Record DetailContext := mkDetailContext {
  ctx_blog : Blog;
  ctx_is_favorited : bool;
  ctx_user_rating : option Rating;
  ctx_recent_blogs : list Blog;
  ctx_comments : list Comment;
  ctx_user_liked : bool;
  ctx_user_disliked : bool
}.

Inductive HttpResponse :=
| JsonResponse (status : Z) (payload : JsonPayload)
| HttpResponseRedirect (to : Url)
| HttpResponseNotAllowed
| HttpResponseNotFound
| HttpResponseServerError (e : exn)
| RenderDetail (ctx : DetailContext)
| RenderConfirmDelete (blog : Blog).

(** What Django makes of a view's outcome: [Http404] becomes the 404 page,
    any other uncaught exception a 500. *)
Definition respond (m : M HttpResponse) (w : World) : HttpResponse * World :=
  match m w with
  | (Ok r, w') => (r, w')
  | (Raise Http404, w') => (HttpResponseNotFound, w')
  | (Raise e, w') => (HttpResponseServerError e, w')
  end.

Definition View := HttpRequest -> Z -> M HttpResponse.

(** [@require_POST]. *)
Definition require_POST (view : View) : View :=
  fun request pk =>
    match method request with
    | POST => view request pk
    | _ => ret HttpResponseNotAllowed
    end.

(** [@login_required]. *)
Definition login_required (view : View) : View :=
  fun request pk =>
    match user request with
    | Some _ => view request pk
    | None => ret (HttpResponseRedirect url_login)
    end.

(** [get_object_or_404(Blog, pk=pk)]. *)
Definition get_blog_or_404 (pk : Z) : M Blog :=
  r <- try (objects_get Blog_objects (fun b => blog_id b =? pk)) ;;
  match r with
  | inr blog => ret blog
  | inl DoesNotExist => raise Http404
  | inl e => raise e
  end.

End Http.
Export Http.

(** ** [django.core.paginator.Paginator], with [orphans=0] and
    [allow_empty_first_page=True] as the views construct it *)

Module Paginator.

Section Pages.
Context {A : Type}.
Variable object_list : list A.
Variable per_page : nat.

Definition count : nat := List.length object_list.

(** [num_pages]: [ceil(max(1, count) / per_page)]. *)
Definition num_pages : nat :=
  let hits := Nat.max 1 count in
  ((hits + per_page - 1) / per_page)%nat.

Inductive PageError := PageNotAnInteger | EmptyPage.

(** [validate_number]: the argument is what [request.GET.get] returned. *)
Definition validate_number (number : option string) : PageError + nat :=
  match number with
  | None => inl PageNotAnInteger
  | Some s =>
      match Py.int_of_str s with
      | None => inl PageNotAnInteger
      | Some n =>
          if n <? 1 then inl EmptyPage
          else if Z.of_nat num_pages <? n then inl EmptyPage
          else inr (Z.to_nat n)
      end
  end.

(** The slice [object_list[bottom:top]] of page [number] (1-based). *)
Definition page_slice (number : nat) : list A :=
  let bottom := ((number - 1) * per_page)%nat in
  let top := (bottom + per_page)%nat in
  let top := if (count <=? top)%nat then count else top in
  firstn (top - bottom) (skipn bottom object_list).

Definition page (number : option string) : PageError + list A :=
  match validate_number number with
  | inl e => inl e
  | inr n => inr (page_slice n)
  end.

(** The [try: page(n) except PageNotAnInteger: page(1) except EmptyPage:
    page(num_pages)] that every listing view repeats. *)
Definition page_or_fallback (number : option string) : list A :=
  match page number with
  | inr objs => objs
  | inl PageNotAnInteger => page_slice 1
  | inl EmptyPage => page_slice num_pages
  end.

End Pages.

End Paginator.

(** ** views.py *)

Module Views.

Definition like_of (u : User) (b : Blog) (r : Like) : bool :=
  (like_user r =? user_id u) && (like_blog r =? blog_id b).
Definition dislike_of (u : User) (b : Blog) (r : Dislike) : bool :=
  (dislike_user r =? user_id u) && (dislike_blog r =? blog_id b).

(** [data.get('reaction')] on what [json.loads] returned; only a dict has
    [get]. *)
Definition get_reaction (data : Json) : M (option Json) :=
  match data with
  | JObj items => ret (dict_get "reaction" items)
  | _ => raise AttributeError
  end.

Definition is_str (s : string) (v : option Json) : bool :=
  match v with
  | Some (JStr s') => String.eqb s' s
  | _ => false
  end.

(** The body of [like_dislike_post], under its decorators. *)
Definition like_dislike_post_body : View := fun request pk =>
  match user request with
  | None => ret (JsonResponse 403 (ErrorPayload "Authentication required"))
  | Some u =>
    found <- try (objects_get Blog_objects (fun b => blog_id b =? pk)) ;;
    match found with
    | inl DoesNotExist => ret (JsonResponse 404 (ErrorPayload "Blog post not found"))
    | inl e => raise e
    | inr blog =>
      data <- match body request with
              | Some j => ret j
              | None => raise JSONDecodeError
              end ;;
      reaction <- get_reaction data ;;
      (if is_str "like" reaction then
         like_exists <- objects_exists Like_objects (like_of u blog) ;;
         dislike_exists <- objects_exists Dislike_objects (dislike_of u blog) ;;
         if like_exists then
           queryset_delete Like_objects (like_of u blog)
         else
           _ <- objects_create Like_objects (fun i => mkLike i (user_id u) (blog_id blog)) ;;
           if dislike_exists then queryset_delete Dislike_objects (dislike_of u blog)
           else ret tt
       else if is_str "dislike" reaction then
         dislike_exists <- objects_exists Dislike_objects (dislike_of u blog) ;;
         like_exists <- objects_exists Like_objects (like_of u blog) ;;
         if dislike_exists then
           queryset_delete Dislike_objects (dislike_of u blog)
         else
           _ <- objects_create Dislike_objects (fun i => mkDislike i (user_id u) (blog_id blog)) ;;
           if like_exists then queryset_delete Like_objects (like_of u blog)
           else ret tt
       else ret tt) ;;;
      likes_count <- objects_count Like_objects (fun r => like_blog r =? blog_id blog) ;;
      dislikes_count <- objects_count Dislike_objects (fun r => dislike_blog r =? blog_id blog) ;;
      liked <- objects_exists Like_objects (like_of u blog) ;;
      user_reaction <-
        (if liked then ret (Some "like")
         else
           disliked <- objects_exists Dislike_objects (dislike_of u blog) ;;
           ret (if disliked then Some "dislike" else None)) ;;
      ret (JsonResponse 200 (SuccessPayload likes_count dislikes_count user_reaction))
    end
  end.

Definition like_dislike_post : View := require_POST like_dislike_post_body.

Definition favorite_of (u : User) (b : Blog) (r : Favorite) : bool :=
  (favorite_user r =? user_id u) && (favorite_blog r =? blog_id b).
Definition rating_of (u : User) (b : Blog) (r : Rating) : bool :=
  (rating_user r =? user_id u) && (rating_blog r =? blog_id b).

(** [send_mail(..., fail_silently=False)]: the backend takes the message or
    raises. *)
Definition send_mail (up : bool) (subject recipient : string) : M unit :=
  fun w => if up then (Ok tt, mkWorld (db w) (flash w) (outbox w ++ [(subject, recipient)]))
           else (Raise SMTPException, w).

(** [Favorite.objects.get_or_create(user=..., blog=...)]. *)
Definition Favorite_get_or_create (u : User) (b : Blog) : M (Favorite * bool) :=
  found <- try (objects_get Favorite_objects (favorite_of u b)) ;;
  match found with
  | inr favorite => ret (favorite, false)
  | inl DoesNotExist =>
      favorite <- objects_create Favorite_objects
                    (fun i => mkFavorite i (user_id u) (blog_id b)) ;;
      ret (favorite, true)
  | inl e => raise e
  end.

Definition toggle_favorite_body : View := fun request pk =>
  blog <- get_blog_or_404 pk ;;
  match user request with
  | None => raise TypeError
  | Some u =>
    fc <- Favorite_get_or_create u blog ;;
    (if negb (snd fc) then
       instance_delete Favorite_objects (fst fc) ;;;
       messages_add SUCCESS "Removed from favorites."
     else
       messages_add SUCCESS "Added to favorites!" ;;;
       sent <- try (send_mail (mail_up request) "New Favorite Added!" (user_email u)) ;;
       match sent with
       | inr _ => ret tt
       | inl _ =>
           messages_add WARNING
             "Blog was added to favorites, but we could not send you an email confirmation."
       end) ;;;
    ret (HttpResponseRedirect (url_blog_detail (blog_id blog)))
  end.

Definition toggle_favorite : View := login_required toggle_favorite_body.

(** *** Deleting a post *)

Definition is_reply_to (batch : list Comment) (c : Comment) : bool :=
  match parent_comment c with
  | None => false
  | Some p => existsb (fun c' => comment_id c' =? p) batch
  end.

(** The deletion collector following [parent_comment] ([on_delete=CASCADE]):
    the replies to the batch just collected are collected in turn, until a
    batch has no reply left among the rows not yet collected.  The result is
    the rows that survive. *)
Fixpoint collect_replies (fuel : nat) (batch rest : list Comment) : list Comment :=
  match fuel with
  | O => rest
  | S fuel' =>
      match partition (is_reply_to batch) rest with
      | ([], _) => rest
      | (hit, keep) => collect_replies fuel' hit keep
      end
  end.

(** [blog.delete()]: every foreign key to [Blog] is [on_delete=CASCADE], and
    so is [Comment.parent_comment]. *)
Definition cascade_delete (b : Z) (d : DB) : DB :=
  let cs := rows (comments d) in
  let seed := filter (fun c => comment_blog c =? b) cs in
  let others := filter (fun c => negb (comment_blog c =? b)) cs in
  mkDB
    (mkTable (filter (fun r => negb (blog_id r =? b)) (rows (blogs d))) (seq (blogs d)))
    (mkTable (filter (fun r => negb (like_blog r =? b)) (rows (likes d))) (seq (likes d)))
    (mkTable (filter (fun r => negb (dislike_blog r =? b)) (rows (dislikes d))) (seq (dislikes d)))
    (mkTable (filter (fun r => negb (favorite_blog r =? b)) (rows (favorites d))) (seq (favorites d)))
    (mkTable (filter (fun r => negb (rating_blog r =? b)) (rows (ratings d))) (seq (ratings d)))
    (mkTable (collect_replies (List.length others) seed others) (seq (comments d))).

Definition Blog_delete (blog : Blog) : M unit :=
  write_db (cascade_delete (blog_id blog)).

(** [@author_or_staff_required]; [AnonymousUser] equals no author and is not
    staff. *)
Definition author_or_staff_required (view : View) : View := fun request pk =>
  found <- try (objects_get Blog_objects (fun b => blog_id b =? pk)) ;;
  match found with
  | inl DoesNotExist =>
      messages_add ERROR "The blog post you are trying to access does not exist." ;;;
      ret (HttpResponseRedirect url_blog_list)
  | inl e => raise e
  | inr blog =>
      let is_author :=
        match user request with
        | Some u => blog_author blog =? user_id u
        | None => false
        end in
      let is_staff :=
        match user request with
        | Some u => is_staff u
        | None => false
        end in
      if negb is_author && negb is_staff then
        messages_add ERROR "You can only edit or delete your own blogs." ;;;
        ret (HttpResponseRedirect url_blog_list)
      else view request pk
  end.

Definition blog_delete_body : View := fun request pk =>
  blog <- get_blog_or_404 pk ;;
  match method request with
  | POST =>
      Blog_delete blog ;;;
      messages_add SUCCESS "Blog deleted successfully!" ;;;
      ret (HttpResponseRedirect url_blog_list)
  | _ => ret (RenderConfirmDelete blog)
  end.

Definition blog_delete : View :=
  login_required (author_or_staff_required blog_delete_body).

(** *** The post page: comments and ratings *)

(** [CommentForm(request.POST)]: [content] is required; its cleaned value is
    the stripped text, refused when empty or holding a NUL. *)
Definition CommentForm_clean (post : list (string * string)) : option string :=
  match dict_get "content" post with
  | None => None
  | Some raw =>
      let text := Py.strip raw in
      if Py.truthy text && negb (Py.contains_nul text) then Some text else None
  end.

(** [RatingForm(request.POST)]: [score] is a [ChoiceField] over
    [RATING_CHOICES = [(i, i) for i in range(1, 6)]]; the cleaned value is
    the submitted string, which the integer column stores as its number. *)
Definition RATING_CHOICES : list (string * Z) :=
  [("1", 1); ("2", 2); ("3", 3); ("4", 4); ("5", 5)].

Definition RatingForm_clean (post : list (string * string)) : option Z :=
  match dict_get "score" post with
  | None => None
  | Some raw => dict_get raw RATING_CHOICES
  end.

(** [Rating.objects.update_or_create(user=..., blog=..., defaults={'score': s})]. *)
Definition Rating_update_or_create (u : User) (b : Blog) (s : Z) : M Rating :=
  found <- try (objects_get Rating_objects (rating_of u b)) ;;
  match found with
  | inr r =>
      let r' := mkRating (rating_id r) (rating_user r) (rating_blog r) s in
      instance_save Rating_objects r' ;;; ret r'
  | inl DoesNotExist =>
      objects_create Rating_objects (fun i => mkRating i (user_id u) (blog_id b) s)
  | inl e => raise e
  end.

(** [order_by('-created_at')]: newest first; rows created at the same
    instant keep their table order. *)
Fixpoint insert_newest (c : Comment) (l : list Comment) : list Comment :=
  match l with
  | [] => [c]
  | c' :: l' =>
      if created_at c' <=? created_at c then c :: l
      else c' :: insert_newest c l'
  end.

Definition order_by_newest (l : list Comment) : list Comment :=
  fold_right insert_newest [] l.

(** [Comment.objects.filter(blog=blog, parent_comment=None).order_by('-created_at')]. *)
Definition top_level_comments (b : Blog) (d : DB) : list Comment :=
  order_by_newest
    (filter (fun c => (comment_blog c =? blog_id b) &&
                      match parent_comment c with None => true | Some _ => false end)
            (rows (comments d))).

(** [order_by('-created_at')] on posts: newest first; posts created at the
    same instant keep their table order. *)
Fixpoint insert_newest_blog (b : Blog) (l : list Blog) : list Blog :=
  match l with
  | [] => [b]
  | b' :: l' =>
      if blog_created_at b' <=? blog_created_at b then b :: l
      else b' :: insert_newest_blog b l'
  end.

Definition blogs_by_newest (l : list Blog) : list Blog :=
  fold_right insert_newest_blog [] l.

(** [Blog.objects.filter(published=True).order_by('-created_at')[:5]]. *)
Definition recent_blogs (d : DB) : list Blog :=
  firstn 5 (blogs_by_newest (filter blog_published (rows (blogs d)))).

(** The tail of [blog_detail]: the page of top-level comments and the recent
    posts, rendered. *)
Definition render_detail (request : HttpRequest) (blog : Blog)
    (is_favorited : bool) (user_rating : option Rating)
    (user_liked user_disliked : bool) : M HttpResponse :=
  all_comments <- read_db (top_level_comments blog) ;;
  let page := Paginator.page_or_fallback all_comments 10
                (dict_get "comment_page" (GET_data request)) in
  recent <- read_db recent_blogs ;;
  ret (RenderDetail
         (mkDetailContext blog is_favorited user_rating recent page
            user_liked user_disliked)).

Definition is_POST (request : HttpRequest) : bool :=
  match method request with POST => true | _ => false end.

Definition blog_detail : View := fun request pk =>
  blog <- get_blog_or_404 pk ;;
  flags <-
    match user request with
    | None => ret (false, None, false, false)
    | Some u =>
        is_favorited <- objects_exists Favorite_objects (favorite_of u blog) ;;
        found <- try (objects_get Rating_objects (rating_of u blog)) ;;
        user_rating <- match found with
                       | inr r => ret (Some r)
                       | inl DoesNotExist => ret None
                       | inl e => raise e
                       end ;;
        user_liked <- objects_exists Like_objects (like_of u blog) ;;
        user_disliked <- objects_exists Dislike_objects (dislike_of u blog) ;;
        ret (is_favorited, user_rating, user_liked, user_disliked)
    end ;;
  let '(is_favorited, user_rating, user_liked, user_disliked) := flags in
  let rating_and_render :=
    match is_POST request && dict_in "rating_form" (POST_data request), user request with
    | true, Some u =>
        match RatingForm_clean (POST_data request) with
        | Some s =>
            Rating_update_or_create u blog s ;;;
            messages_add SUCCESS "Your rating has been saved!" ;;;
            ret (HttpResponseRedirect (url_blog_detail (blog_id blog)))
        | None =>
            render_detail request blog is_favorited user_rating user_liked user_disliked
        end
    | _, _ => render_detail request blog is_favorited user_rating user_liked user_disliked
    end in
  if is_POST request && dict_in "comment_form" (POST_data request) then
    match CommentForm_clean (POST_data request), user request with
    | Some text, Some u =>
        let parent_comment_id := dict_get "parent_comment_id" (POST_data request) in
        resolved <-
          match parent_comment_id with
          | Some raw =>
              if Py.truthy raw then
                match Py.int_of_str raw with
                | None => raise ValueError
                | Some i =>
                    found <- try (objects_get Comment_objects (fun c => comment_id c =? i)) ;;
                    match found with
                    | inr parent => ret (inr (Some parent))
                    | inl DoesNotExist =>
                        messages_add ERROR "Invalid comment to reply to." ;;;
                        ret (inl (HttpResponseRedirect (url_blog_detail (blog_id blog))))
                    | inl e => raise e
                    end
                end
              else ret (inr None)
          | None => ret (inr None)
          end ;;
        match resolved with
        | inl early_return => ret early_return
        | inr parent =>
            objects_create Comment_objects
              (fun i => mkComment i (blog_id blog) (user_id u) text
                          (received_at request) (option_map comment_id parent)) ;;;
            messages_add SUCCESS "Your comment has been posted!" ;;;
            ret (HttpResponseRedirect (url_blog_detail (blog_id blog)))
        end
    | _, _ =>
        messages_add ERROR "There was an error posting your comment." ;;;
        rating_and_render
    end
  else rating_and_render.

End Views.
Export Views.

(** ** Binary64 arithmetic, as far as [average_rating] uses it *)

Module Float64.

Local Open Scope Q_scope.

(** A finite binary64 value is carried by the rational it denotes.  The
    values met here are means of integer scores and their decimal roundings:
    zero, or of magnitude between 2^-63 and 2^31, where binary64 has neither
    subnormals nor overflow; [round64] is rounding to nearest, ties to even,
    with a 53-bit significand on that range. *)

(** Nearest integer, ties to even. *)
Definition rne (q : Q) : Z :=
  let f := Qfloor q in
  match Qcompare (q - inject_Z f) (1 # 2) with
  | Lt => f
  | Gt => (f + 1)%Z
  | Eq => if Z.even f then f else (f + 1)%Z
  end.

(** The exponent [e] with [2^e <= q < 2^(e+1)], for positive [q]. *)
Definition ilog2 (q : Q) : Z :=
  if Qle_bool 1 q then Z.log2 (Qfloor q)
  else (- Z.log2_up (Qceiling (/ q)))%Z.

Definition round64 (q : Q) : Q :=
  match Qnum q with
  | Z0 => 0
  | Zpos _ =>
      let ulp := 2 ^ (ilog2 q - 52) in
      Qred (inject_Z (rne (q / ulp)) * ulp)
  | Zneg _ =>
      let ulp := 2 ^ (ilog2 (- q) - 52) in
      Qred (- (inject_Z (rne (- q / ulp)) * ulp))
  end.

(** Python's [round(x, ndigits)] on a float: the decimal with [ndigits]
    places nearest to the exact value of [x] (ties to even), then the float
    nearest to that decimal. *)
Definition py_round (x : Q) (ndigits : Z) : Q :=
  round64 (inject_Z (rne (x * 10 ^ ndigits)) / 10 ^ ndigits).

(** The rational a primitive float denotes, to compare [round64] with the
    kernel's binary64 arithmetic. *)
Definition exact_of_float (f : PrimFloat.float) : option Q :=
  match FloatOps.Prim2SF f with
  | SpecFloat.S754_zero _ => Some 0
  | SpecFloat.S754_finite neg m e =>
      let v := Qred (inject_Z (Zpos m) * 2 ^ e) in
      Some (if neg then Qred (- v) else v)
  | _ => None
  end.

End Float64.

(** ** models.py: [Blog.average_rating] *)

Module Aggregates.







End Aggregates.
Export Aggregates.

(** ** The application as a transition system *)

Module App.

(** The routes of urls.py that touch engagement records. *)
Inductive Route :=
| route_blog_detail
| route_toggle_favorite
| route_like_dislike_post
| route_blog_delete.

Definition view_of (r : Route) : View :=
  match r with
  | route_blog_detail => blog_detail
  | route_toggle_favorite => toggle_favorite
  | route_like_dislike_post => like_dislike_post
  | route_blog_delete => blog_delete
  end.

Record Call := mkCall { route : Route; request : HttpRequest; target : Z }.

Definition handle (c : Call) (w : World) : HttpResponse * World :=
  respond (view_of (route c) (request c) (target c)) w.

Definition step (w : World) (c : Call) : World := snd (handle c w).

Definition run (calls : list Call) (w : World) : World := fold_left step calls w.

(** A site before any engagement: posts with distinct primary keys, and
    nothing else. *)
Definition fresh_site (w : World) : Prop :=
  NoDup (map blog_id (rows (blogs (db w)))) /\
  likes (db w) = empty_table /\ dislikes (db w) = empty_table /\
  favorites (db w) = empty_table /\ ratings (db w) = empty_table /\
  comments (db w) = empty_table.

Definition reachable (w : World) : Prop :=
  exists w0 calls, fresh_site w0 /\ w = run calls w0.

End App.
Export App.

(** ** Observations the properties are stated with *)

Module Observe.

(** The four things the two reaction tables can say about a (user, post)
    pair; [both] is the one the subsystem must never show. *)
Inductive Reaction := none | like | dislike | both.

Definition liked (d : DB) (u b : Z) : bool :=
  existsb (fun r => (like_user r =? u) && (like_blog r =? b)) (rows (likes d)).

Definition disliked (d : DB) (u b : Z) : bool :=
  existsb (fun r => (dislike_user r =? u) && (dislike_blog r =? b)) (rows (dislikes d)).

Definition reaction (d : DB) (u b : Z) : Reaction :=
  match liked d u b, disliked d u b with
  | false, false => none
  | true, false => like
  | false, true => dislike
  | true, true => both
  end.

Definition likes_count (d : DB) (b : Z) : nat :=
  List.length (filter (fun r => like_blog r =? b) (rows (likes d))).

Definition dislikes_count (d : DB) (b : Z) : nat :=
  List.length (filter (fun r => dislike_blog r =? b) (rows (dislikes d))).

(** The post with primary key [pk], when the table holds exactly one. *)
Definition blog_at (d : DB) (pk : Z) : option Blog :=
  match filter (fun b => blog_id b =? pk) (rows (blogs d)) with
  | [b] => Some b
  | _ => None
  end.

(** What [data.get('reaction')] evaluates to for this request, if the body
    is a JSON object. *)
Definition reaction_sent (req : HttpRequest) : option (option Json) :=
  match body req with
  | Some (JObj items) => Some (dict_get "reaction" items)
  | _ => None
  end.

(** A well-formed reaction request of user [u]. *)
Definition react_request (u : User) (what : string) : HttpRequest :=
  mkRequest POST (Some u) [] [] (Some (JObj [("reaction", JStr what)])) 0 true.

Definition toggle (what : string) (u : User) (pk : Z) : Call :=
  mkCall route_like_dislike_post (react_request u what) pk.

End Observe.
Export Observe.


(** ** What the views do to the database, as functions on it *)

Module Effect.

(** [Like.objects.create], [Like.objects.filter(...).delete()] and their
    [Dislike] counterparts. *)
Definition add_like (u b : Z) (d : DB) : DB :=
  set_likes (mkTable (rows (likes d) ++ [mkLike (seq (likes d)) u b]) (seq (likes d) + 1)) d.
Definition drop_likes (u b : Z) (d : DB) : DB :=
  set_likes (mkTable (filter (fun r => negb ((like_user r =? u) && (like_blog r =? b)))
                             (rows (likes d))) (seq (likes d))) d.
Definition add_dislike (u b : Z) (d : DB) : DB :=
  set_dislikes (mkTable (rows (dislikes d) ++ [mkDislike (seq (dislikes d)) u b])
                        (seq (dislikes d) + 1)) d.
Definition drop_dislikes (u b : Z) (d : DB) : DB :=
  set_dislikes (mkTable (filter (fun r => negb ((dislike_user r =? u) && (dislike_blog r =? b)))
                                (rows (dislikes d))) (seq (dislikes d))) d.

(** What the two branches of [like_dislike_post] do to the database. *)
Definition react_db (u b : Z) (v : option Json) (d : DB) : DB :=
  if is_str "like" v then
    if liked d u b then drop_likes u b d
    else if disliked d u b then drop_dislikes u b (add_like u b d) else add_like u b d
  else if is_str "dislike" v then
    if disliked d u b then drop_dislikes u b d
    else if liked d u b then drop_likes u b (add_dislike u b d) else add_dislike u b d
  else d.

(** Creating a Favorite, and [favorite.delete()]. *)
Definition add_favorite (u b : Z) (d : DB) : DB :=
  set_favorites (mkTable (rows (favorites d) ++ [mkFavorite (seq (favorites d)) u b])
                         (seq (favorites d) + 1)) d.

Definition del_favorite (f : Favorite) (d : DB) : DB :=
  set_favorites (mkTable (filter (fun r => negb (favorite_id r =? favorite_id f))
                                 (rows (favorites d))) (seq (favorites d))) d.

(** The two arms of [update_or_create]: a new Rating, or the stored one
    saved with the new score. *)
Definition add_rating (u b s : Z) (d : DB) : DB :=
  set_ratings (mkTable (rows (ratings d) ++ [mkRating (seq (ratings d)) u b s])
                       (seq (ratings d) + 1)) d.

Definition rescore (r : Rating) (s : Z) : Rating :=
  mkRating (rating_id r) (rating_user r) (rating_blog r) s.

Definition save_rating (r : Rating) (s : Z) (d : DB) : DB :=
  set_ratings
    (mkTable (map (fun r' => if rating_id r' =? rating_id r then rescore r s else r')
                  (rows (ratings d))) (seq (ratings d))) d.

(** [new_comment.save()]. *)
Definition add_comment (b u : Z) (text : string) (now : Z) (parent : option Z) (d : DB) : DB :=
  set_comments
    (mkTable (rows (comments d) ++ [mkComment (seq (comments d)) b u text now parent])
             (seq (comments d) + 1)) d.

(** Two toggles in a row. *)
Definition like_twice (u b : Z) (d : DB) : DB :=
  react_db u b (Some (JStr "like")) (react_db u b (Some (JStr "like")) d).

Definition dislike_twice (u b : Z) (d : DB) : DB :=
  react_db u b (Some (JStr "dislike")) (react_db u b (Some (JStr "dislike")) d).

End Effect.
Export Effect.

(** ** Vocabulary of the properties *)

Module Vocabulary.

(** The [user_reaction] the toggle reports: it looks for a Like first. *)
Definition reaction_name (r : Reaction) : option string :=
  match r with
  | like | both => Some "like"
  | dislike => Some "dislike"
  | none => None
  end.

(** The state machine of the two toggles, as the code runs it; [both] is
    listed for completeness, no request leads to it. *)
Definition toggle_like_next (s : Reaction) : Reaction :=
  match s with
  | none => like
  | like => none
  | dislike => like
  | both => dislike
  end.

Definition toggle_dislike_next (s : Reaction) : Reaction :=
  match s with
  | none => dislike
  | dislike => none
  | like => dislike
  | both => like
  end.

(** No (user, post) pair is in both reaction tables. *)
Definition exclusive (d : DB) : Prop :=
  forall u b, reaction d u b <> both.

(** The rows of a (user, post) pair, and the rows of a post. *)
Definition favorites_of (d : DB) (u b : Z) : list Favorite :=
  filter (fun r => (favorite_user r =? u) && (favorite_blog r =? b)) (rows (favorites d)).

Definition ratings_of (d : DB) (u b : Z) : list Rating :=
  filter (fun r => (rating_user r =? u) && (rating_blog r =? b)) (rows (ratings d)).

Definition likes_on (d : DB) (b : Z) : list Like :=
  filter (fun r => like_blog r =? b) (rows (likes d)).
Definition dislikes_on (d : DB) (b : Z) : list Dislike :=
  filter (fun r => dislike_blog r =? b) (rows (dislikes d)).
Definition favorites_on (d : DB) (b : Z) : list Favorite :=
  filter (fun r => favorite_blog r =? b) (rows (favorites d)).
Definition ratings_on (d : DB) (b : Z) : list Rating :=
  filter (fun r => rating_blog r =? b) (rows (ratings d)).
Definition comments_on (d : DB) (b : Z) : list Comment :=
  filter (fun c => comment_blog c =? b) (rows (comments d)).

Definition valid_score (s : Z) : Prop := 1 <= s <= 5.

(** Who [author_or_staff_required] lets through. *)
Definition may_manage (u : User) (blog : Blog) : bool :=
  (blog_author blog =? user_id u) || is_staff u.

Definition mail_warning : string :=
  "Blog was added to favorites, but we could not send you an email confirmation.".

(** Every stored reply belongs to the post of the comment it replies to. *)
Definition same_post (cs : list Comment) : Prop :=
  forall c x, In c cs -> In x cs -> parent_comment c = Some (comment_id x) ->
              comment_blog c = comment_blog x.

(** The comments a deletion of post [b] takes with it: the post's own, and
    every reply to one of those, at any depth. *)
Inductive descends (cs : list Comment) (b : Z) : Comment -> Prop :=
| descends_own c : comment_blog c = b -> descends cs b c
| descends_reply c x :
    In x cs -> descends cs b x -> parent_comment c = Some (comment_id x) ->
    descends cs b c.

(** [a] may stand before [b] in a listing ordered by ['-created_at']. *)
Definition newest_first (a b : Comment) : Prop := created_at b <= created_at a.

(** A comment of post [pk] without a parent. *)
Definition top_level_of (pk : Z) (c : Comment) : bool :=
  (comment_blog c =? pk) &&
  match parent_comment c with None => true | Some _ => false end.

(** The [unique_together] key of a row, and the rows that carry a key. *)
Definition key {A : Type} (k1 k2 : A -> Z) (r : A) : Z * Z := (k1 r, k2 r).
Definition keyed {A : Type} (k1 k2 : A -> Z) (u b : Z) (r : A) : bool :=
  (k1 r =? u) && (k2 r =? b).

(** The well-formedness the views maintain: primary keys are distinct and
    below the sequence, [unique_together] holds in the four tables that
    declare it, no pair is in both reaction tables, scores are in 1..5. *)
Record Inv (d : DB) : Prop := mkInv {
  inv_blogs : NoDup (map blog_id (rows (blogs d)));
  inv_likes : NoDup (map (key like_user like_blog) (rows (likes d)));
  inv_dislikes : NoDup (map (key dislike_user dislike_blog) (rows (dislikes d)));
  inv_exclusive : exclusive d;
  inv_favorites : NoDup (map (key favorite_user favorite_blog) (rows (favorites d)));
  inv_favorite_ids : NoDup (map favorite_id (rows (favorites d)));
  inv_ratings : NoDup (map (key rating_user rating_blog) (rows (ratings d)));
  inv_rating_ids : NoDup (map rating_id (rows (ratings d)));
  inv_rating_seq : Forall (fun r => rating_id r < seq (ratings d)) (rows (ratings d));
  inv_favorite_seq : Forall (fun r => favorite_id r < seq (favorites d)) (rows (favorites d));
  inv_scores : Forall (fun r => valid_score (score r)) (rows (ratings d));
  inv_comment_ids : NoDup (map comment_id (rows (comments d)));
  inv_comment_seq : Forall (fun c => comment_id c < seq (comments d)) (rows (comments d));
  inv_parents :
    Forall (fun c => forall p, parent_comment c = Some p -> p < comment_id c)
           (rows (comments d))
}.

(** [a] is reached from [c] by following [parent_comment] through stored
    comments. *)
Inductive ancestor (cs : list Comment) : Comment -> Comment -> Prop :=
| ancestor_parent c a :
    In a cs -> parent_comment c = Some (comment_id a) -> ancestor cs c a
| ancestor_step c x a :
    In x cs -> parent_comment c = Some (comment_id x) -> ancestor cs x a ->
    ancestor cs c a.

(** Every way a request to one of the four routes can change the database. *)
Inductive mutation (d : DB) : DB -> Prop :=
| mut_none : mutation d d
| mut_react u b v : mutation d (react_db u b v d)
| mut_favorite_add u b :
    favorites_of d u b = [] -> mutation d (add_favorite u b d)
| mut_favorite_del u b f :
    favorites_of d u b = [f] -> mutation d (del_favorite f d)
| mut_rating_add u b s :
    ratings_of d u b = [] -> valid_score s -> mutation d (add_rating u b s d)
| mut_rating_save u b r s :
    ratings_of d u b = [r] -> valid_score s -> mutation d (save_rating r s d)
| mut_comment_add b u text now parent :
    (forall p, parent = Some p -> existsb (fun c => comment_id c =? p) (rows (comments d)) = true) ->
    mutation d (add_comment b u text now parent d)
| mut_blog_delete b : mutation d (cascade_delete b d).

(** *** Requests *)

(** A well-formed reaction request: a POST of user [u] whose JSON body says
    ["reaction": what]. *)
Definition sends (req : HttpRequest) (u : User) (what : string) : Prop :=
  method req = POST /\ user req = Some u /\
  reaction_sent req = Some (Some (JStr what)).

(** A POST of user [u] that carries the rating form (and not the comment
    form) with a score the form accepts as [s]. *)
Definition submits_rating (req : HttpRequest) (u : User) (s : Z) : Prop :=
  method req = POST /\ user req = Some u /\
  dict_in "comment_form" (POST_data req) = false /\
  dict_in "rating_form" (POST_data req) = true /\
  RatingForm_clean (POST_data req) = Some s.

(** A rating form as the post page submits it. *)
Definition rating_request (u : User) (raw : string) : HttpRequest :=
  mkRequest POST (Some u) [("rating_form", ""); ("score", raw)] [] None 0 true.

(** A POST of user [u] that carries the comment form with text the form
    accepts as [text] and [parent] as its [parent_comment_id] field. *)
Definition posts_comment (req : HttpRequest) (u : User) (text : string)
    (parent : option string) : Prop :=
  method req = POST /\ user req = Some u /\
  dict_in "comment_form" (POST_data req) = true /\
  CommentForm_clean (POST_data req) = Some text /\
  dict_get "parent_comment_id" (POST_data req) = parent.

(** A comment form as the post page submits it. *)
Definition comment_request (u : User) (text : string) (parent : option string) (now : Z)
  : HttpRequest :=
  mkRequest POST (Some u)
    ([("comment_form", ""); ("content", text)] ++
     match parent with Some p => [("parent_comment_id", p)] | None => [] end)
    [] None now true.

(** The answer to an accepted comment and the world it leaves. *)
Definition comment_posted (w : World) (req : HttpRequest) (pk : Z) (u : User)
    (text : string) (parent : option Z) : HttpResponse * World :=
  (HttpResponseRedirect (url_blog_detail pk),
   mkWorld (add_comment pk (user_id u) text (received_at req) parent (db w))
           (flash w ++ [(SUCCESS, "Your comment has been posted!")]) (outbox w)).

(** The same site with other reaction tables. *)
Definition with_reactions (l : Table Like) (dl : Table Dislike) (w : World) : World :=
  mkWorld (set_likes l (set_dislikes dl (db w))) (flash w) (outbox w).

End Vocabulary.
Export Vocabulary.

(** ** A small site to evaluate the views on *)

Module Example.

Definition alice : User := mkUser 7 "alice@example.org" false.
Definition bob : User := mkUser 8 "bob@example.org" false.
Definition post1 : Blog := mkBlog 1 "First post" 7 1 1 true.
Definition post2 : Blog := mkBlog 2 "Second post" 7 2 2 true.

Definition site0 : World :=
  mkWorld (mkDB (mkTable [post1; post2] 3) empty_table empty_table empty_table
                empty_table empty_table) [] [].

(** Texts outside ASCII, by the bytes of their UTF-8 encoding: U+00A0 (the
    no-break space), U+3000 (the ideographic space), U+0661 (the
    Arabic-Indic digit one), U+09E8 (the Bengali digit two) and U+0985 (the
    Bengali letter a). *)
Definition utf8 (bytes : list nat) : string :=
  string_of_list_ascii (map ascii_of_nat bytes).

Definition nbsp : string := utf8 [194; 160]%nat.
Definition ideographic_space : string := utf8 [227; 128; 128]%nat.
Definition arabic_one : string := utf8 [217; 161]%nat.
Definition bengali_two : string := utf8 [224; 167; 168]%nat.
Definition bengali_a : string := utf8 [224; 166; 133]%nat.

(** The separator U+001C, which [str.strip] takes for white space and [int]
    does not. *)
Definition file_separator : string := utf8 [28]%nat.

(** [s * n]. *)
Fixpoint times (n : nat) (s : string) : string :=
  match n with
  | O => EmptyString
  | S n' => String.append s (times n' s)
  end.

End Example.

Module Example2.
Import Example.

(** bob comments on post 1; the comment gets primary key 1. *)
Definition site1 : World :=
  run [mkCall route_blog_detail (comment_request bob "First!" None 10) 1] site0.

Definition comment1 : Comment := mkComment 1 1 8 "First!" 10 None.

(** alice replies to comment 1, but on the page of post 2. *)
Definition cross_reply : Call :=
  mkCall route_blog_detail (comment_request alice "Thanks" (Some "1") 20) 2.

Definition site2 : World := run [cross_reply] site1.

(** bob leaves eleven comments on post 1, one every second; the page of post
    1 then has two pages of comments. *)
Definition eleven_comments : list Call :=
  map (fun t => mkCall route_blog_detail (comment_request bob "Again" None (Z.of_nat t)) 1)
      (List.seq 1 11).

Definition site11 : World := run eleven_comments site0.

Definition page_request (page : string) : HttpRequest :=
  mkRequest GET None [] [("comment_page", page)] None 40 true.

End Example2.

(** ** views.py: publishing and unpublishing a post *)

Module Publishing.

(** The instance after [blog.published = flag], as [blog.save()] writes it
    at time [now]: [updated_at] is [auto_now]. *)
Definition with_published (flag : bool) (now : Z) (blog : Blog) : Blog :=
  mkBlog (blog_id blog) (blog_title blog) (blog_author blog) (blog_created_at blog)
         now flag.

Definition publish_post_body : View := fun request pk =>
  blog <- get_blog_or_404 pk ;;
  (match method request with
   | POST =>
       instance_save Blog_objects (with_published true (received_at request) blog) ;;;
       messages_add SUCCESS "Blog published successfully!"
   | _ => ret tt
   end) ;;;
  ret (HttpResponseRedirect (url_blog_detail (blog_id blog))).

Definition publish_post : View :=
  login_required (author_or_staff_required publish_post_body).

Definition unpublish_post_body : View := fun request pk =>
  blog <- get_blog_or_404 pk ;;
  (match method request with
   | POST =>
       instance_save Blog_objects (with_published false (received_at request) blog) ;;;
       messages_add SUCCESS "Blog unpublished successfully!"
   | _ => ret tt
   end) ;;;
  ret (HttpResponseRedirect (url_blog_detail (blog_id blog))).

Definition unpublish_post : View :=
  login_required (author_or_staff_required unpublish_post_body).

(** What the two views do to the database: the row of post [pk] gets the
    flag and the time of the save, nothing else moves. *)
Definition set_published (flag : bool) (now : Z) (pk : Z) (d : DB) : DB :=
  set_blogs
    (mkTable (map (fun b => if blog_id b =? pk then with_published flag now b else b)
                  (rows (blogs d)))
             (seq (blogs d))) d.



End Publishing.
Export Publishing.

(** ** models.py: [Comment.get_replies] *)

Module Threads.

Definition is_reply_of (c : Comment) (r : Comment) : bool :=
  match parent_comment r with
  | Some p => p =? comment_id c
  | None => false
  end.

(** [self.replies.all()]: the rows whose [parent_comment] is this comment,
    in the model's default ordering ['-created_at']. *)
Definition get_replies (c : Comment) (d : DB) : list Comment :=
  order_by_newest (filter (is_reply_of c) (rows (comments d))).

End Threads.
Export Threads.

(** ** The site with every route that writes to these tables *)

Module Site.

(** The four routes of [App] and the two publishing routes of urls.py. *)
Inductive Endpoint :=
| on_engagement (r : Route)
| on_publish_post
| on_unpublish_post.

Definition endpoint_view (e : Endpoint) : View :=
  match e with
  | on_engagement r => view_of r
  | on_publish_post => publish_post
  | on_unpublish_post => unpublish_post
  end.

Record Hit := mkHit { endpoint : Endpoint; hit_request : HttpRequest; hit_target : Z }.

Definition serve (h : Hit) (w : World) : HttpResponse * World :=
  respond (endpoint_view (endpoint h) (hit_request h) (hit_target h)) w.

Definition advance (w : World) (h : Hit) : World := snd (serve h w).

Definition browse (hits : list Hit) (w : World) : World := fold_left advance hits w.

(** What can be reached from a fresh site through the six routes. *)
Definition live (w : World) : Prop :=
  exists w0 hits, fresh_site w0 /\ w = browse hits w0.

Definition of_call (c : Call) : Hit :=
  mkHit (on_engagement (route c)) (request c) (target c).

(** Every stored reply has its parent in the table. *)
Definition parents_stored (d : DB) : Prop :=
  forall c p, In c (rows (comments d)) -> parent_comment c = Some p ->
              exists x, In x (rows (comments d)) /\ comment_id x = p.

(** A text as [CommentForm] hands it on: not empty, no NUL, nothing to
    strip. *)
Definition clean_text (text : string) : Prop :=
  text <> EmptyString /\ Py.contains_nul text = false /\ Py.strip text = text.

(** What a request to an endpoint can do to the database, with what the view
    has checked before it writes. *)
Inductive change : Endpoint -> DB -> DB -> Prop :=
| change_none e d : change e d d
| change_react d u b v blog :
    blog_at d b = Some blog ->
    change (on_engagement route_like_dislike_post) d (react_db u b v d)
| change_favorite_add d u b blog :
    blog_at d b = Some blog -> favorites_of d u b = [] ->
    change (on_engagement route_toggle_favorite) d (add_favorite u b d)
| change_favorite_del d u b f :
    favorites_of d u b = [f] ->
    change (on_engagement route_toggle_favorite) d (del_favorite f d)
| change_rating_add d u b s blog :
    blog_at d b = Some blog -> ratings_of d u b = [] -> valid_score s ->
    change (on_engagement route_blog_detail) d (add_rating u b s d)
| change_rating_save d u b r s :
    ratings_of d u b = [r] -> valid_score s ->
    change (on_engagement route_blog_detail) d (save_rating r s d)
| change_comment_add d b u text now parent blog :
    blog_at d b = Some blog -> clean_text text ->
    (forall p, parent = Some p ->
               existsb (fun c => comment_id c =? p) (rows (comments d)) = true) ->
    change (on_engagement route_blog_detail) d (add_comment b u text now parent d)
| change_blog_delete d b blog :
    blog_at d b = Some blog ->
    change (on_engagement route_blog_delete) d (cascade_delete b d)
| change_publish d b now blog :
    blog_at d b = Some blog -> change on_publish_post d (set_published true now b d)
| change_unpublish d b now blog :
    blog_at d b = Some blog -> change on_unpublish_post d (set_published false now b d).

(** Post [b] is in the table. *)
Definition stored (d : DB) (b : Z) : Prop :=
  exists blog, In blog (rows (blogs d)) /\ blog_id blog = b.

(** Every row of the five engagement tables belongs to a stored post. *)
Definition no_orphans (d : DB) : Prop :=
  Forall (fun r => stored d (like_blog r)) (rows (likes d)) /\
  Forall (fun r => stored d (dislike_blog r)) (rows (dislikes d)) /\
  Forall (fun r => stored d (favorite_blog r)) (rows (favorites d)) /\
  Forall (fun r => stored d (rating_blog r)) (rows (ratings d)) /\
  Forall (fun c => stored d (comment_blog c)) (rows (comments d)).

End Site.
Export Site.

(** ** Python's [str] of an [int] *)

Module PyInt.

(** The decimal writing of an integer, with a minus sign for a negative
    one. *)
Definition decimal (z : Z) : string :=
  DecimalString.NilZero.string_of_int (Z.to_int z).

(** [str(n)]: the decimal writing; [None] stands for the [ValueError] of a
    number with more than [sys.get_int_max_str_digits()] digits. *)
Definition str_of_int (z : Z) : option string :=
  let text := decimal z in
  if (Py.int_max_str_digits <? Py.count_digits text)%nat then None else Some text.

End PyInt.

(** ** The contact form (models.py, forms.py, views.py) *)

Module Contact.

(** [class ContactMessage(models.Model)]. *)
Record ContactMessage := mkContactMessage {
  contact_id : Z;
  contact_name : string;
  contact_email : string;
  contact_message : string;
  submitted_at : Z
}.

(** The part of the site the contact view works on: the table of messages,
    the messages flashed to the visitor and the mail handed to the backend
    (subject, body, recipient). *)
Record Desk := mkDesk {
  inbox : Table ContactMessage;
  desk_flash : list (Level * string);
  desk_outbox : list (string * string * string)
}.

Inductive ContactResponse :=
| RedirectContactSuccess
| RenderContact (bound : bool).

Section Form.

(** [django.core.validators.EmailValidator] and [settings.CONTACT_EMAIL] are
    not part of the application; the view is embedded for any validator and
    any address. *)
Variable EmailValidator : string -> bool.
Variable CONTACT_EMAIL : string.

(** A required [forms.CharField]: the stripped value, refused when empty,
    when it holds a NUL, or when it has more than [max_length] characters. *)
Definition CharField_clean (max_length : option nat) (raw : option string) : option string :=
  match raw with
  | None => None
  | Some raw =>
      let value := Py.strip raw in
      if Py.truthy value && negb (Py.contains_nul value) &&
         match max_length with
         | Some n => (Py.len value <=? n)%nat
         | None => true
         end
      then Some value else None
  end.

(** [ContactForm(request.POST)]: [name] is a [CharField(max_length=100)],
    [email] an [EmailField] (at most 254 characters, then the validator),
    [message] a [TextField]. *)
Definition ContactForm_clean (post : list (string * string))
  : option (string * string * string) :=
  match CharField_clean (Some 100%nat) (dict_get "name" post),
        CharField_clean (Some 254%nat) (dict_get "email" post),
        CharField_clean None (dict_get "message" post) with
  | Some name, Some email, Some message =>
      if EmailValidator email then Some (name, email, message) else None
  | _, _, _ => None
  end.

(** [form.save()]: the INSERT of the new row. *)
Definition ContactForm_save (now : Z) (cleaned : string * string * string) (k : Desk)
  : ContactMessage * Desk :=
  let '(name, email, message) := cleaned in
  let row := mkContactMessage (seq (inbox k)) name email message now in
  (row, mkDesk (mkTable (rows (inbox k) ++ [row]) (seq (inbox k) + 1))
               (desk_flash k) (desk_outbox k)).

Definition newline : string := String (ascii_of_nat 10) EmptyString.

Definition contact_subject (m : ContactMessage) : string :=
  String.append "New Contact Message from " (contact_name m).

Definition contact_body (m : ContactMessage) : string :=
  String.append "Name: "
    (String.append (contact_name m)
       (String.append newline
          (String.append "Email: "
             (String.append (contact_email m)
                (String.append newline
                   (String.append newline
                      (String.append "Message:"
                         (String.append newline (contact_message m))))))))).

Definition desk_message (l : Level) (text : string) (k : Desk) : Desk :=
  mkDesk (inbox k) (desk_flash k ++ [(l, text)]) (desk_outbox k).

(** [contact(request)].  [send_mail(..., fail_silently=False)] hands the
    message to the backend or raises, and the view catches whatever it
    raises. *)
Definition contact (request : HttpRequest) (k : Desk) : ContactResponse * Desk :=
  match method request with
  | POST =>
      match ContactForm_clean (POST_data request) with
      | Some cleaned =>
          let (contact_message, k1) := ContactForm_save (received_at request) cleaned k in
          if mail_up request then
            let k2 := mkDesk (inbox k1) (desk_flash k1)
                        (desk_outbox k1 ++
                         [(contact_subject contact_message, contact_body contact_message,
                           CONTACT_EMAIL)]) in
            (RedirectContactSuccess,
             desk_message SUCCESS
               "Your message was sent successfully! We will get back to you shortly." k2)
          else
            (RenderContact true,
             desk_message ERROR
               "There was an error sending your message. Please try again later." k1)
      | None =>
          (RenderContact true, desk_message ERROR "Please correct the errors below." k)
      end
  | _ => (RenderContact false, k)
  end.

End Form.

End Contact.
Export Contact.

(** ** Accounts: [Profile] and [verify_email] *)

Module Accounts.

(** [django.contrib.auth.models.User] as a row of its table. *)
Record Account := mkAccount {
  account_id : Z;
  username : string;
  account_email : string;
  is_active : bool
}.

(** [class Profile(models.Model)]; [verification_token] is the UUID in its
    canonical writing. *)
Record Profile := mkProfile {
  profile_id : Z;
  profile_user : Z;
  user_type : string;
  email_verified : bool;
  verification_token : string
}.

Record Registry := mkRegistry {
  accounts : list Account;
  profiles : list Profile;
  registry_flash : list (Level * string)
}.

Inductive VerifyResponse :=
| RedirectLogin
| VerifyServerError (e : exn).

Definition registry_message (l : Level) (text : string) (g : Registry) : Registry :=
  mkRegistry (accounts g) (profiles g) (registry_flash g ++ [(l, text)]).

(** [instance.save()] of a stored row: an UPDATE by primary key. *)
Definition save_account (a : Account) (g : Registry) : Registry :=
  mkRegistry (map (fun a' => if account_id a' =? account_id a then a else a') (accounts g))
             (profiles g) (registry_flash g).

Definition save_profile (p : Profile) (g : Registry) : Registry :=
  mkRegistry (accounts g)
             (map (fun p' => if profile_id p' =? profile_id p then p else p') (profiles g))
             (registry_flash g).

(** [verify_email(request, token)].  Only [Profile.DoesNotExist] is caught:
    a token that two profiles carry, or a profile whose user is gone, is an
    uncaught exception. *)
Definition verify_email (token : string) (g : Registry) : VerifyResponse * Registry :=
  match filter (fun p => String.eqb (verification_token p) token) (profiles g) with
  | [] => (RedirectLogin, registry_message ERROR "Invalid verification token." g)
  | [profile] =>
      let profile := mkProfile (profile_id profile) (profile_user profile)
                       (user_type profile) true (verification_token profile) in
      match filter (fun a => account_id a =? profile_user profile) (accounts g) with
      | [] => (VerifyServerError DoesNotExist, g)
      | [user] =>
          let user := mkAccount (account_id user) (username user) (account_email user) true in
          let g := save_account user g in
          let g := save_profile profile g in
          (RedirectLogin,
           registry_message SUCCESS "Email verified! You can now log in." g)
      | _ :: _ :: _ => (VerifyServerError MultipleObjectsReturned, g)
      end
  | _ :: _ :: _ => (VerifyServerError MultipleObjectsReturned, g)
  end.

(** The rows [verify_email] writes, and the rows it finds. *)
Definition activated (a : Account) : Account :=
  mkAccount (account_id a) (username a) (account_email a) true.

Definition verified (p : Profile) : Profile :=
  mkProfile (profile_id p) (profile_user p) (user_type p) true (verification_token p).

Definition has_token (token : string) (p : Profile) : bool :=
  String.eqb (verification_token p) token.

End Accounts.

(** ** admin.py *)

Module Admin.

(** [CommentAdmin.content_preview]. *)
Definition content_preview (obj : Comment) : string :=
  if (50 <? Py.len (content obj))%nat
  then String.append (Py.slice_to 50 (content obj)) "..."
  else content obj.

(** [ContactMessageAdmin.message_preview]. *)
Definition message_preview (obj : ContactMessage) : string :=
  if (50 <? Py.len (contact_message obj))%nat
  then String.append (Py.slice_to 50 (contact_message obj)) "..."
  else contact_message obj.

(** [BlogAdmin.comment_count]: [obj.comments.count()]. *)
Definition comment_count (d : DB) (obj : Blog) : nat :=
  List.length (filter (fun c => comment_blog c =? blog_id obj) (rows (comments d))).



End Admin.

(** ** urls.py *)

Module Urls.

(** The path converters the routes use: [int] is [[0-9]+], [str] (the
    default) is [[^/]+], [uuid] is five groups of lower-case hexadecimal
    digits joined by dashes. *)
Inductive Converter := conv_int | conv_str | conv_uuid.

Inductive Piece :=
| Lit (text : string)
| Conv (c : Converter).

Inductive Arg :=
| ArgInt (z : Z)
| ArgStr (s : string).

Definition is_digit (c : ascii) : bool :=
  match Py.digit c with Some _ => true | None => false end.

Definition is_hex (c : ascii) : bool :=
  is_digit c || (let n := nat_of_ascii c in (97 <=? n) && (n <=? 102))%nat.

Definition not_slash (c : ascii) : bool := negb (Ascii.eqb c "/").

(** The class of characters a converter is made of, dashes of a UUID
    apart. *)
Definition class (c : Converter) : ascii -> bool :=
  match c with
  | conv_int => is_digit
  | conv_str => not_slash
  | conv_uuid => is_hex
  end.

(** The longest prefix of [s] in a class, and what follows it. *)
Fixpoint span (p : ascii -> bool) (s : string) : string * string :=
  match s with
  | EmptyString => (EmptyString, EmptyString)
  | String c s' =>
      if p c then let (a, b) := span p s' in (String c a, b)
      else (EmptyString, s)
  end.

(** Exactly [n] characters of a class. *)
Fixpoint take_class (p : ascii -> bool) (n : nat) (s : string) : option (string * string) :=
  match n with
  | O => Some (EmptyString, s)
  | S n' =>
      match s with
      | String c s' =>
          if p c then
            match take_class p n' s' with
            | Some (a, b) => Some (String c a, b)
            | None => None
            end
          else None
      | EmptyString => None
      end
  end.

(** Groups of hexadecimal digits of the given lengths, joined by dashes. *)
Fixpoint take_groups (groups : list nat) (s : string) : option (string * string) :=
  match groups with
  | [] => Some (EmptyString, s)
  | [n] => take_class is_hex n s
  | n :: more =>
      match take_class is_hex n s with
      | Some (a, String "-" rest) =>
          match take_groups more rest with
          | Some (b, r) => Some (String.append a (String "-" b), r)
          | None => None
          end
      | _ => None
      end
  end.

Definition take_uuid : string -> option (string * string) :=
  take_groups [8; 4; 4; 4; 12]%nat.

(** The text the regular expression of a converter takes from the front of
    [s], and what is left.  In urls.py every converter is followed by a
    slash, which none of the classes contains, so the longest match is the
    only one the route's regular expression can use. *)
Definition take (c : Converter) (s : string) : option (string * string) :=
  match c with
  | conv_int =>
      let (v, rest) := span is_digit s in
      match v with
      | EmptyString => None
      | _ => Some (v, rest)
      end
  | conv_str =>
      let (v, rest) := span not_slash s in
      match v with
      | EmptyString => None
      | _ => Some (v, rest)
      end
  | conv_uuid => take_uuid s
  end.

(** [to_python] of a converter: [int(value)] for [int], the text for [str],
    the UUID (carried by its canonical writing, which is the text matched)
    for [uuid].  [None] stands for [ValueError]. *)
Definition to_python (c : Converter) (text : string) : option Arg :=
  match c with
  | conv_int => option_map ArgInt (Py.int_of_str text)
  | conv_str => Some (ArgStr text)
  | conv_uuid => Some (ArgStr text)
  end.

(** What a converter takes from the front of [s], as the argument the view
    receives, and what is left; a [ValueError] of [to_python] makes the route
    not match. *)
Definition convert (c : Converter) (s : string) : option (Arg * string) :=
  match take c s with
  | Some (v, rest) =>
      match to_python c v with
      | Some a => Some (a, rest)
      | None => None
      end
  | None => None
  end.

Fixpoint strip_prefix (text s : string) : option string :=
  match text, s with
  | EmptyString, _ => Some s
  | String a text', String b s' => if Ascii.eqb a b then strip_prefix text' s' else None
  | String _ _, EmptyString => None
  end.

(** Matching a whole path against a route of [path()]. *)
Fixpoint match_route (route : list Piece) (s : string) : option (list Arg) :=
  match route with
  | [] => match s with EmptyString => Some [] | _ => None end
  | Lit text :: more =>
      match strip_prefix text s with
      | Some rest => match_route more rest
      | None => None
      end
  | Conv c :: more =>
      match convert c s with
      | Some (a, rest) =>
          match match_route more rest with
          | Some args => Some (a :: args)
          | None => None
          end
      | None => None
      end
  end.

(** [urlpatterns] of blog/urls.py, each route with its name, in the order of
    the file. *)
Definition urlpatterns : list (list Piece * string) :=
  [ ([], "home");
    ([Lit "blogs/"], "blog_list");
    ([Lit "blog/"; Conv conv_int; Lit "/"], "blog_detail");
    ([Lit "authors/"], "author_list");
    ([Lit "author/"; Conv conv_int; Lit "/"], "author_detail");
    ([Lit "contact/"], "contact");
    ([Lit "contact/success/"], "contact_success");
    ([Lit "register/"], "register");
    ([Lit "login/"], "login");
    ([Lit "logout/"], "logout");
    ([Lit "profile/"], "profile");
    ([Lit "password-change/"], "password_change");
    ([Lit "verify-email/"; Conv conv_uuid; Lit "/"], "verify_email");
    ([Lit "verify-email-sent/"], "verify_email_sent");
    ([Lit "blog/create/"], "blog_create");
    ([Lit "blog/"; Conv conv_int; Lit "/update/"], "blog_update");
    ([Lit "blog/"; Conv conv_int; Lit "/delete/"], "blog_delete");
    ([Lit "blog/"; Conv conv_int; Lit "/favorite/"], "toggle_favorite");
    ([Lit "favorites/"], "favorite_list");
    ([Lit "blog/"; Conv conv_int; Lit "/publish/"], "publish_post");
    ([Lit "blog/"; Conv conv_int; Lit "/unpublish/"], "unpublish_post");
    ([Lit "blog/"; Conv conv_int; Lit "/like-dislike/"], "like_dislike_post");
    ([Lit "password-reset/"], "password_reset");
    ([Lit "password-reset/done/"], "password_reset_done");
    ([Lit "password-reset-confirm/"; Conv conv_str; Lit "/"; Conv conv_str; Lit "/"],
     "password_reset_confirm");
    ([Lit "password-reset-complete/"], "password_reset_complete") ].

(** The first pattern that matches decides. *)
Fixpoint resolve_in (patterns : list (list Piece * string)) (s : string)
  : option (string * list Arg) :=
  match patterns with
  | [] => None
  | (route, name) :: more =>
      match match_route route s with
      | Some args => Some (name, args)
      | None => resolve_in more s
      end
  end.

(** Resolving a request path in the application's URLconf, which the
    project includes at the root: [None] when no route of the application
    matches. *)
Definition resolve (path : string) : option (string * list Arg) :=
  match path with
  | String "/" s => resolve_in urlpatterns s
  | _ => None
  end.

Fixpoint all_in (p : ascii -> bool) (s : string) : bool :=
  match s with
  | EmptyString => true
  | String c s' => p c && all_in p s'
  end.

(** The regular expression of a route alone, without [to_python]. *)
Fixpoint search (route : list Piece) (s : string) : bool :=
  match route with
  | [] => match s with EmptyString => true | _ => false end
  | Lit text :: more =>
      match strip_prefix text s with
      | Some rest => search more rest
      | None => false
      end
  | Conv c :: more =>
      match take c s with
      | Some (_, rest) => search more rest
      | None => false
      end
  end.

(** [to_url] of a converter: the three of them are [str(value)]. *)
Definition to_url (c : Converter) (a : Arg) : option string :=
  match a with
  | ArgInt z => PyInt.str_of_int z
  | ArgStr text => Some text
  end.

(** The route with the arguments put in place of its converters:
    [None] when their number is not that of the converters or when a
    [to_url] raises [ValueError]. *)
Fixpoint substitute (route : list Piece) (args : list Arg) : option string :=
  match route with
  | [] => match args with [] => Some EmptyString | _ => None end
  | Lit text :: more =>
      match substitute more args with
      | Some rest => Some (String.append text rest)
      | None => None
      end
  | Conv c :: more =>
      match args with
      | a :: args' =>
          match to_url c a, substitute more args' with
          | Some text, Some rest => Some (String.append text rest)
          | _, _ => None
          end
      | [] => None
      end
  end.

(** The characters [reverse] leaves as they are: letters, digits and
    [_.-~], and the safe characters [!$&'()*+,;=/~:@]. *)
Definition is_safe (c : ascii) : bool :=
  let n := Py.byte c in
  ((48 <=? n) && (n <=? 57)) || ((65 <=? n) && (n <=? 90)) || ((97 <=? n) && (n <=? 122)) ||
  existsb (Ascii.eqb c) (list_ascii_of_string "_.-~!$&'()*+,;=/:@").

Definition hex_digit (n : Z) : ascii :=
  ascii_of_nat (Z.to_nat (if n <? 10 then 48 + n else 55 + n)).

(** [urllib.parse.quote(url, safe=...)]: every other byte of the UTF-8
    encoding becomes [%XX]. *)
Fixpoint quote (s : string) : string :=
  match s with
  | EmptyString => EmptyString
  | String c s' =>
      if is_safe c then String c (quote s')
      else String "%" (String (hex_digit (Py.byte c / 16))
                         (String (hex_digit (Py.byte c mod 16)) (quote s')))
  end.

(** [escape_leading_slashes]. *)
Definition escape_leading_slashes (url : string) : string :=
  match url with
  | String "/" (String "/" rest) => String.append "/%2F" rest
  | _ => url
  end.

(** [reverse('blog:<name>', args=...)]: the arguments are put in place, the
    result is checked against the route's regular expression and then
    quoted.  [None] is [NoReverseMatch]. *)
Definition reverse (name : string) (args : list Arg) : option string :=
  match find (fun p => String.eqb (snd p) name) urlpatterns with
  | Some (route, _) =>
      match substitute route args with
      | Some candidate =>
          if search route candidate
          then Some (escape_leading_slashes (quote (String "/" candidate)))
          else None
      | None => None
      end
  | None => None
  end.

(** A route that takes no argument but numbers: its converters, if it has
    any, are all [int]. *)
Fixpoint int_route (route : list Piece) : bool :=
  match route with
  | [] => true
  | Lit _ :: more => int_route more
  | Conv conv_int :: more => int_route more
  | Conv _ :: _ => false
  end.

(** The literal parts of a route are made of characters of a class. *)
Fixpoint literals (p : ascii -> bool) (route : list Piece) : bool :=
  match route with
  | [] => true
  | Lit text :: more => all_in p text && literals p more
  | Conv _ :: more => literals p more
  end.

Definition is_int (a : Arg) : Prop :=
  match a with
  | ArgInt _ => True
  | ArgStr _ => False
  end.

(** A text that is empty or begins outside the class [p]. *)
Definition stops (p : ascii -> bool) (rest : string) : Prop :=
  match rest with
  | EmptyString => True
  | String ch _ => p ch = false
  end.

(** Every converter of a route is followed by the end of the route or by a
    literal that begins outside the converter's class. *)
Fixpoint delimited (route : list Piece) : bool :=
  match route with
  | [] => true
  | Lit _ :: more => delimited more
  | Conv c :: more =>
      match more with
      | [] => true
      | Lit (String ch _) :: _ => negb (class c ch) && delimited more
      | _ => false
      end
  end.

(** A sufficient test that no path matches both routes: they are compared
    character by character up to the first difference. *)
Fixpoint apart (fuel : nat) (p q : list Piece) : bool :=
  match fuel with
  | O => false
  | S fuel' =>
      match p, q with
      | Lit EmptyString :: p', _ => apart fuel' p' q
      | _, Lit EmptyString :: q' => apart fuel' p q'
      | [], [] => false
      | [], _ :: _ => true
      | _ :: _, [] => true
      | Lit (String a x) :: p', Lit (String b y) :: q' =>
          if Ascii.eqb a b then apart fuel' (Lit x :: p') (Lit y :: q') else true
      | Lit (String a _) :: _, Conv c :: _ => negb (class c a)
      | Conv c :: _, Lit (String b _) :: _ => negb (class c b)
      | Conv c :: p', Conv c' :: q' =>
          match c, c' with
          | conv_int, conv_int | conv_str, conv_str | conv_uuid, conv_uuid =>
              apart fuel' p' q'
          | _, _ => false
          end
      end
  end.

(** Every pattern is apart from every later one. *)
Fixpoint pairwise_apart (patterns : list (list Piece * string)) : bool :=
  match patterns with
  | [] => true
  | (route, _) :: more =>
      forallb (fun q => apart 100 route (fst q)) more && pairwise_apart more
  end.

End Urls.

(** * Properties *)

(** ** Python's [str] and [int] *)

Module PyFacts.
Import Py.

Lemma append_empty (s : string) : String.append s EmptyString = s.
Proof. induction s as [|c s IH]; simpl; [reflexivity | now rewrite IH]. Qed.

Lemma append_append (a b c : string) :
  String.append (String.append a b) c = String.append a (String.append b c).
Proof. induction a as [|x a IH]; simpl; [reflexivity | now rewrite IH]. Qed.

(** *** Cutting a text into characters *)

Lemma chars_cons c s :
  chars (String c s) =
    if continues s
    then match chars s with
         | ch :: more => String c ch :: more
         | [] => [String c EmptyString]
         end
    else String c EmptyString :: chars s.
Proof. simpl. now destruct (chars s), (continues s). Qed.

Lemma join_chars s : join (chars s) = s.
Proof.
  induction s as [|c s IH]; [reflexivity|]. rewrite chars_cons.
  destruct (continues s), (chars s) as [|ch more]; simpl in *; now rewrite <- IH.
Qed.

Lemma chars_one a : forall t rest,
  every is_continuation t = true -> continues rest = false ->
  chars (String a (String.append t rest)) = String a t :: chars rest.
Proof.
  intros t. revert a. induction t as [|b t IH]; intros a rest Ht Hrest.
  - simpl String.append. rewrite chars_cons. now rewrite Hrest.
  - simpl in Ht. apply andb_true_iff in Ht as [Hb Ht].
    simpl String.append. rewrite chars_cons. simpl continues. rewrite Hb.
    now rewrite (IH b rest Ht Hrest).
Qed.

Lemma well_cut_tail ch l : well_cut (ch :: l) -> well_cut l.
Proof.
  intros [Hc Hl]. inversion Hc; subst. split; trivial.
  simpl in Hl. destruct l; simpl; [constructor|]. now inversion Hl.
Qed.

Lemma chars_join_app l : forall t,
  well_cut l -> continues t = false ->
  chars (String.append (join l) t) = l ++ chars t.
Proof.
  induction l as [|ch l IH]; intros t Hw Ht; [reflexivity|].
  pose proof (well_cut_tail _ _ Hw) as Hw'. destruct Hw as [Hc Hl].
  inversion Hc as [|? ? Hch _]; subst. destruct ch as [|a tl]; [discriminate Hch|].
  simpl in Hch. simpl join. simpl String.append. rewrite append_append.
  rewrite chars_one; trivial.
  - simpl. f_equal. now apply IH.
  - destruct l as [|ch' l']; [exact Ht|]. simpl in Hl. inversion Hl as [|? ? Hlead _]; subst.
    destruct Hw' as [Hc' _]. inversion Hc' as [|? ? Hch' _]; subst.
    destruct ch' as [|a' t']; [discriminate Hch'|]. exact Hlead.
Qed.

Lemma chars_join l : well_cut l -> chars (join l) = l.
Proof.
  intros Hw. rewrite <- (append_empty (join l)).
  rewrite chars_join_app by trivial. apply app_nil_r.
Qed.

Lemma chars_well_cut s : well_cut (chars s).
Proof.
  induction s as [|c s [IHc IHl]]; [split; constructor|].
  rewrite chars_cons. destruct (continues s) eqn:Hs.
  - destruct (chars s) as [|ch more] eqn:E.
    + split; repeat constructor.
    + inversion IHc as [|? ? Hch Hmore]; subst. split.
      * constructor; trivial. simpl.
        assert (s = String.append ch (join more)) as Hj by (rewrite <- (join_chars s), E; reflexivity).
        destruct ch as [|a t]; [discriminate Hch|]. simpl in Hch |- *.
        rewrite Hj in Hs. simpl in Hs. now rewrite Hs.
      * exact IHl.
  - split.
    + constructor; trivial.
    + simpl. destruct (chars s) as [|ch more] eqn:E; constructor.
      * inversion IHc as [|? ? Hch _]; subst.
        assert (s = String.append ch (join more)) as Hj by (rewrite <- (join_chars s), E; reflexivity).
        destruct ch as [|a t]; [discriminate Hch|].
        rewrite Hj in Hs. exact Hs.
      * exact IHl.
Qed.

Lemma well_cut_app l1 l2 : well_cut (l1 ++ l2) -> well_cut l1 /\ well_cut l2.
Proof.
  induction l1 as [|ch l1 IH]; intros Hw.
  - split; [split; constructor | exact Hw].
  - pose proof (well_cut_tail _ _ Hw) as Hw'. destruct (IH Hw') as [H1 H2].
    split; trivial. destruct Hw as [Hc Hl]. inversion Hc; subst. split.
    + constructor; trivial. apply H1.
    + simpl in *. apply Forall_app in Hl. apply Hl.
Qed.

(** *** [strip] *)

Section DropWhile.
Context {A : Type}.
Variable p : A -> bool.

Lemma drop_while_suffix l : exists gone, l = gone ++ drop_while p l /\ Forall (fun x => p x = true) gone.
Proof.
  induction l as [|x l (gone & Hl & Hg)]; [exists []; split; [reflexivity | constructor]|].
  simpl. destruct (p x) eqn:E.
  - exists (x :: gone). split; [simpl; now f_equal | now constructor].
  - exists []. split; [reflexivity | constructor].
Qed.

Lemma drop_while_head l : match drop_while p l with x :: _ => p x = false | [] => True end.
Proof.
  induction l as [|x l IH]; simpl; trivial. destruct (p x) eqn:E; trivial.
Qed.

Lemma drop_while_clean l :
  match l with x :: _ => p x = false | [] => True end -> drop_while p l = l.
Proof. destruct l as [|x l]; simpl; trivial. now intros ->. Qed.

Lemma drop_while_all l : Forall (fun x => p x = true) l -> drop_while p l = [].
Proof. induction 1 as [|x l Hx _ IH]; simpl; trivial. now rewrite Hx. Qed.

End DropWhile.

Lemma rstrip_chars_prefix l :
  exists gone, l = rstrip_chars l ++ gone /\ Forall (fun ch => is_space ch = true) gone.
Proof.
  unfold rstrip_chars.
  destruct (drop_while_suffix is_space (rev l)) as (gone & Hl & Hg).
  exists (rev gone). split.
  - rewrite <- rev_app_distr, <- Hl. symmetry. apply rev_involutive.
  - apply Forall_rev. exact Hg.
Qed.

Lemma rstrip_chars_idem l : rstrip_chars (rstrip_chars l) = rstrip_chars l.
Proof.
  unfold rstrip_chars. rewrite rev_involutive. f_equal.
  apply drop_while_clean. apply drop_while_head.
Qed.

Lemma strip_chars_fixed l :
  lstrip_chars (rstrip_chars (lstrip_chars l)) = rstrip_chars (lstrip_chars l).
Proof.
  unfold lstrip_chars. set (m := drop_while is_space l).
  apply drop_while_clean.
  destruct (rstrip_chars_prefix m) as (gone & Hm & _).
  pose proof (drop_while_head is_space l) as Hh. fold m in Hh.
  destruct (rstrip_chars m) as [|x r]; trivial.
  rewrite Hm in Hh. exact Hh.
Qed.

Lemma strip_well_cut s : well_cut (rstrip_chars (lstrip_chars (chars s))).
Proof.
  pose proof (chars_well_cut s) as Hw.
  destruct (drop_while_suffix is_space (chars s)) as (g1 & H1 & _).
  fold (lstrip_chars (chars s)) in H1.
  destruct (rstrip_chars_prefix (lstrip_chars (chars s))) as (g2 & H2 & _).
  rewrite H1 in Hw. apply well_cut_app in Hw as [_ Hw].
  rewrite H2 in Hw. now apply well_cut_app in Hw as [Hw _].
Qed.

Lemma chars_strip s : chars (strip s) = rstrip_chars (lstrip_chars (chars s)).
Proof. unfold strip. apply chars_join, strip_well_cut. Qed.

Lemma strip_idem s : strip (strip s) = strip s.
Proof.
  unfold strip at 1. rewrite chars_strip, strip_chars_fixed, rstrip_chars_idem.
  reflexivity.
Qed.

Lemma strip_blank s : is_blank s -> strip s = EmptyString.
Proof.
  intros Hb. unfold strip, lstrip_chars. now rewrite (drop_while_all _ _ Hb).
Qed.

Lemma strip_empty_blank s : strip s = EmptyString -> is_blank s.
Proof.
  intros Hs. unfold is_blank.
  assert (rstrip_chars (lstrip_chars (chars s)) = []) as Hnil
    by (rewrite <- chars_strip, Hs; reflexivity).
  destruct (drop_while_suffix is_space (chars s)) as (g1 & H1 & Hg1).
  fold (lstrip_chars (chars s)) in H1.
  destruct (rstrip_chars_prefix (lstrip_chars (chars s))) as (g2 & H2 & Hg2).
  rewrite Hnil in H2. simpl in H2. rewrite H1, H2. now apply Forall_app.
Qed.

(** A text that [strip] leaves as it is neither begins nor ends with white
    space. *)
Lemma strip_ends s :
  strip s = s ->
  (forall ch, hd_error (chars s) = Some ch -> is_space ch = false) /\
  (forall ch, hd_error (rev (chars s)) = Some ch -> is_space ch = false).
Proof.
  intros H. rewrite <- H, chars_strip. set (m := lstrip_chars (chars s)). split.
  - intros ch Hch.
    destruct (rstrip_chars_prefix m) as (gone & Hm & _).
    pose proof (drop_while_head is_space (chars s)) as Hh.
    fold (lstrip_chars (chars s)) in Hh. fold m in Hh. rewrite Hm in Hh.
    destruct (rstrip_chars m) as [|x r]; [discriminate|].
    simpl in Hch, Hh. now injection Hch as <-.
  - intros ch Hch. unfold rstrip_chars in Hch. rewrite rev_involutive in Hch.
    pose proof (drop_while_head is_space (rev m)) as Hh.
    destruct (drop_while is_space (rev m)) as [|x r]; [discriminate|].
    simpl in Hch. now injection Hch as <-.
Qed.

(** *** Lengths and slices *)

Lemma len_join_app l t :
  well_cut l -> continues t = false ->
  len (String.append (join l) t) = (List.length l + len t)%nat.
Proof. intros Hw Ht. unfold len. rewrite chars_join_app by trivial. apply length_app. Qed.

Lemma slice_to_all n s : (len s <= n)%nat -> slice_to n s = s.
Proof. intros H. unfold slice_to. rewrite firstn_all2 by exact H. apply join_chars. Qed.

Lemma well_cut_firstn n s : well_cut (firstn n (chars s)).
Proof.
  pose proof (chars_well_cut s) as Hw. rewrite <- (firstn_skipn n (chars s)) in Hw.
  now apply well_cut_app in Hw.
Qed.

(** *** ASCII texts and decimal writings *)

Lemma ascii_not_continuation c : is_ascii c = true -> is_continuation c = false.
Proof.
  unfold is_ascii, is_continuation. intros H. apply Z.ltb_lt in H.
  apply andb_false_iff. left. apply Z.leb_gt. lia.
Qed.

Lemma chars_ascii s :
  every is_ascii s = true ->
  chars s = map (fun c => String c EmptyString) (list_ascii_of_string s).
Proof.
  induction s as [|c s IH]; intros H; [reflexivity|].
  simpl in H. apply andb_true_iff in H as [_ H]. rewrite chars_cons, (IH H).
  destruct s as [|c' s']; [reflexivity|]. simpl continues.
  simpl in H. apply andb_true_iff in H as [Hc' _].
  now rewrite (ascii_not_continuation c' Hc').
Qed.

Lemma to_ascii_ascii c : is_ascii c = true -> to_ascii (String c EmptyString) = Some c.
Proof.
  unfold to_ascii, ord, is_ascii. intros H. rewrite !H. unfold byte.
  now rewrite Nat2Z.id, ascii_nat_embedding.
Qed.

Lemma transform_ascii s : every is_ascii s = true -> transform (chars s) = Some s.
Proof.
  intros H. rewrite (chars_ascii s H).
  induction s as [|c s IH]; [reflexivity|].
  simpl in H. apply andb_true_iff in H as [Hc H].
  simpl. rewrite (to_ascii_ascii c Hc). cbn [map] in IH. now rewrite (IH H).
Qed.

Lemma every_impl (p q : ascii -> bool) s :
  (forall c, p c = true -> q c = true) -> every p s = true -> every q s = true.
Proof.
  intros Hpq. induction s as [|c s IH]; simpl; trivial.
  intros H. apply andb_true_iff in H as [Hc H]. now rewrite (Hpq c Hc), IH.
Qed.

Lemma every_all_in p s : every p s = Urls.all_in p s.
Proof. induction s as [|c s IH]; simpl; [reflexivity | now rewrite IH]. Qed.

Lemma digit_bounds c d : digit c = Some d -> 48 <= byte c <= 57.
Proof.
  unfold digit, byte.
  destruct ((48 <=? nat_of_ascii c)%nat && (nat_of_ascii c <=? 57)%nat) eqn:E; [|discriminate].
  intros _. apply andb_true_iff in E as [E1 E2]. apply Nat.leb_le in E1, E2. lia.
Qed.

Lemma is_digit_bounds c : Urls.is_digit c = true -> 48 <= byte c <= 57.
Proof.
  unfold Urls.is_digit. destruct (digit c) as [d|] eqn:E; [|discriminate].
  intros _. now apply (digit_bounds c d).
Qed.

Lemma c_strip_digits s : Urls.all_in Urls.is_digit s = true -> c_rstrip (c_lstrip s) = s.
Proof.
  intros Hall.
  assert (forall c, Urls.is_digit c = true -> is_c_space c = false) as Hsp.
  { intros c Hc. apply is_digit_bounds in Hc. unfold is_c_space.
    apply orb_false_iff. split; [apply andb_false_iff; right; apply Z.leb_gt|apply Z.eqb_neq]; lia. }
  assert (c_lstrip s = s) as ->.
  { destruct s as [|c s]; simpl; trivial. simpl in Hall. apply andb_true_iff in Hall as [Hc _].
    now rewrite (Hsp c Hc). }
  induction s as [|c s IH]; simpl; trivial.
  simpl in Hall. apply andb_true_iff in Hall as [Hc Hall].
  rewrite (IH Hall), (Hsp c Hc). now destruct s.
Qed.

Lemma count_digits_all s :
  Urls.all_in Urls.is_digit s = true -> count_digits s = String.length s.
Proof.
  induction s as [|c s IH]; simpl; trivial. intros H. apply andb_true_iff in H as [Hc H].
  unfold Urls.is_digit in Hc. destruct (digit c); [|discriminate]. now rewrite IH.
Qed.

(** [int] of a text made of ASCII digits. *)
Lemma int_of_digits s :
  s <> EmptyString -> Urls.all_in Urls.is_digit s = true ->
  int_of_str s =
    if (int_max_str_digits <? String.length s)%nat then None else digits 0 false s.
Proof.
  intros Hne Hall. unfold int_of_str.
  rewrite transform_ascii.
  2:{ rewrite every_all_in. rewrite <- every_all_in in Hall.
      apply (every_impl Urls.is_digit); [|rewrite every_all_in in *; trivial].
      intros c Hc. apply is_digit_bounds in Hc. unfold is_ascii. apply Z.ltb_lt. lia. }
  rewrite (c_strip_digits s Hall).
  destruct s as [|c s]; [now contradiction Hne|].
  pose proof Hall as Hall'. simpl in Hall'. apply andb_true_iff in Hall' as [Hc _].
  pose proof (is_digit_bounds c Hc) as Hb.
  assert (c <> "-"%char /\ c <> "+"%char) as [Hm Hp] by (split; intros ->; unfold byte in Hb; simpl in Hb; lia).
  assert (split_sign (String c s) = (false, String c s)) as ->.
  { unfold split_sign. destruct c as [[] [] [] [] [] [] [] []]; try reflexivity; congruence. }
  cbn [fst snd]. rewrite (count_digits_all _ Hall).
  destruct (int_max_str_digits <? String.length (String c s))%nat; trivial.
  now destruct (digits 0 false (String c s)).
Qed.

Lemma digit_string_all d :
  Urls.all_in Urls.is_digit (DecimalString.NilEmpty.string_of_uint d) = true.
Proof. induction d; simpl; trivial. Qed.

Ltac read_digit :=
  cbn [DecimalString.NilEmpty.string_of_uint digits Pos.of_uint_acc Pos.of_uint];
  match goal with
  | |- context [digit ?c] =>
      let v := eval vm_compute in (digit c) in change (digit c) with v
  end;
  cbv beta iota.

Lemma digits_of_uint_acc d : forall (acc : positive) b,
  d <> Decimal.Nil \/ b = true ->
  digits (Z.pos acc) b (DecimalString.NilEmpty.string_of_uint d) =
    Some (Z.pos (Pos.of_uint_acc d acc)).
Proof.
  induction d; intros acc b Hb.
  1: simpl; destruct Hb as [Hb | ->]; [now contradiction Hb | reflexivity].
  all: read_digit;
    match goal with
    | |- digits ?z true _ = Some (Z.pos (Pos.of_uint_acc _ ?a)) =>
        replace z with (Z.pos a) by lia
    end;
    apply IHd; now right.
Qed.

Lemma digits_of_uint d : forall b,
  d <> Decimal.Nil \/ b = true ->
  digits 0 b (DecimalString.NilEmpty.string_of_uint d) = Some (Z.of_N (Pos.of_uint d)).
Proof.
  induction d; intros b Hb.
  1: simpl; destruct Hb as [Hb | ->]; [now contradiction Hb | reflexivity].
  1: read_digit; apply IHd; now right.
  all: read_digit;
    match goal with
    | |- digits ?z true _ = Some (Z.of_N (N.pos (Pos.of_uint_acc _ ?a))) =>
        replace z with (Z.pos a) by lia
    end;
    apply digits_of_uint_acc; now right.
Qed.

Lemma decimal_digits z :
  Urls.all_in Urls.is_digit (PyInt.decimal z) = true <-> 0 <= z.
Proof.
  unfold PyInt.decimal. destruct z as [|p|p]; simpl.
  - split; [lia | reflexivity].
  - split; [lia|]. intros _.
    destruct (Pos.to_uint p) as [|d|d|d|d|d|d|d|d|d|d] eqn:E; trivial;
      match goal with
      | |- Urls.all_in Urls.is_digit (DecimalString.NilZero.string_of_uint ?u) = true =>
          apply (digit_string_all u)
      end.
  - split; [|lia]. intros H. exfalso.
    destruct (Pos.to_uint p); simpl in H; discriminate.
Qed.

Lemma decimal_nonempty z : PyInt.decimal z <> EmptyString.
Proof.
  unfold PyInt.decimal. destruct z as [|p|p]; simpl; try discriminate.
  destruct (Pos.to_uint p); discriminate.
Qed.

Lemma digits_of_decimal z : 0 <= z -> digits 0 false (PyInt.decimal z) = Some z.
Proof.
  intros Hz. unfold PyInt.decimal. destruct z as [|p|p]; [reflexivity| |lia].
  simpl.
  assert (Pos.to_uint p <> Decimal.Nil) as Hnil.
  { intros E. pose proof (DecimalPos.Unsigned.of_to p) as H. rewrite E in H. discriminate. }
  replace (DecimalString.NilZero.string_of_uint (Pos.to_uint p))
    with (DecimalString.NilEmpty.string_of_uint (Pos.to_uint p))
    by (destruct (Pos.to_uint p); trivial; now contradiction Hnil).
  rewrite digits_of_uint by now left.
  now rewrite DecimalPos.Unsigned.of_to.
Qed.

(** [str] of a number that is not negative, when it has one, is its decimal
    writing, and [int] reads it back. *)
Lemma str_of_int_decimal z s :
  PyInt.str_of_int z = Some s ->
  s = PyInt.decimal z /\
  (0 <= z -> (String.length s <= int_max_str_digits)%nat).
Proof.
  unfold PyInt.str_of_int.
  destruct (int_max_str_digits <? count_digits (PyInt.decimal z))%nat eqn:E; [discriminate|].
  intros [= <-]. split; trivial. intros Hz.
  rewrite count_digits_all in E by now apply decimal_digits.
  now apply Nat.ltb_ge in E.
Qed.

Lemma str_of_int_short z :
  0 <= z -> (String.length (PyInt.decimal z) <= int_max_str_digits)%nat ->
  PyInt.str_of_int z = Some (PyInt.decimal z).
Proof.
  intros Hz Hlen. unfold PyInt.str_of_int.
  rewrite count_digits_all by now apply decimal_digits.
  now apply Nat.ltb_ge in Hlen as ->.
Qed.

Lemma int_of_str_of_int z s :
  0 <= z -> PyInt.str_of_int z = Some s -> int_of_str s = Some z.
Proof.
  intros Hz Hs. destruct (str_of_int_decimal z s Hs) as [-> Hlen]. specialize (Hlen Hz).
  rewrite int_of_digits; [|apply decimal_nonempty | now apply decimal_digits].
  apply Nat.ltb_ge in Hlen as ->. now apply digits_of_decimal.
Qed.

End PyFacts.

(** ** Lists of rows *)

Section Rows.
Context {A : Type}.
Implicit Types (p q : A -> bool) (l : list A).

Lemma existsb_filter_out p l :
  existsb p (filter (fun r => negb (p r)) l) = false.
Proof.
  induction l as [|a l IH]; simpl; trivial.
  destruct (p a) eqn:E; simpl; trivial. now rewrite E.
Qed.

Lemma existsb_filter_other p q l :
  (forall r, q r = true -> p r = false) ->
  existsb q (filter (fun r => negb (p r)) l) = existsb q l.
Proof.
  intros H. induction l as [|a l IH]; simpl; trivial.
  destruct (p a) eqn:E; simpl.
  - rewrite IH. destruct (q a) eqn:Eq; trivial.
    apply H in Eq. congruence.
  - now rewrite IH.
Qed.

Lemma existsb_snoc p l a : existsb p (l ++ [a]) = existsb p l || p a.
Proof. rewrite existsb_app. simpl. now rewrite orb_false_r. Qed.

Lemma filter_snoc p l a :
  filter p (l ++ [a]) = filter p l ++ (if p a then [a] else []).
Proof. rewrite filter_app. reflexivity. Qed.

Lemma filter_none p l : existsb p l = false -> filter p l = [].
Proof.
  induction l as [|a l IH]; simpl; trivial.
  destruct (p a); simpl; [discriminate|exact IH].
Qed.

Lemma filter_out_none p l :
  existsb p l = false -> filter (fun r => negb (p r)) l = l.
Proof.
  induction l as [|a l IH]; simpl; trivial.
  destruct (p a); simpl; [discriminate|]. intros H. now rewrite IH.
Qed.

Lemma filter_filter_out p q l :
  (forall r, q r = true -> p r = false) ->
  filter q (filter (fun r => negb (p r)) l) = filter q l.
Proof.
  intros H. induction l as [|a l IH]; simpl; trivial.
  destruct (p a) eqn:E; simpl.
  - destruct (q a) eqn:Eq; [apply H in Eq; congruence | exact IH].
  - now rewrite IH.
Qed.

Lemma existsb_filter_nil p l : filter p l = [] -> existsb p l = false.
Proof.
  induction l as [|a l IH]; simpl; trivial.
  destruct (p a); [discriminate | exact IH].
Qed.

Lemma existsb_filter_cons p l r rs : filter p l = r :: rs -> existsb p l = true.
Proof.
  intros H. apply existsb_exists. exists r.
  apply filter_In. rewrite H. now left.
Qed.

Lemma filter_singleton_in p l r : filter p l = [r] -> In r l /\ p r = true.
Proof.
  intros H. assert (In r (filter p l)) as Hin by (rewrite H; now left).
  now apply filter_In in Hin.
Qed.

End Rows.

Lemma blog_at_id d pk blog : blog_at d pk = Some blog -> blog_id blog = pk.
Proof.
  unfold blog_at. intros H.
  destruct (filter _ _) as [|b [|? ?]] eqn:E; try discriminate.
  injection H as ->. apply filter_singleton_in in E. now apply Z.eqb_eq.
Qed.

(** Unfolding the monad and the managers down to the tables. *)
Ltac run_view :=
  cbv beta iota zeta delta
    [bind ret raise try read_db write_db messages_add objects_exists objects_count
     objects_filter objects_get queryset_delete instance_delete instance_save
     objects_create violates_unique all pair_eqb];
  cbn [db flash outbox table with_table pk unique_together fst snd negb andb orb
       Blog_objects Like_objects Dislike_objects Favorite_objects Rating_objects
       Comment_objects rows seq blogs likes dislikes favorites ratings comments
       set_blogs set_likes set_dislikes set_favorites set_ratings set_comments
       like_id like_user like_blog dislike_id dislike_user dislike_blog
       favorite_id favorite_user favorite_blog rating_id rating_user rating_blog score
       comment_id comment_blog comment_user parent_comment].

(** ** The like/dislike toggle *)


Lemma like_dislike_post_found w req pk u blog v :
  method req = POST -> user req = Some u ->
  blog_at (db w) pk = Some blog ->
  reaction_sent req = Some v ->
  let d' := react_db (user_id u) pk v (db w) in
  handle (mkCall route_like_dislike_post req pk) w =
    (JsonResponse 200 (SuccessPayload (likes_count d' pk) (dislikes_count d' pk)
                         (reaction_name (reaction d' (user_id u) pk))),
     mkWorld d' (flash w) (outbox w)).
Proof.
  intros Hm Hu Hb Hr.
  pose proof (blog_at_id _ _ _ Hb) as Hid.
  unfold handle, respond; simpl.
  unfold like_dislike_post, require_POST. rewrite Hm.
  unfold like_dislike_post_body. rewrite Hu.
  unfold blog_at in Hb.
  unfold bind at 1. unfold try, objects_get, all. simpl table.
  destruct (filter (fun b => blog_id b =? pk) (rows (blogs (db w)))) as [|b0 [|b1 l]] eqn:Hf;
    try discriminate.
  injection Hb as ->.
  unfold reaction_sent in Hr. destruct (body req) as [[]|]; try discriminate.
  injection Hr as Hr.
  destruct w as [d fl ob]. 
  unfold react_db, reaction, liked, disliked, likes_count, dislikes_count, like_of, dislike_of,
    add_like, drop_likes, add_dislike, drop_dislikes, get_reaction.
  run_view. rewrite Hr, Hid.
  repeat (match goal with
          | |- context [if ?c then _ else _] => destruct c eqn:?
          end; run_view); try reflexivity; try congruence.
Qed.

Lemma like_dislike_post_anonymous w req pk :
  method req = POST -> user req = None ->
  handle (mkCall route_like_dislike_post req pk) w =
    (JsonResponse 403 (ErrorPayload "Authentication required"), w).
Proof.
  intros Hm Hu. unfold handle, respond; simpl.
  unfold like_dislike_post, require_POST, like_dislike_post_body.
  now rewrite Hm, Hu.
Qed.

Lemma like_dislike_post_missing w req pk u :
  method req = POST -> user req = Some u ->
  filter (fun b => blog_id b =? pk) (rows (blogs (db w))) = [] ->
  handle (mkCall route_like_dislike_post req pk) w =
    (JsonResponse 404 (ErrorPayload "Blog post not found"), w).
Proof.
  intros Hm Hu Hb. unfold handle, respond; simpl.
  unfold like_dislike_post, require_POST, like_dislike_post_body.
  rewrite Hm, Hu. unfold bind, try, objects_get, all. simpl table.
  now rewrite Hb.
Qed.

(** Whatever the request, the view leaves the database as it was or applies
    [react_db] for the requesting user and the post. *)
Lemma like_dislike_post_effect w req pk :
  let w' := step w (mkCall route_like_dislike_post req pk) in
  flash w' = flash w /\ outbox w' = outbox w /\
  (db w' = db w \/
   exists u v, user req = Some u /\ db w' = react_db (user_id u) pk v (db w)).
Proof.
  unfold step.
  destruct (method req) eqn:Hm, (user req) as [u|] eqn:Hu,
    (blog_at (db w) pk) as [blog|] eqn:Hb, (reaction_sent req) as [v|] eqn:Hr;
    try (rewrite (like_dislike_post_found w req pk u blog v) by assumption;
         simpl; repeat split; trivial; right; now exists u, v);
    unfold handle, respond; simpl;
    unfold like_dislike_post, require_POST, like_dislike_post_body;
    rewrite ?Hm, ?Hu; destruct w as [d fl ob]; run_view; auto;
    unfold blog_at in Hb; simpl in Hb;
    destruct (filter _ (rows (blogs d))) as [|b0 [|b1 l]]; try discriminate; run_view; auto;
    unfold reaction_sent in Hr;
    destruct (body req) as [[]|]; try discriminate; run_view; auto.
Qed.

(** *** The state machine of [react_db] *)

Ltac eqb_cases :=
  repeat match goal with
         | |- context [Z.eqb ?a ?b] => destruct (Z.eqb_spec a b); subst
         | H : context [Z.eqb ?a ?b] |- _ => destruct (Z.eqb_spec a b); subst
         end.

Lemma liked_add_like d u b u' b' :
  liked (add_like u b d) u' b' = liked d u' b' || ((u =? u') && (b =? b')).
Proof. unfold liked, add_like. simpl. now rewrite existsb_snoc. Qed.

Lemma liked_drop_likes_same d u b : liked (drop_likes u b d) u b = false.
Proof. unfold liked, drop_likes. simpl. apply existsb_filter_out. Qed.

Lemma liked_drop_likes_other d u b u' b' :
  (u', b') <> (u, b) -> liked (drop_likes u b d) u' b' = liked d u' b'.
Proof.
  intros Hne. unfold liked, drop_likes. simpl. apply existsb_filter_other.
  intros r Hr. apply andb_true_iff in Hr as [H1 H2].
  apply Z.eqb_eq in H1, H2. rewrite H1, H2.
  destruct (Z.eqb_spec u' u), (Z.eqb_spec b' b); subst; simpl; congruence.
Qed.

Lemma disliked_add_dislike d u b u' b' :
  disliked (add_dislike u b d) u' b' = disliked d u' b' || ((u =? u') && (b =? b')).
Proof. unfold disliked, add_dislike. simpl. now rewrite existsb_snoc. Qed.

Lemma disliked_drop_dislikes_same d u b : disliked (drop_dislikes u b d) u b = false.
Proof. unfold disliked, drop_dislikes. simpl. apply existsb_filter_out. Qed.

Lemma disliked_drop_dislikes_other d u b u' b' :
  (u', b') <> (u, b) -> disliked (drop_dislikes u b d) u' b' = disliked d u' b'.
Proof.
  intros Hne. unfold disliked, drop_dislikes. simpl. apply existsb_filter_other.
  intros r Hr. apply andb_true_iff in Hr as [H1 H2].
  apply Z.eqb_eq in H1, H2. rewrite H1, H2.
  destruct (Z.eqb_spec u' u), (Z.eqb_spec b' b); subst; simpl; congruence.
Qed.

Lemma liked_drop_dislikes d u b u' b' : liked (drop_dislikes u b d) u' b' = liked d u' b'.
Proof. reflexivity. Qed.

Lemma liked_add_dislike d u b u' b' : liked (add_dislike u b d) u' b' = liked d u' b'.
Proof. reflexivity. Qed.

Lemma disliked_drop_likes d u b u' b' : disliked (drop_likes u b d) u' b' = disliked d u' b'.
Proof. reflexivity. Qed.

Lemma disliked_add_like d u b u' b' : disliked (add_like u b d) u' b' = disliked d u' b'.
Proof. reflexivity. Qed.

Ltac reaction_rewrite :=
  rewrite ?liked_drop_dislikes, ?liked_add_dislike, ?disliked_drop_likes, ?disliked_add_like,
    ?liked_drop_likes_same, ?disliked_drop_dislikes_same, ?liked_add_like,
    ?disliked_add_dislike.

Lemma reaction_after_like d u b :
  reaction (react_db u b (Some (JStr "like")) d) u b = toggle_like_next (reaction d u b).
Proof.
  unfold react_db, reaction. simpl is_str. cbv iota.
  destruct (liked d u b) eqn:L, (disliked d u b) eqn:D; simpl;
    reaction_rewrite; rewrite ?L, ?D, ?Z.eqb_refl, ?orb_true_r; reflexivity.
Qed.

Lemma reaction_after_dislike d u b :
  reaction (react_db u b (Some (JStr "dislike")) d) u b = toggle_dislike_next (reaction d u b).
Proof.
  unfold react_db, reaction. simpl is_str. cbv iota.
  destruct (liked d u b) eqn:L, (disliked d u b) eqn:D; simpl;
    reaction_rewrite; rewrite ?L, ?D, ?Z.eqb_refl, ?orb_true_r; reflexivity.
Qed.

Lemma react_db_other d u b v u' b' :
  (u', b') <> (u, b) ->
  liked (react_db u b v d) u' b' = liked d u' b' /\
  disliked (react_db u b v d) u' b' = disliked d u' b'.
Proof.
  intros Hne.
  assert ((u =? u') && (b =? b') = false) as Hff.
  { destruct (Z.eqb_spec u u'), (Z.eqb_spec b b'); subst; simpl; congruence. }
  unfold react_db.
  destruct (is_str "like" v); [| destruct (is_str "dislike" v)];
    repeat match goal with |- context [if ?c then _ else _] => destruct c end;
    reaction_rewrite;
    rewrite ?liked_drop_likes_other, ?disliked_drop_dislikes_other by assumption;
    reaction_rewrite; rewrite ?Hff, ?orb_false_r; split; reflexivity.
Qed.

Lemma exclusive_iff d :
  exclusive d <-> forall u b, liked d u b && disliked d u b = false.
Proof.
  unfold exclusive, reaction. split; intros H u b; specialize (H u b);
    destruct (liked d u b), (disliked d u b); simpl in *; congruence.
Qed.

Lemma react_db_exclusive d u b v : exclusive d -> exclusive (react_db u b v d).
Proof.
  rewrite !exclusive_iff. intros H u' b'.
  destruct (Z.eqb_spec u' u) as [Hu|Hu], (Z.eqb_spec b' b) as [Hb|Hb];
    try (destruct (react_db_other d u b v u' b') as [-> ->]; [congruence | apply H]).
  subst u' b'. specialize (H u b). unfold react_db.
  destruct (is_str "like" v); [| destruct (is_str "dislike" v)]; trivial;
    destruct (liked d u b) eqn:L, (disliked d u b) eqn:D; simpl in *; try discriminate;
    reaction_rewrite; rewrite ?L, ?D, ?Z.eqb_refl; reflexivity.
Qed.

(** ** Favorites *)

(** The outcome of [toggle_favorite] for a signed-in user on a stored post. *)
Lemma toggle_favorite_found w req pk u blog :
  user req = Some u -> blog_at (db w) pk = Some blog ->
  handle (mkCall route_toggle_favorite req pk) w =
    match favorites_of (db w) (user_id u) pk with
    | [] =>
        (HttpResponseRedirect (url_blog_detail pk),
         mkWorld (add_favorite (user_id u) pk (db w))
           (flash w ++ [(SUCCESS, "Added to favorites!")]
                   ++ (if mail_up req then [] else [(WARNING, mail_warning)]))
           (outbox w ++ (if mail_up req then [("New Favorite Added!", user_email u)] else [])))
    | [f] =>
        (HttpResponseRedirect (url_blog_detail pk),
         mkWorld (del_favorite f (db w))
           (flash w ++ [(SUCCESS, "Removed from favorites.")]) (outbox w))
    | _ :: _ :: _ => (HttpResponseServerError MultipleObjectsReturned, w)
    end.
Proof.
  intros Hu Hb. pose proof (blog_at_id _ _ _ Hb) as Hid.
  unfold handle, respond; simpl.
  unfold toggle_favorite, login_required, toggle_favorite_body, get_blog_or_404,
    Favorite_get_or_create, favorite_of, favorites_of, add_favorite, del_favorite, send_mail.
  rewrite Hu. unfold blog_at in Hb. destruct w as [d fl ob]. simpl in Hb. run_view.
  destruct (filter _ (rows (blogs d))) as [|b0 [|b1 l]]; try discriminate.
  injection Hb as ->. run_view. rewrite Hid.
  destruct (filter _ (rows (favorites d))) as [|f [|f' l]] eqn:Hf; run_view.
  - rewrite (existsb_filter_nil _ _ Hf). run_view.
    destruct (mail_up req); run_view; rewrite ?app_nil_r, <- ?app_assoc; reflexivity.
  - reflexivity.
  - reflexivity.
Qed.

(** ** Ratings and comments *)

Lemma RatingForm_clean_valid post s : RatingForm_clean post = Some s -> valid_score s.
Proof.
  unfold RatingForm_clean, valid_score. destruct (dict_get "score" post) as [raw|]; [|discriminate].
  unfold RATING_CHOICES. cbn [dict_get].
  repeat (destruct (String.eqb _ raw); [intros [= <-]; lia|]). discriminate.
Qed.

Lemma toggle_favorite_mutation w req pk :
  mutation (db w) (db (step w (mkCall route_toggle_favorite req pk))).
Proof.
  unfold step.
  destruct (user req) as [u|] eqn:Hu, (blog_at (db w) pk) as [blog|] eqn:Hb;
    try (rewrite (toggle_favorite_found w req pk u blog) by assumption;
         destruct (favorites_of (db w) (user_id u) pk) as [|f [|f' l]] eqn:Hf; simpl;
         eauto using mutation);
    unfold handle, respond; simpl;
    unfold toggle_favorite, login_required, toggle_favorite_body, get_blog_or_404;
    rewrite ?Hu; destruct w as [d fl ob]; run_view; try apply mut_none;
    unfold blog_at in Hb; simpl in Hb;
    destruct (filter _ (rows (blogs d))) as [|b0 [|b1 l]]; try discriminate; run_view;
    apply mut_none.
Qed.

Lemma like_dislike_post_mutation w req pk :
  mutation (db w) (db (step w (mkCall route_like_dislike_post req pk))).
Proof.
  destruct (like_dislike_post_effect w req pk) as (_ & _ & [-> | (u & v & _ & ->)]);
    constructor.
Qed.

(** ** Deleting a post *)

Lemma blog_delete_found w req pk u blog :
  method req = POST -> user req = Some u -> blog_at (db w) pk = Some blog ->
  may_manage u blog = true ->
  handle (mkCall route_blog_delete req pk) w =
    (HttpResponseRedirect url_blog_list,
     mkWorld (cascade_delete pk (db w))
             (flash w ++ [(SUCCESS, "Blog deleted successfully!")]) (outbox w)).
Proof.
  intros Hm Hu Hb Hok. pose proof (blog_at_id _ _ _ Hb) as Hid.
  unfold handle, respond; simpl.
  unfold blog_delete, login_required, author_or_staff_required, blog_delete_body,
    get_blog_or_404, Blog_delete.
  rewrite Hu, Hm. unfold blog_at in Hb. destruct w as [d fl ob]. simpl in Hb. run_view.
  destruct (filter _ (rows (blogs d))) as [|b0 [|b1 l]] eqn:Hf; try discriminate.
  injection Hb as ->. run_view. rewrite ?Hu.
  unfold may_manage in Hok.
  destruct (blog_author blog =? user_id u), (is_staff u); try discriminate;
    run_view; rewrite ?Hf; run_view; rewrite ?Hid; reflexivity.
Qed.

Lemma blog_delete_mutation w req pk :
  mutation (db w) (db (step w (mkCall route_blog_delete req pk))).
Proof.
  unfold step, handle, respond; simpl.
  unfold blog_delete, login_required, author_or_staff_required, blog_delete_body,
    get_blog_or_404, Blog_delete.
  destruct w as [d fl ob].
  destruct (user req) as [u|] eqn:Hu; run_view; try apply mut_none.
  destruct (filter _ (rows (blogs d))) as [|b0 [|b1 l]] eqn:Hf; run_view; try apply mut_none.
  rewrite ?Hu.
  destruct (negb (blog_author b0 =? user_id u) && negb (is_staff u)); run_view;
    try apply mut_none.
  rewrite Hf; run_view.
  destruct (method req); run_view; constructor.
Qed.

(** ** The post page *)

Ltac case_scrutinee :=
  match goal with
  | |- context [match ?c with _ => _ end] =>
      let T := type of c in
      lazymatch T with
      | bool => idtac
      | option _ => idtac
      | list _ => idtac
      | Method => idtac
      end;
      first [is_var c; destruct c | destruct c eqn:?]
  end.

Ltac finish_mutation d :=
  first
    [ apply mut_none
    | apply (mut_comment_add d _ _ _ _ None); discriminate
    | match goal with
      | H : filter _ (rows (comments d)) = [?c] |- _ =>
          apply (mut_comment_add d _ _ _ _ (Some (comment_id c)));
          intros ? [= <-]; apply existsb_exists; exists c;
          apply filter_singleton_in in H; split; [tauto | apply Z.eqb_refl]
      end
    | match goal with
      | H : filter (rating_of ?u ?b) (rows (ratings d)) = [],
        V : RatingForm_clean _ = Some _ |- _ =>
          apply (mut_rating_add d (user_id u) (blog_id b) _ H
                   (RatingForm_clean_valid _ _ V))
      end
    | match goal with
      | H : filter (rating_of ?u ?b) (rows (ratings d)) = [_],
        V : RatingForm_clean _ = Some _ |- _ =>
          apply (mut_rating_save d (user_id u) (blog_id b) _ _ H
                   (RatingForm_clean_valid _ _ V))
      end ].

Lemma blog_detail_mutation w req pk :
  mutation (db w) (db (step w (mkCall route_blog_detail req pk))).
Proof.
  unfold step, handle, respond; simpl.
  unfold blog_detail, get_blog_or_404, render_detail, Rating_update_or_create.
  destruct w as [d fl ob]. run_view.
  destruct (filter _ (rows (blogs d))) as [|b0 [|b1 l]] eqn:Hf; run_view; try apply mut_none.
  destruct (user req) as [u|] eqn:Hu; run_view.
  - destruct (filter (rating_of u b0) (rows (ratings d))) as [|r0 [|r1 l]] eqn:Hr; run_view;
      try apply mut_none.
    all: repeat (case_scrutinee; run_view; try apply mut_none).
    all: finish_mutation d.
  - repeat (case_scrutinee; run_view; try apply mut_none).
Qed.

Theorem step_mutation w c : mutation (db w) (db (step w c)).
Proof.
  destruct c as [[] req pk].
  - apply blog_detail_mutation.
  - apply toggle_favorite_mutation.
  - apply like_dislike_post_mutation.
  - apply blog_delete_mutation.
Qed.

(** ** Uniqueness constraints as invariants *)

Section Keyed.
Context {A : Type}.
Variables k1 k2 : A -> Z.

Local Abbreviation key := (key k1 k2).
Local Abbreviation keyed := (keyed k1 k2).

Lemma keyed_iff u b r : keyed u b r = true <-> key r = (u, b).
Proof.
  unfold keyed, key. rewrite andb_true_iff, !Z.eqb_eq.
  split; [intros [-> ->]; reflexivity | now intros [= -> ->]].
Qed.

Lemma filter_keyed_nil u b l :
  filter (keyed u b) l = [] -> ~ In (u, b) (map key l).
Proof.
  intros H Hin. apply in_map_iff in Hin as (r & Hk & Hr).
  apply keyed_iff in Hk.
  assert (In r (filter (keyed u b) l)) as Hf by (apply filter_In; auto).
  now rewrite H in Hf.
Qed.

Lemma NoDup_keyed_at_most_one u b l :
  NoDup (map key l) ->
  filter (keyed u b) l = [] \/ exists r, filter (keyed u b) l = [r].
Proof.
  induction l as [|a l IH]; simpl; intros Hnd; [now left|].
  inversion Hnd as [|? ? Hnotin Hnd']; subst.
  destruct (keyed u b a) eqn:E.
  - right. exists a. f_equal.
    apply keyed_iff in E. rewrite E in Hnotin.
    destruct (filter (keyed u b) l) as [|r rs] eqn:Hf; trivial.
    exfalso. apply Hnotin. apply in_map_iff. exists r.
    assert (In r (filter (keyed u b) l)) as Hin by (rewrite Hf; now left).
    apply filter_In in Hin as [Hin Hk]. apply keyed_iff in Hk. auto.
  - apply IH, Hnd'.
Qed.

End Keyed.

Section Sublists.
Context {A B : Type}.
Variable f : A -> B.

Lemma NoDup_map_filter p (l : list A) :
  NoDup (map f l) -> NoDup (map f (filter p l)).
Proof.
  induction l as [|a l IH]; simpl; intros H; [constructor|].
  inversion H as [|? ? Hnotin Hnd]; subst.
  destruct (p a); simpl; auto. constructor; auto.
  intros Hin. apply Hnotin. apply in_map_iff in Hin as (x & Hx & Hin).
  apply filter_In in Hin as [Hin _]. apply in_map_iff. eauto.
Qed.

Lemma NoDup_map_snoc (l : list A) a :
  NoDup (map f l) -> ~ In (f a) (map f l) -> NoDup (map f (l ++ [a])).
Proof.
  intros Hnd Hnotin. rewrite map_app. simpl.
  apply NoDup_app; trivial.
  - repeat constructor. intros [].
  - intros x Hx [<- | []]. contradiction.
Qed.

End Sublists.

(** The collector only removes rows: what survives is a filter of what it
    was given. *)
Lemma collect_replies_filter fuel : forall batch rest,
  exists keep, collect_replies fuel batch rest = filter keep rest.
Proof.
  induction fuel as [|n IH]; intros batch rest; simpl.
  - exists (fun _ => true). symmetry. apply forallb_filter_id. now apply forallb_forall.
  - rewrite partition_as_filter.
    destruct (filter (is_reply_to batch) rest) as [|h hit] eqn:Hhit.
    + exists (fun _ => true). symmetry. apply forallb_filter_id. now apply forallb_forall.
    + destruct (IH (h :: hit) (filter (fun x => negb (is_reply_to batch x)) rest)) as [keep ->].
      exists (fun x => negb (is_reply_to batch x) && keep x).
      clear. induction rest as [|a rest IHr]; simpl; trivial.
      destruct (is_reply_to batch a); simpl; trivial.
      destruct (keep a); simpl; now rewrite IHr.
Qed.

Lemma collect_replies_incl fuel batch rest c :
  In c (collect_replies fuel batch rest) -> In c rest.
Proof.
  destruct (collect_replies_filter fuel batch rest) as [keep ->].
  intros H. now apply filter_In in H.
Qed.

Lemma Forall_filter {A} (P : A -> Prop) p (l : list A) :
  Forall P l -> Forall P (filter p l).
Proof.
  rewrite !Forall_forall. intros H x Hx. apply filter_In in Hx. apply H, Hx.
Qed.

Lemma Forall_snoc {A} (P : A -> Prop) (l : list A) a :
  Forall P l -> P a -> Forall P (l ++ [a]).
Proof. intros. apply Forall_app. split; auto. Qed.

Lemma seq_fresh {A} (id : A -> Z) (l : list A) s :
  Forall (fun r => id r < s) l -> ~ In s (map id l).
Proof.
  rewrite Forall_forall. intros H Hin. apply in_map_iff in Hin as (r & Hr & Hin).
  apply H in Hin. lia.
Qed.

Lemma Forall_lt_succ {A} (id : A -> Z) (l : list A) s :
  Forall (fun r => id r < s) l -> Forall (fun r => id r < s + 1) l.
Proof. apply Forall_impl. intros; lia. Qed.

Lemma liked_filter_blog d b u b' :
  existsb (fun r => (like_user r =? u) && (like_blog r =? b'))
          (filter (fun r => negb (like_blog r =? b)) (rows (likes d))) = true ->
  liked d u b' = true.
Proof.
  unfold liked. rewrite !existsb_exists. intros (r & Hin & Hr).
  apply filter_In in Hin. exists r. tauto.
Qed.

Lemma disliked_filter_blog d b u b' :
  existsb (fun r => (dislike_user r =? u) && (dislike_blog r =? b'))
          (filter (fun r => negb (dislike_blog r =? b)) (rows (dislikes d))) = true ->
  disliked d u b' = true.
Proof.
  unfold disliked. rewrite !existsb_exists. intros (r & Hin & Hr).
  apply filter_In in Hin. exists r. tauto.
Qed.

Lemma cascade_delete_exclusive d b : exclusive d -> exclusive (cascade_delete b d).
Proof.
  rewrite !exclusive_iff. intros H u b'. specialize (H u b').
  unfold liked at 1, disliked at 1, cascade_delete. simpl.
  destruct (existsb _ (filter _ (rows (likes d)))) eqn:L; trivial.
  destruct (existsb _ (filter _ (rows (dislikes d)))) eqn:D; trivial.
  apply liked_filter_blog in L. apply disliked_filter_blog in D.
  rewrite L, D in H. discriminate.
Qed.

Lemma react_db_frame u b v d :
  blogs (react_db u b v d) = blogs d /\ favorites (react_db u b v d) = favorites d /\
  ratings (react_db u b v d) = ratings d /\ comments (react_db u b v d) = comments d.
Proof.
  unfold react_db.
  repeat match goal with |- context [if ?c then _ else _] => destruct c end;
    repeat split; reflexivity.
Qed.

Lemma not_liked_fresh d u b :
  liked d u b = false -> ~ In (u, b) (map (key like_user like_blog) (rows (likes d))).
Proof. intros H. apply filter_keyed_nil. apply filter_none. exact H. Qed.

Lemma not_disliked_fresh d u b :
  disliked d u b = false ->
  ~ In (u, b) (map (key dislike_user dislike_blog) (rows (dislikes d))).
Proof. intros H. apply filter_keyed_nil. apply filter_none. exact H. Qed.

Lemma react_db_unique u b v d :
  NoDup (map (key like_user like_blog) (rows (likes d))) ->
  NoDup (map (key dislike_user dislike_blog) (rows (dislikes d))) ->
  NoDup (map (key like_user like_blog) (rows (likes (react_db u b v d)))) /\
  NoDup (map (key dislike_user dislike_blog) (rows (dislikes (react_db u b v d)))).
Proof.
  intros HL HD. unfold react_db.
  destruct (is_str "like" v); [| destruct (is_str "dislike" v)]; auto;
    destruct (liked d u b) eqn:L, (disliked d u b) eqn:D; simpl; split;
    auto using NoDup_map_filter;
    try (apply NoDup_map_filter; apply NoDup_map_snoc; trivial);
    try (apply NoDup_map_snoc; trivial);
    try (now apply not_liked_fresh); try (now apply not_disliked_fresh).
Qed.

Theorem mutation_Inv d d' : mutation d d' -> Inv d -> Inv d'.
Proof.
  intros Hm I. destruct I. destruct Hm.
  - now constructor.
  - destruct (react_db_frame u b v d) as (Eb & Ef & Er & Ec).
    destruct (react_db_unique u b v d) as [HL HD]; trivial.
    constructor; rewrite ?Eb, ?Ef, ?Er, ?Ec; trivial.
    now apply react_db_exclusive.
  - constructor; simpl; trivial.
    + apply NoDup_map_snoc; trivial. now apply filter_keyed_nil.
    + apply NoDup_map_snoc; trivial. now apply seq_fresh.
    + apply Forall_snoc; [now apply Forall_lt_succ | simpl; lia].
  - constructor; simpl; trivial; auto using NoDup_map_filter, Forall_filter.
  - constructor; simpl; trivial.
    + apply NoDup_map_snoc; trivial. now apply filter_keyed_nil.
    + apply NoDup_map_snoc; trivial. now apply seq_fresh.
    + apply Forall_snoc; [now apply Forall_lt_succ | simpl; lia].
    + apply Forall_snoc; trivial.
  - assert (In r (rows (ratings d))) as Hin.
    { apply (filter_singleton_in _ _ _ H). }
    assert (forall r', In r' (rows (ratings d)) -> rating_id r' = rating_id r -> r' = r) as Huniq.
    { intros r' Hin' Heq. clear - inv_rating_ids0 Hin Hin' Heq.
      induction (rows (ratings d)) as [|a l IH]; [contradiction|].
      simpl in inv_rating_ids0. inversion inv_rating_ids0 as [|? ? Hnotin Hnd]; subst.
      destruct Hin as [->|Hin], Hin' as [->|Hin']; auto.
      - exfalso. apply Hnotin. rewrite <- Heq. now apply in_map.
      - exfalso. apply Hnotin. rewrite Heq. now apply in_map. }
    assert (forall g : Rating -> Z, (forall x, g (rescore x s) = g x) ->
            map g (map (fun r' => if rating_id r' =? rating_id r then rescore r s else r')
                       (rows (ratings d))) = map g (rows (ratings d))) as Hmap.
    { intros g Hg. rewrite map_map. apply map_ext_in. intros r' Hin'.
      destruct (Z.eqb_spec (rating_id r') (rating_id r)) as [E|E]; trivial.
      rewrite (Huniq r' Hin' E). apply Hg. }
    constructor; simpl; trivial.
    + unfold key.
      rewrite map_map.
      erewrite map_ext_in; [exact inv_ratings0|].
      intros r' Hin'. simpl.
      destruct (Z.eqb_spec (rating_id r') (rating_id r)) as [E|E]; trivial.
      now rewrite (Huniq r' Hin' E).
    + now rewrite Hmap.
    + rewrite Forall_forall in *. intros x Hx. apply in_map_iff in Hx as (r' & <- & Hin').
      destruct (Z.eqb_spec (rating_id r') (rating_id r)); simpl; auto.
    + rewrite Forall_forall in *. intros x Hx. apply in_map_iff in Hx as (r' & <- & Hin').
      destruct (Z.eqb_spec (rating_id r') (rating_id r)); simpl; auto.
  - constructor; simpl; trivial.
    + apply NoDup_map_snoc; trivial. now apply seq_fresh.
    + apply Forall_snoc; [now apply Forall_lt_succ | simpl; lia].
    + apply Forall_snoc; trivial. simpl. intros p Hp.
      apply H, existsb_exists in Hp as (c & Hc & Hid). apply Z.eqb_eq in Hid. subst p.
      rewrite Forall_forall in inv_comment_seq0. now apply inv_comment_seq0.
  - unfold cascade_delete.
    destruct (collect_replies_filter
                (List.length (filter (fun c => negb (comment_blog c =? b)) (rows (comments d))))
                (filter (fun c => comment_blog c =? b) (rows (comments d)))
                (filter (fun c => negb (comment_blog c =? b)) (rows (comments d))))
      as [keep Hkeep].
    constructor; simpl; rewrite ?Hkeep; auto using NoDup_map_filter, Forall_filter.
    now apply (cascade_delete_exclusive d b).
Qed.

Lemma fresh_site_Inv w : fresh_site w -> Inv (db w).
Proof.
  intros (Hb & Hl & Hd & Hf & Hr & Hc).
  constructor; rewrite ?Hl, ?Hd, ?Hf, ?Hr, ?Hc; simpl; trivial; try constructor.
  apply exclusive_iff. intros u b. unfold liked. now rewrite Hl.
Qed.

Lemma run_Inv calls : forall w, Inv (db w) -> Inv (db (run calls w)).
Proof.
  induction calls as [|c calls IH]; intros w I; simpl; trivial.
  apply IH. eapply mutation_Inv; [apply step_mutation | exact I].
Qed.

Theorem reachable_Inv w : reachable w -> Inv (db w).
Proof.
  intros (w0 & calls & H0 & ->). apply run_Inv. now apply fresh_site_Inv.
Qed.

(** ** Counting reactions *)

Section Counting.
Context {A : Type}.
Variables k1 k2 : A -> Z.

Lemma count_after_filter_out u b (l : list A) :
  NoDup (map (key k1 k2) l) ->
  existsb (keyed k1 k2 u b) l = true ->
  S (List.length (filter (fun r => k2 r =? b)
                         (filter (fun r => negb (keyed k1 k2 u b r)) l))) =
  List.length (filter (fun r => k2 r =? b) l).
Proof.
  induction l as [|a l IH]; simpl; [discriminate|].
  intros Hnd Hex. inversion Hnd as [|? ? Hnotin Hnd']; subst.
  destruct (keyed k1 k2 u b a) eqn:E; simpl.
  - pose proof E as E'. apply keyed_iff in E'. unfold key in E'. injection E' as E1 E2.
    rewrite E2, Z.eqb_refl. simpl. f_equal. f_equal. f_equal.
    apply filter_out_none.
    destruct (existsb (keyed k1 k2 u b) l) eqn:Hl; trivial.
    exfalso. apply Hnotin. apply existsb_exists in Hl as (r & Hin & Hr).
    apply keyed_iff in Hr. apply in_map_iff. exists r. split; trivial.
    unfold key in *. congruence.
  - simpl in Hex. destruct (k2 a =? b); simpl; rewrite <- (IH Hnd' Hex); reflexivity.
Qed.

Lemma count_after_snoc b (l : list A) a :
  k2 a = b ->
  List.length (filter (fun r => k2 r =? b) (l ++ [a])) =
  S (List.length (filter (fun r => k2 r =? b) l)).
Proof.
  intros <-. rewrite filter_snoc, Z.eqb_refl, length_app. simpl. lia.
Qed.

End Counting.

Lemma world_eta w : mkWorld (db w) (flash w) (outbox w) = w.
Proof. now destruct w. Qed.

Lemma likes_count_add_like d u b : likes_count (add_like u b d) b = S (likes_count d b).
Proof. unfold likes_count, add_like. simpl. now apply (count_after_snoc like_blog). Qed.

Lemma dislikes_count_add_dislike d u b :
  dislikes_count (add_dislike u b d) b = S (dislikes_count d b).
Proof. unfold dislikes_count, add_dislike. simpl. now apply (count_after_snoc dislike_blog). Qed.

Lemma likes_count_drop_likes d u b :
  NoDup (map (key like_user like_blog) (rows (likes d))) -> liked d u b = true ->
  S (likes_count (drop_likes u b d) b) = likes_count d b.
Proof. intros. unfold likes_count, drop_likes. simpl. now apply count_after_filter_out. Qed.

Lemma dislikes_count_drop_dislikes d u b :
  NoDup (map (key dislike_user dislike_blog) (rows (dislikes d))) -> disliked d u b = true ->
  S (dislikes_count (drop_dislikes u b d) b) = dislikes_count d b.
Proof. intros. unfold dislikes_count, drop_dislikes. simpl. now apply count_after_filter_out. Qed.

Lemma likes_count_drop_absent d u b b' :
  liked d u b = false -> likes_count (drop_likes u b d) b' = likes_count d b'.
Proof.
  intros H. unfold likes_count, drop_likes. simpl. now rewrite filter_out_none.
Qed.

Lemma dislikes_count_drop_absent d u b b' :
  disliked d u b = false -> dislikes_count (drop_dislikes u b d) b' = dislikes_count d b'.
Proof.
  intros H. unfold dislikes_count, drop_dislikes. simpl. now rewrite filter_out_none.
Qed.

Lemma like_twice_counts d u b :
  Inv d ->
  likes_count (like_twice u b d) b = likes_count d b /\
  (reaction d u b <> dislike ->
   dislikes_count (like_twice u b d) b = dislikes_count d b) /\
  (reaction d u b = dislike ->
   S (dislikes_count (like_twice u b d) b) = dislikes_count d b).
Proof.
  intros I. pose proof (inv_exclusive d I u b) as Hx.
  pose proof (inv_likes d I) as HL. pose proof (inv_dislikes d I) as HD.
  unfold like_twice, react_db, reaction in *. simpl is_str. cbv iota.
  destruct (liked d u b) eqn:L, (disliked d u b) eqn:D; try congruence;
    reaction_rewrite; rewrite ?L, ?D, ?Z.eqb_refl, ?orb_true_r; simpl; cbv iota;
    reaction_rewrite; rewrite ?L, ?D, ?Z.eqb_refl, ?orb_true_r; simpl.
  - (* liked *)
    repeat split; try congruence.
    rewrite likes_count_add_like. now apply likes_count_drop_likes.
  - (* disliked *)
    repeat split; try congruence.
    + apply eq_add_S. rewrite likes_count_drop_likes.
      * unfold likes_count, drop_dislikes, add_like, dislikes. simpl.
        now apply (count_after_snoc like_blog).
      * simpl. apply NoDup_map_snoc; trivial. now apply not_liked_fresh.
      * reaction_rewrite. now rewrite !Z.eqb_refl, orb_true_r.
    + intros _. unfold dislikes_count, drop_likes. simpl.
      now apply (dislikes_count_drop_dislikes (add_like u b d) u b).
  - (* none *)
    repeat split; try congruence.
    apply eq_add_S. rewrite likes_count_drop_likes.
    + now rewrite likes_count_add_like.
    + simpl. apply NoDup_map_snoc; trivial. now apply not_liked_fresh.
    + reaction_rewrite. now rewrite !Z.eqb_refl, orb_true_r.
Qed.

Lemma dislike_twice_counts d u b :
  Inv d ->
  dislikes_count (dislike_twice u b d) b = dislikes_count d b /\
  (reaction d u b <> like ->
   likes_count (dislike_twice u b d) b = likes_count d b) /\
  (reaction d u b = like ->
   S (likes_count (dislike_twice u b d) b) = likes_count d b).
Proof.
  intros I. pose proof (inv_exclusive d I u b) as Hx.
  pose proof (inv_likes d I) as HL. pose proof (inv_dislikes d I) as HD.
  unfold dislike_twice, react_db, reaction in *. simpl is_str. cbv iota.
  destruct (liked d u b) eqn:L, (disliked d u b) eqn:D; try congruence;
    reaction_rewrite; rewrite ?L, ?D, ?Z.eqb_refl, ?orb_true_r; simpl; cbv iota;
    reaction_rewrite; rewrite ?L, ?D, ?Z.eqb_refl, ?orb_true_r; simpl.
  - (* liked *)
    repeat split; try congruence.
    + apply eq_add_S. rewrite dislikes_count_drop_dislikes.
      * unfold dislikes_count, drop_likes, add_dislike, likes. simpl.
        now apply (count_after_snoc dislike_blog).
      * simpl. apply NoDup_map_snoc; trivial. now apply not_disliked_fresh.
      * reaction_rewrite. now rewrite !Z.eqb_refl, orb_true_r.
    + intros _. unfold likes_count, drop_dislikes. simpl.
      now apply (likes_count_drop_likes (add_dislike u b d) u b).
  - (* disliked *)
    repeat split; try congruence.
    rewrite dislikes_count_add_dislike. now apply dislikes_count_drop_dislikes.
  - (* none *)
    repeat split; try congruence.
    apply eq_add_S. rewrite dislikes_count_drop_dislikes.
    + now rewrite dislikes_count_add_dislike.
    + simpl. apply NoDup_map_snoc; trivial. now apply not_disliked_fresh.
    + reaction_rewrite. now rewrite !Z.eqb_refl, orb_true_r.
Qed.

Lemma sends_step w req pk u blog what :
  sends req u what -> blog_at (db w) pk = Some blog ->
  db (step w (mkCall route_like_dislike_post req pk)) =
    react_db (user_id u) pk (Some (JStr what)) (db w).
Proof.
  intros (Hm & Hu & Hr) Hb. unfold step.
  now rewrite (like_dislike_post_found w req pk u blog _ Hm Hu Hb Hr).
Qed.

Lemma blog_at_react d u b v pk : blog_at (react_db u b v d) pk = blog_at d pk.
Proof. unfold blog_at. now destruct (react_db_frame u b v d) as (-> & _). Qed.

Lemma sends_twice w req1 req2 pk u blog what :
  sends req1 u what -> sends req2 u what -> blog_at (db w) pk = Some blog ->
  db (run [mkCall route_like_dislike_post req1 pk; mkCall route_like_dislike_post req2 pk] w) =
    react_db (user_id u) pk (Some (JStr what))
      (react_db (user_id u) pk (Some (JStr what)) (db w)).
Proof.
  intros H1 H2 Hb. simpl.
  rewrite (sends_step _ req2 pk u blog what H2).
  - now rewrite (sends_step _ req1 pk u blog what H1).
  - rewrite (sends_step _ req1 pk u blog what H1 Hb). now rewrite blog_at_react.
Qed.

Module ExampleFacts.
Import Example.

Lemma site0_fresh : fresh_site site0.
Proof.
  unfold fresh_site, site0; simpl. repeat split; trivial.
  repeat constructor; simpl; intuition discriminate.
Qed.

Lemma site0_runs calls : reachable (run calls site0).
Proof. exists site0, calls. split; [apply site0_fresh | reflexivity]. Qed.

End ExampleFacts.

Lemma mutation_exclusive d d' : mutation d d' -> exclusive d -> exclusive d'.
Proof.
  intros Hm Hx. destruct Hm; trivial.
  - now apply react_db_exclusive.
  - now apply cascade_delete_exclusive.
Qed.

Lemma run_exclusive calls : forall w, exclusive (db w) -> exclusive (db (run calls w)).
Proof.
  induction calls as [|c calls IH]; intros w Hx; simpl; trivial.
  apply IH. eapply mutation_exclusive; [apply step_mutation | exact Hx].
Qed.

(** * The claims *)

(** C1. The like/dislike toggle implements the tri-state machine
    none/like/dislike for the requesting user and the post: a "like" request
    takes none to like, like to none and dislike to like; a "dislike" request
    is the mirror image.  No sequence of requests (to the toggle or to any
    other route) takes a database where no pair is in both tables to one
    where some pair is, so on every reachable site no (user, post) pair is
    both liked and disliked. *)
Theorem C1_like_dislike_state_machine :
  (forall w req pk u blog,
      blog_at (db w) pk = Some blog ->
      let before := reaction (db w) (user_id u) pk in
      let after :=
        reaction (db (step w (mkCall route_like_dislike_post req pk))) (user_id u) pk in
      (sends req u "like" ->
       (before = none -> after = like) /\
       (before = like -> after = none) /\
       (before = dislike -> after = like)) /\
      (sends req u "dislike" ->
       (before = none -> after = dislike) /\
       (before = dislike -> after = none) /\
       (before = like -> after = dislike))) /\
  (forall calls w, exclusive (db w) -> exclusive (db (run calls w))) /\
  (forall w, reachable w -> forall u b, reaction (db w) u b <> both).
Proof.
  split; [|split].
  - intros w req pk u blog Hb before after. subst before after. split; intros Hs.
    + rewrite (sends_step w req pk u blog "like" Hs Hb), reaction_after_like.
      repeat split; intros ->; reflexivity.
    + rewrite (sends_step w req pk u blog "dislike" Hs Hb), reaction_after_dislike.
      repeat split; intros ->; reflexivity.
  - exact run_exclusive.
  - intros w Hr. apply reachable_Inv in Hr. apply (inv_exclusive _ Hr).
Qed.

Lemma C1_witness :
  reaction (db (step Example.site0 (toggle "like" Example.bob 1))) 8 1 = like /\
  reaction (db (run [toggle "dislike" Example.bob 1; toggle "like" Example.bob 1]
                    Example.site0)) 8 1 <> both.
Proof.
  split.
  - apply (proj1 (proj1 (proj1 C1_like_dislike_state_machine
                           Example.site0 (react_request Example.bob "like") 1
                           Example.bob Example.post1 eq_refl)
                        (conj eq_refl (conj eq_refl eq_refl)))).
    reflexivity.
  - apply (proj2 (proj2 C1_like_dislike_state_machine)).
    apply ExampleFacts.site0_runs.
Defined.

(** C8. A POST to the toggle by an anonymous visitor is answered 403
    "Authentication required", and one by a signed-in user for a primary key
    no post has is answered 404 "Blog post not found"; in both cases the
    world, and with it every pair's reaction, is left as it was. *)
Theorem C8_like_dislike_rejects w req pk :
  method req = POST ->
  (user req = None ->
   handle (mkCall route_like_dislike_post req pk) w =
     (JsonResponse 403 (ErrorPayload "Authentication required"), w)) /\
  (forall u, user req = Some u ->
   (forall b, In b (rows (blogs (db w))) -> blog_id b <> pk) ->
   handle (mkCall route_like_dislike_post req pk) w =
     (JsonResponse 404 (ErrorPayload "Blog post not found"), w)).
Proof.
  intros Hm. split.
  - intros Hu. now apply like_dislike_post_anonymous.
  - intros u Hu Hnone. apply like_dislike_post_missing with (u := u); trivial.
    destruct (filter _ _) as [|b l] eqn:Hf; trivial.
    assert (In b (filter (fun b => blog_id b =? pk) (rows (blogs (db w))))) as Hin
      by (rewrite Hf; now left).
    apply filter_In in Hin as [Hin Hid]. apply Z.eqb_eq in Hid.
    now apply Hnone in Hin.
Qed.

Lemma C8_witness :
  handle (mkCall route_like_dislike_post
            (mkRequest POST None [] [] (Some (JObj [("reaction", JStr "like")])) 0 true) 1)
         Example.site0 =
    (JsonResponse 403 (ErrorPayload "Authentication required"), Example.site0) /\
  handle (toggle "like" Example.bob 99) Example.site0 =
    (JsonResponse 404 (ErrorPayload "Blog post not found"), Example.site0).
Proof.
  split.
  - apply (C8_like_dislike_rejects Example.site0
             (mkRequest POST None [] [] (Some (JObj [("reaction", JStr "like")])) 0 true)
             1 eq_refl).
    reflexivity.
  - apply (proj2 (C8_like_dislike_rejects Example.site0 (react_request Example.bob "like") 99
                    eq_refl) Example.bob eq_refl).
    simpl. intros b [<- | [<- | []]]; simpl; lia.
Defined.

(** C10. A POST to the toggle by a signed-in user for a stored post whose
    JSON body carries a reaction other than "like" and "dislike" (or none)
    changes nothing and is answered 200 with the like count, the dislike
    count and the user's reaction as they were. *)
Theorem C10_other_reaction_changes_nothing w req pk u blog v :
  method req = POST -> user req = Some u ->
  blog_at (db w) pk = Some blog ->
  reaction_sent req = Some v ->
  is_str "like" v = false -> is_str "dislike" v = false ->
  handle (mkCall route_like_dislike_post req pk) w =
    (JsonResponse 200
       (SuccessPayload (likes_count (db w) pk) (dislikes_count (db w) pk)
          (reaction_name (reaction (db w) (user_id u) pk))),
     w).
Proof.
  intros Hm Hu Hb Hr NL ND.
  rewrite (like_dislike_post_found w req pk u blog v Hm Hu Hb Hr).
  unfold react_db. rewrite NL, ND. now rewrite world_eta.
Qed.

Lemma C10_witness :
  handle (toggle "love" Example.bob 1) Example.site0 =
    (JsonResponse 200 (SuccessPayload 0 0 None), Example.site0).
Proof.
  apply (C10_other_reaction_changes_nothing Example.site0 (react_request Example.bob "love") 1
           Example.bob Example.post1 (Some (JStr "love")));
    reflexivity.
Defined.

(** C5, as stated, fails: on the site reached from [site0] by one "dislike"
    of bob on post 1, two "like" toggles of bob leave him with no reaction,
    not with the dislike he started from. *)
Lemma C5_counterexample :
  ~ (forall w u pk blog req1 req2,
        reachable w -> blog_at (db w) pk = Some blog ->
        sends req1 u "like" -> sends req2 u "like" ->
        reaction (db (run [mkCall route_like_dislike_post req1 pk;
                           mkCall route_like_dislike_post req2 pk] w)) (user_id u) pk =
        reaction (db w) (user_id u) pk).
Proof.
  intros H.
  specialize (H (run [toggle "dislike" Example.bob 1] Example.site0) Example.bob 1
                Example.post1 (react_request Example.bob "like")
                (react_request Example.bob "like")
                (ExampleFacts.site0_runs _) eq_refl
                (conj eq_refl (conj eq_refl eq_refl)) (conj eq_refl (conj eq_refl eq_refl))).
  vm_compute in H. discriminate H.
Qed.

(** C5, amended. On a reachable site, two successive "like" toggles of a user
    on a stored post restore the post's like count; they restore the user's
    reaction and the dislike count when the user had not disliked the post,
    and when the user had, they end with no reaction and one dislike fewer.
    Two successive "dislike" toggles behave as the mirror image. *)
Theorem C5_toggle_twice w pk u blog req1 req2 :
  reachable w -> blog_at (db w) pk = Some blog ->
  let d := db w in
  let d2 := db (run [mkCall route_like_dislike_post req1 pk;
                     mkCall route_like_dislike_post req2 pk] w) in
  (sends req1 u "like" -> sends req2 u "like" ->
   likes_count d2 pk = likes_count d pk /\
   (reaction d (user_id u) pk <> dislike ->
    reaction d2 (user_id u) pk = reaction d (user_id u) pk /\
    dislikes_count d2 pk = dislikes_count d pk) /\
   (reaction d (user_id u) pk = dislike ->
    reaction d2 (user_id u) pk = none /\
    S (dislikes_count d2 pk) = dislikes_count d pk)) /\
  (sends req1 u "dislike" -> sends req2 u "dislike" ->
   dislikes_count d2 pk = dislikes_count d pk /\
   (reaction d (user_id u) pk <> like ->
    reaction d2 (user_id u) pk = reaction d (user_id u) pk /\
    likes_count d2 pk = likes_count d pk) /\
   (reaction d (user_id u) pk = like ->
    reaction d2 (user_id u) pk = none /\
    S (likes_count d2 pk) = likes_count d pk)).
Proof.
  intros Hr Hb d d2. subst d d2.
  pose proof (reachable_Inv w Hr) as I.
  pose proof (inv_exclusive _ I (user_id u) pk) as Hx.
  split; intros H1 H2; rewrite (sends_twice w req1 req2 pk u blog _ H1 H2 Hb).
  - destruct (like_twice_counts (db w) (user_id u) pk I) as (Hl & Hd1 & Hd2).
    fold (like_twice (user_id u) pk (db w)).
    assert (reaction (like_twice (user_id u) pk (db w)) (user_id u) pk =
            toggle_like_next (toggle_like_next (reaction (db w) (user_id u) pk))) as Hre.
    { unfold like_twice. now rewrite !reaction_after_like. }
    rewrite Hre. split; [exact Hl | split].
    + intros Hnd. split; [| now apply Hd1].
      destruct (reaction (db w) (user_id u) pk); simpl; congruence.
    + intros He. split; [now rewrite He | now apply Hd2].
  - destruct (dislike_twice_counts (db w) (user_id u) pk I) as (Hd & Hl1 & Hl2).
    fold (dislike_twice (user_id u) pk (db w)).
    assert (reaction (dislike_twice (user_id u) pk (db w)) (user_id u) pk =
            toggle_dislike_next (toggle_dislike_next (reaction (db w) (user_id u) pk))) as Hre.
    { unfold dislike_twice. now rewrite !reaction_after_dislike. }
    rewrite Hre. split; [exact Hd | split].
    + intros Hnl. split; [| now apply Hl1].
      destruct (reaction (db w) (user_id u) pk); simpl; congruence.
    + intros He. split; [now rewrite He | now apply Hl2].
Qed.

Lemma C5_witness :
  likes_count (db (run [toggle "like" Example.bob 1; toggle "like" Example.bob 1]
                       (run [toggle "like" Example.alice 1] Example.site0))) 1 = 1%nat.
Proof.
  apply (proj1 (proj1 (C5_toggle_twice
                         (run [toggle "like" Example.alice 1] Example.site0) 1 Example.bob
                         Example.post1 (react_request Example.bob "like")
                         (react_request Example.bob "like")
                         (ExampleFacts.site0_runs _) eq_refl)
                      (conj eq_refl (conj eq_refl eq_refl))
                      (conj eq_refl (conj eq_refl eq_refl)))).
Defined.

(** ** Evaluating [blog_detail] *)

Lemma blog_detail_rating w req pk u blog s :
  submits_rating req u s -> blog_at (db w) pk = Some blog ->
  handle (mkCall route_blog_detail req pk) w =
    match ratings_of (db w) (user_id u) pk with
    | [] =>
        (HttpResponseRedirect (url_blog_detail pk),
         mkWorld (add_rating (user_id u) pk s (db w))
                 (flash w ++ [(SUCCESS, "Your rating has been saved!")]) (outbox w))
    | [r] =>
        (HttpResponseRedirect (url_blog_detail pk),
         mkWorld (save_rating r s (db w))
                 (flash w ++ [(SUCCESS, "Your rating has been saved!")]) (outbox w))
    | _ :: _ :: _ => (HttpResponseServerError MultipleObjectsReturned, w)
    end.
Proof.
  intros (Hm & Hu & Hc & Hrf & Hs) Hb. pose proof (blog_at_id _ _ _ Hb) as Hid.
  unfold handle, respond; simpl.
  unfold blog_detail, get_blog_or_404, render_detail, Rating_update_or_create, is_POST,
    ratings_of, rating_of, add_rating, save_rating, rescore.
  rewrite Hu, Hm, Hc, Hrf, Hs. unfold blog_at in Hb. destruct w as [d fl ob]. simpl in Hb.
  run_view.
  destruct (filter _ (rows (blogs d))) as [|b0 [|b1 l]]; try discriminate.
  injection Hb as ->. run_view. rewrite Hid.
  destruct (filter _ (rows (ratings d))) as [|r [|r' l]] eqn:Hf; run_view; rewrite ?Hf; run_view.
  - rewrite (existsb_filter_nil _ _ Hf). reflexivity.
  - reflexivity.
  - reflexivity.
Qed.

Lemma filter_map_preserving {A} (p : A -> bool) (f : A -> A) (l : list A) :
  (forall x, In x l -> p (f x) = p x) -> filter p (map f l) = map f (filter p l).
Proof.
  induction l as [|a l IH]; simpl; intros H; trivial.
  rewrite H by now left. destruct (p a); simpl; rewrite IH; auto.
Qed.

Lemma NoDup_map_injective_in {A B} (f : A -> B) (l : list A) x y :
  NoDup (map f l) -> In x l -> In y l -> f x = f y -> x = y.
Proof.
  induction l as [|a l IH]; simpl; [contradiction|].
  intros Hnd Hx Hy Heq. inversion Hnd as [|? ? Hnotin Hnd']; subst.
  destruct Hx as [->|Hx], Hy as [->|Hy]; auto.
  - exfalso. apply Hnotin. rewrite Heq. now apply in_map.
  - exfalso. apply Hnotin. rewrite <- Heq. now apply in_map.
Qed.

Lemma ratings_of_add d u b s u' b' :
  ratings_of (add_rating u b s d) u' b' =
  ratings_of d u' b' ++
    (if (u =? u') && (b =? b') then [mkRating (seq (ratings d)) u b s] else []).
Proof. unfold ratings_of, add_rating. simpl. now rewrite filter_snoc. Qed.

Lemma ratings_of_save d r s u b u' b' :
  NoDup (map rating_id (rows (ratings d))) ->
  ratings_of d u b = [r] ->
  ratings_of (save_rating r s d) u' b' =
    if (u' =? u) && (b' =? b) then [rescore r s] else ratings_of d u' b'.
Proof.
  intros Hnd Hr.
  destruct (filter_singleton_in _ _ _ Hr) as [Hin Hkey].
  apply andb_true_iff in Hkey as [Hk1 Hk2]. apply Z.eqb_eq in Hk1, Hk2.
  set (f := fun r' => if rating_id r' =? rating_id r then rescore r s else r').
  assert (forall x, In x (rows (ratings d)) -> rating_id x = rating_id r -> x = r) as Huniq.
  { intros x Hx E. now apply (NoDup_map_injective_in rating_id (rows (ratings d))). }
  unfold ratings_of at 1, save_rating. simpl. fold f.
  rewrite filter_map_preserving.
  - fold (ratings_of d u' b').
    destruct (Z.eqb_spec u' u) as [->|Hu], (Z.eqb_spec b' b) as [->|Hb]; simpl.
    + rewrite Hr. simpl. unfold f. now rewrite Z.eqb_refl.
    + rewrite <- (map_id (ratings_of d u b')) at 2. apply map_ext_in. intros x Hx.
      apply filter_In in Hx as [Hx Hk]. apply andb_true_iff in Hk as [_ Hk].
      apply Z.eqb_eq in Hk. unfold f.
      destruct (Z.eqb_spec (rating_id x) (rating_id r)) as [E|E]; trivial.
      apply Huniq in E; trivial. subst x. congruence.
    + rewrite <- (map_id (ratings_of d u' b)) at 2. apply map_ext_in. intros x Hx.
      apply filter_In in Hx as [Hx Hk]. apply andb_true_iff in Hk as [Hk _].
      apply Z.eqb_eq in Hk. unfold f.
      destruct (Z.eqb_spec (rating_id x) (rating_id r)) as [E|E]; trivial.
      apply Huniq in E; trivial. subst x. congruence.
    + rewrite <- (map_id (ratings_of d u' b')) at 2. apply map_ext_in. intros x Hx.
      apply filter_In in Hx as [Hx Hk]. apply andb_true_iff in Hk as [Hk _].
      apply Z.eqb_eq in Hk. unfold f.
      destruct (Z.eqb_spec (rating_id x) (rating_id r)) as [E|E]; trivial.
      apply Huniq in E; trivial. subst x. congruence.
  - intros x Hx. unfold f.
    destruct (Z.eqb_spec (rating_id x) (rating_id r)) as [E|E]; trivial.
    apply Huniq in E; trivial. now subst x.
Qed.

Lemma ratings_at_most_one d u b :
  Inv d -> ratings_of d u b = [] \/ exists r, ratings_of d u b = [r].
Proof.
  intros I. apply (NoDup_keyed_at_most_one rating_user rating_blog). apply (inv_ratings _ I).
Qed.

(** The outcome of a rating submission on a well-formed database. *)
Lemma submit_rating_outcome w req pk u blog s :
  Inv (db w) -> submits_rating req u s -> blog_at (db w) pk = Some blog ->
  let w' := step w (mkCall route_blog_detail req pk) in
  fst (handle (mkCall route_blog_detail req pk) w) = HttpResponseRedirect (url_blog_detail pk) /\
  (exists r, ratings_of (db w') (user_id u) pk = [r] /\ score r = s) /\
  (forall u' b', (u', b') <> (user_id u, pk) ->
                 ratings_of (db w') u' b' = ratings_of (db w) u' b') /\
  blogs (db w') = blogs (db w).
Proof.
  intros I Hs Hb w'. subst w'. unfold step.
  rewrite (blog_detail_rating w req pk u blog s Hs Hb).
  destruct (ratings_at_most_one (db w) (user_id u) pk I) as [Hr | [r Hr]]; rewrite Hr; simpl.
  - split; [reflexivity | split; [|split; [|reflexivity]]].
    + eexists. rewrite ratings_of_add, Hr, !Z.eqb_refl. simpl. split; reflexivity.
    + intros u' b' Hne. rewrite ratings_of_add.
      destruct (Z.eqb_spec (user_id u) u'), (Z.eqb_spec pk b'); subst; simpl;
        try congruence; apply app_nil_r.
  - split; [reflexivity | split; [|split; [|reflexivity]]].
    + eexists. rewrite (ratings_of_save _ r s _ _ _ _ (inv_rating_ids _ I) Hr), !Z.eqb_refl.
      simpl. split; reflexivity.
    + intros u' b' Hne. rewrite (ratings_of_save _ r s _ _ _ _ (inv_rating_ids _ I) Hr).
      destruct (Z.eqb_spec u' (user_id u)), (Z.eqb_spec b' pk); subst; simpl;
        try congruence.
Qed.

Lemma reachable_step w c : reachable w -> reachable (step w c).
Proof.
  intros (w0 & calls & H0 & ->). exists w0, (calls ++ [c]). split; trivial.
  unfold run. now rewrite fold_left_app.
Qed.

Lemma submit_rating_in_place w req pk u blog s r0 :
  submits_rating req u s -> blog_at (db w) pk = Some blog ->
  Inv (db w) -> ratings_of (db w) (user_id u) pk = [r0] ->
  ratings_of (db (step w (mkCall route_blog_detail req pk))) (user_id u) pk = [rescore r0 s].
Proof.
  intros Hs Hb I Hr. unfold step.
  rewrite (blog_detail_rating w req pk u blog s Hs Hb), Hr. simpl.
  now rewrite (ratings_of_save _ r0 s _ _ _ _ (inv_rating_ids _ I) Hr), !Z.eqb_refl.
Qed.

(** C3. Submitting a valid score is an upsert keyed on (user, post): on every
    reachable site each pair has at most one Rating row; after a submission
    the pair has exactly one row, carrying the submitted score, and an
    existing row is rewritten in place (same primary key) while the rows of
    other pairs stay as they were; in particular a submission of 3 followed
    by one of 5 leaves exactly one row for the pair, with score 5. *)
Theorem C3_rating_upsert :
  (forall w u b, reachable w -> (List.length (ratings_of (db w) u b) <= 1)%nat) /\
  (forall w req pk u blog s,
      reachable w -> submits_rating req u s -> blog_at (db w) pk = Some blog ->
      let w' := step w (mkCall route_blog_detail req pk) in
      (exists r, ratings_of (db w') (user_id u) pk = [r] /\ score r = s) /\
      (forall r0, ratings_of (db w) (user_id u) pk = [r0] ->
                  ratings_of (db w') (user_id u) pk = [rescore r0 s]) /\
      (forall u' b', (u', b') <> (user_id u, pk) ->
                     ratings_of (db w') u' b' = ratings_of (db w) u' b')) /\
  (forall w req3 req5 pk u blog,
      reachable w -> submits_rating req3 u 3 -> submits_rating req5 u 5 ->
      blog_at (db w) pk = Some blog ->
      exists r,
        ratings_of (db (run [mkCall route_blog_detail req3 pk;
                             mkCall route_blog_detail req5 pk] w)) (user_id u) pk = [r] /\
        score r = 5).
Proof.
  split; [|split].
  - intros w u b Hr. apply reachable_Inv in Hr.
    destruct (ratings_at_most_one (db w) u b Hr) as [-> | [r ->]]; simpl; lia.
  - intros w req pk u blog s Hr Hs Hb w'. subst w'.
    pose proof (reachable_Inv w Hr) as I.
    destruct (submit_rating_outcome w req pk u blog s I Hs Hb) as (_ & H1 & H2 & _).
    split; [exact H1 | split; [| exact H2]].
    intros r0 Hr0. now apply (submit_rating_in_place w req pk u blog s r0).
  - intros w req3 req5 pk u blog Hr H3 H5 Hb. simpl.
    pose proof (reachable_Inv w Hr) as I.
    destruct (submit_rating_outcome w req3 pk u blog 3 I H3 Hb) as (_ & _ & _ & Hblogs).
    set (w1 := step w (mkCall route_blog_detail req3 pk)) in *.
    assert (blog_at (db w1) pk = Some blog) as Hb1.
    { unfold blog_at. now rewrite Hblogs. }
    assert (Inv (db w1)) as I1 by (apply reachable_Inv, reachable_step, Hr).
    now destruct (submit_rating_outcome w1 req5 pk u blog 5 I1 H5 Hb1) as (_ & H & _).
Qed.

Lemma C3_witness :
  exists r,
    ratings_of (db (run [mkCall route_blog_detail (rating_request Example.bob "3") 1;
                         mkCall route_blog_detail (rating_request Example.bob "5") 1]
                        Example.site0)) 8 1 = [r] /\ score r = 5.
Proof.
  apply (proj2 (proj2 C3_rating_upsert) Example.site0
           (rating_request Example.bob "3") (rating_request Example.bob "5") 1
           Example.bob Example.post1 (ExampleFacts.site0_runs [])).
  - repeat split; reflexivity.
  - repeat split; reflexivity.
  - reflexivity.
Defined.

(** ** Favorites: the toggle *)

Lemma filter_comm {A} (p q : A -> bool) (l : list A) :
  filter p (filter q l) = filter q (filter p l).
Proof.
  induction l as [|a l IH]; simpl; trivial.
  destruct (p a) eqn:P, (q a) eqn:Q; simpl; rewrite ?P, ?Q, IH; reflexivity.
Qed.

Lemma favorites_of_add d u b u' b' :
  favorites_of (add_favorite u b d) u' b' =
  favorites_of d u' b' ++
    (if (u =? u') && (b =? b') then [mkFavorite (seq (favorites d)) u b] else []).
Proof. unfold favorites_of, add_favorite. simpl. now rewrite filter_snoc. Qed.

Lemma favorites_of_del_same d u b f :
  favorites_of d u b = [f] -> favorites_of (del_favorite f d) u b = [].
Proof.
  intros H. unfold favorites_of, del_favorite in *. simpl.
  rewrite filter_comm, H. simpl. now rewrite Z.eqb_refl.
Qed.

Lemma filter_filter_out_in {A} (p q : A -> bool) (l : list A) :
  (forall r, In r l -> q r = true -> p r = false) ->
  filter q (filter (fun r => negb (p r)) l) = filter q l.
Proof.
  induction l as [|a l IH]; simpl; intros H; trivial.
  destruct (p a) eqn:E; simpl.
  - destruct (q a) eqn:Eq.
    + rewrite (H a) in E by auto. discriminate.
    + apply IH. auto.
  - rewrite IH by auto. reflexivity.
Qed.

Lemma favorites_of_del_other d u b f u' b' :
  NoDup (map favorite_id (rows (favorites d))) ->
  favorites_of d u b = [f] -> (u', b') <> (u, b) ->
  favorites_of (del_favorite f d) u' b' = favorites_of d u' b'.
Proof.
  intros Hnd Hf Hne. unfold favorites_of, del_favorite in *. simpl.
  apply filter_filter_out_in. intros r Hin' Hr.
  destruct (filter_singleton_in _ _ _ Hf) as [Hin Hk].
  apply andb_true_iff in Hr as [H1 H2]. apply andb_true_iff in Hk as [H3 H4].
  apply Z.eqb_eq in H1, H2, H3, H4.
  destruct (Z.eqb_spec (favorite_id r) (favorite_id f)) as [E|E]; trivial.
  exfalso. apply Hne.
  rewrite (NoDup_map_injective_in favorite_id _ r f Hnd Hin' Hin E) in *. congruence.
Qed.

Lemma favorites_at_most_one d u b :
  Inv d -> favorites_of d u b = [] \/ exists f, favorites_of d u b = [f].
Proof.
  intros I. apply (NoDup_keyed_at_most_one favorite_user favorite_blog).
  apply (inv_favorites _ I).
Qed.

(** C7. For a signed-in user and a stored post on a reachable site,
    [toggle_favorite] removes the pair's Favorite when there is one and
    creates one otherwise, so that a pair never has more than one; the
    reaction tables are neither read nor written (the outcome is the same
    whatever they hold).  When the confirmation mail cannot be sent the new
    Favorite is kept all the same: the answer is the usual redirect to the
    post, with a warning flashed instead of a failure. *)
Theorem C7_toggle_favorite w req pk u blog :
  reachable w -> user req = Some u -> blog_at (db w) pk = Some blog ->
  let call := mkCall route_toggle_favorite req pk in
  let w' := step w call in
  fst (handle call w) = HttpResponseRedirect (url_blog_detail pk) /\
  (List.length (favorites_of (db w) (user_id u) pk) <= 1)%nat /\
  (forall f, favorites_of (db w) (user_id u) pk = [f] ->
             favorites_of (db w') (user_id u) pk = [] /\
             flash w' = flash w ++ [(SUCCESS, "Removed from favorites.")]) /\
  (favorites_of (db w) (user_id u) pk = [] ->
   (exists f, favorites_of (db w') (user_id u) pk = [f]) /\
   (mail_up req = true ->
    flash w' = flash w ++ [(SUCCESS, "Added to favorites!")]) /\
   (mail_up req = false ->
    flash w' = flash w ++ [(SUCCESS, "Added to favorites!"); (WARNING, mail_warning)])) /\
  (forall u' b', (List.length (favorites_of (db w') u' b') <= 1)%nat) /\
  (forall u' b', (u', b') <> (user_id u, pk) ->
                 favorites_of (db w') u' b' = favorites_of (db w) u' b') /\
  likes (db w') = likes (db w) /\ dislikes (db w') = dislikes (db w) /\
  (forall l dl,
      fst (handle call (with_reactions l dl w)) = fst (handle call w) /\
      favorites (db (step (with_reactions l dl w) call)) = favorites (db w')).
Proof.
  intros Hr Hu Hb call w'. subst call w'.
  pose proof (reachable_Inv w Hr) as I.
  assert (forall u' b',
            (List.length (favorites_of
               (db (step w (mkCall route_toggle_favorite req pk))) u' b') <= 1)%nat) as Hone.
  { intros u' b'.
    assert (Inv (db (step w (mkCall route_toggle_favorite req pk)))) as I'
      by (apply reachable_Inv, reachable_step, Hr).
    destruct (favorites_at_most_one _ u' b' I') as [-> | [f ->]]; simpl; lia. }
  assert (forall l dl,
            fst (handle (mkCall route_toggle_favorite req pk) (with_reactions l dl w)) =
              fst (handle (mkCall route_toggle_favorite req pk) w) /\
            favorites (db (step (with_reactions l dl w) (mkCall route_toggle_favorite req pk))) =
              favorites (db (step w (mkCall route_toggle_favorite req pk)))) as Hind.
  { intros l dl. unfold step.
    rewrite (toggle_favorite_found (with_reactions l dl w) req pk u blog Hu Hb).
    rewrite (toggle_favorite_found w req pk u blog Hu Hb).
    unfold favorites_of. simpl.
    destruct (filter _ (rows (favorites (db w)))) as [|f [|f' fs]]; simpl; auto. }
  revert Hone Hind. unfold step.
  rewrite (toggle_favorite_found w req pk u blog Hu Hb).
  destruct (favorites_at_most_one (db w) (user_id u) pk I) as [Hf | [f Hf]]; rewrite Hf;
    simpl; intros Hone Hind.
  - split; [reflexivity|]. split; [simpl; lia|]. split; [intros f [=]|]. split.
    + intros _. split; [|split].
      * eexists. rewrite favorites_of_add, Hf, !Z.eqb_refl. reflexivity.
      * intros ->. reflexivity.
      * intros ->. reflexivity.
    + split; [exact Hone|]. split; [|auto].
      intros u' b' Hne. rewrite favorites_of_add.
      destruct (Z.eqb_spec (user_id u) u'), (Z.eqb_spec pk b'); subst; simpl;
        try congruence; apply app_nil_r.
  - split; [reflexivity|]. split; [simpl; lia|]. split.
    + intros f0 [= <-]. split; [|reflexivity]. now apply favorites_of_del_same.
    + split; [intros [=]|]. split; [exact Hone|]. split; [|auto].
      intros u' b' Hne.
      apply (favorites_of_del_other _ (user_id u) pk); trivial. apply (inv_favorite_ids _ I).
Qed.

Lemma C7_witness :
  exists f,
    favorites_of
      (db (step Example.site0
             (mkCall route_toggle_favorite
                (mkRequest GET (Some Example.bob) [] [] None 0 false) 1))) 8 1 = [f].
Proof.
  apply (proj1 (proj1 (proj2 (proj2 (proj2
           (C7_toggle_favorite Example.site0
              (mkRequest GET (Some Example.bob) [] [] None 0 false) 1
              Example.bob Example.post1 (ExampleFacts.site0_runs []) eq_refl eq_refl))))
           eq_refl)).
Defined.

(** ** Comments: posting *)

Lemma blog_detail_comment w req pk u blog text parent :
  Inv (db w) -> posts_comment req u text parent -> blog_at (db w) pk = Some blog ->
  handle (mkCall route_blog_detail req pk) w =
    match parent with
    | None => comment_posted w req pk u text None
    | Some raw =>
        if Py.truthy raw then
          match Py.int_of_str raw with
          | None => (HttpResponseServerError ValueError, w)
          | Some i =>
              match filter (fun c => comment_id c =? i) (rows (comments (db w))) with
              | [] =>
                  (HttpResponseRedirect (url_blog_detail pk),
                   mkWorld (db w) (flash w ++ [(ERROR, "Invalid comment to reply to.")])
                           (outbox w))
              | [p] => comment_posted w req pk u text (Some (comment_id p))
              | _ :: _ :: _ => (HttpResponseServerError MultipleObjectsReturned, w)
              end
          end
        else comment_posted w req pk u text None
    end.
Proof.
  intros I (Hm & Hu & Hc & Ht & Hp) Hb. pose proof (blog_at_id _ _ _ Hb) as Hid.
  pose proof (ratings_at_most_one (db w) (user_id u) pk I) as Hr.
  unfold handle, respond; simpl.
  unfold blog_detail, get_blog_or_404, render_detail, is_POST, comment_posted, add_comment,
    ratings_of, rating_of in *.
  rewrite Hu, Hm, Hc, Ht, Hp. unfold blog_at in Hb. destruct w as [d fl ob]. simpl in Hb, Hr.
  run_view.
  destruct (filter _ (rows (blogs d))) as [|b0 [|b1 l]]; try discriminate.
  injection Hb as ->. run_view. rewrite Hid.
  destruct Hr as [Hr | [r Hr]]; rewrite Hr; run_view;
    destruct parent as [raw|]; run_view; trivial;
    destruct (Py.truthy raw); run_view; trivial;
    destruct (Py.int_of_str raw) as [i|]; run_view; trivial;
    destruct (filter _ (rows (comments d))) as [|p [|p' ps]]; run_view; reflexivity.
Qed.

Lemma filter_by_unique_id {A} (id : A -> Z) (l : list A) x :
  NoDup (map id l) -> In x l -> filter (fun r => id r =? id x) l = [x].
Proof.
  induction l as [|a l IH]; simpl; [contradiction|].
  intros Hnd Hin. inversion Hnd as [|? ? Hnotin Hnd']; subst.
  destruct Hin as [->|Hin].
  - rewrite Z.eqb_refl. f_equal. apply filter_none.
    destruct (existsb (fun r => id r =? id x) l) eqn:E; trivial.
    exfalso. apply Hnotin. apply existsb_exists in E as (r & Hr & Hid).
    apply Z.eqb_eq in Hid. rewrite <- Hid. now apply in_map.
  - destruct (Z.eqb_spec (id a) (id x)) as [E|E]; [|now apply IH].
    exfalso. apply Hnotin. rewrite E. now apply in_map.
Qed.

Module Example2Facts.
Import Example ExampleFacts Example2.

Lemma site1_reachable : reachable site1.
Proof. apply site0_runs. Qed.

Lemma site2_reachable : reachable site2.
Proof. apply reachable_step, site1_reachable. Qed.

End Example2Facts.

(** C2, as stated, fails: on [site1], where comment 1 belongs to post 1, a
    reply to comment 1 submitted on post 2 is answered with the success
    redirect and stored as a comment of post 2. *)
Lemma C2_counterexample :
  ~ (forall w req pk u blog text raw i parent,
        reachable w -> posts_comment req u text (Some raw) ->
        blog_at (db w) pk = Some blog ->
        Py.int_of_str raw = Some i ->
        In parent (rows (comments (db w))) -> comment_id parent = i ->
        comment_blog parent <> pk ->
        fst (handle (mkCall route_blog_detail req pk) w)
          <> HttpResponseRedirect (url_blog_detail pk) /\
        rows (comments (db (step w (mkCall route_blog_detail req pk)))) =
          rows (comments (db w))).
Proof.
  intros H.
  destruct (H Example2.site1 (comment_request Example.alice "Thanks" (Some "1") 20) 2
              Example.alice Example.post2 "Thanks" "1" 1 Example2.comment1
              (ExampleFacts.site0_runs _)) as [_ Hrows].
  - repeat split; reflexivity.
  - reflexivity.
  - reflexivity.
  - now left.
  - reflexivity.
  - simpl. lia.
  - vm_compute in Hrows. discriminate Hrows.
Qed.

(** C2, amended. On a reachable site, a comment posted with a
    [parent_comment_id] that [int] reads as the primary key of a stored
    comment is accepted whichever post that comment belongs to: exactly one
    row is appended, attached to the post being commented on, with the named
    comment as its parent.  A number that names no stored comment is refused
    with the message "Invalid comment to reply to." and no new row.  A text
    that [int] does not read as a number is not handled: the [ValueError]
    surfaces as a server error and nothing is stored or flashed.  The empty
    text stands for no parent. *)
Theorem C2_reply_to_any_stored_comment w req pk u blog text raw :
  reachable w -> posts_comment req u text (Some raw) ->
  blog_at (db w) pk = Some blog ->
  let call := mkCall route_blog_detail req pk in
  let reply parent :=
    mkComment (seq (comments (db w))) pk (user_id u) text (received_at req) parent in
  (forall i parent,
      raw <> "" -> Py.int_of_str raw = Some i ->
      In parent (rows (comments (db w))) -> comment_id parent = i ->
      fst (handle call w) = HttpResponseRedirect (url_blog_detail pk) /\
      rows (comments (db (step w call))) = rows (comments (db w)) ++ [reply (Some i)]) /\
  (forall i,
      raw <> "" -> Py.int_of_str raw = Some i ->
      (forall c, In c (rows (comments (db w))) -> comment_id c <> i) ->
      handle call w =
        (HttpResponseRedirect (url_blog_detail pk),
         mkWorld (db w) (flash w ++ [(ERROR, "Invalid comment to reply to.")]) (outbox w))) /\
  (raw <> "" -> Py.int_of_str raw = None ->
   handle call w = (HttpResponseServerError ValueError, w)) /\
  (raw = "" ->
   fst (handle call w) = HttpResponseRedirect (url_blog_detail pk) /\
   rows (comments (db (step w call))) = rows (comments (db w)) ++ [reply None]).
Proof.
  intros Hr Hp Hb call reply. subst call reply.
  pose proof (reachable_Inv w Hr) as I.
  unfold step. rewrite (blog_detail_comment w req pk u blog text (Some raw) I Hp Hb).
  assert (raw <> "" -> Py.truthy raw = true) as Ht
    by (destruct raw; [congruence | reflexivity]).
  split; [|split; [|split]].
  - intros i parent Hne Hi Hin <-. rewrite (Ht Hne), Hi.
    rewrite (filter_by_unique_id comment_id _ parent (inv_comment_ids _ I) Hin).
    split; reflexivity.
  - intros i Hne Hi Hnone. rewrite (Ht Hne), Hi.
    destruct (filter _ (rows (comments (db w)))) as [|c cs] eqn:Hf; trivial.
    assert (In c (filter (fun c => comment_id c =? i) (rows (comments (db w))))) as Hin
      by (rewrite Hf; now left).
    apply filter_In in Hin as [Hin Hid]. apply Z.eqb_eq in Hid. now apply Hnone in Hin.
  - intros Hne Hi. now rewrite (Ht Hne), Hi.
  - intros ->. split; reflexivity.
Qed.

Lemma C2_witness :
  rows (comments
          (db (step Example2.site1
                 (mkCall route_blog_detail
                    (comment_request Example.alice "Thanks" (Some Example.arabic_one) 20) 2)))) =
    [Example2.comment1; mkComment 2 2 7 "Thanks" 20 (Some 1)].
Proof.
  apply (proj2 (proj1 (C2_reply_to_any_stored_comment Example2.site1
                         (comment_request Example.alice "Thanks" (Some Example.arabic_one) 20) 2
                         Example.alice Example.post2 "Thanks" Example.arabic_one
                         (ExampleFacts.site0_runs _)
                         (conj eq_refl (conj eq_refl (conj eq_refl (conj eq_refl eq_refl))))
                         eq_refl)
                      1 Example2.comment1 ltac:(discriminate) eq_refl (or_introl eq_refl)
                      eq_refl)).
Defined.

(** ** Deleting a post: what the cascade removes *)

Lemma is_reply_to_spec batch c :
  is_reply_to batch c = true <->
  exists x, In x batch /\ parent_comment c = Some (comment_id x).
Proof.
  unfold is_reply_to. destruct (parent_comment c) as [p|].
  - rewrite existsb_exists. split.
    + intros (x & Hin & Hid). apply Z.eqb_eq in Hid. exists x. now subst.
    + intros (x & Hin & [= ->]). exists x. split; trivial. apply Z.eqb_refl.
  - split; [discriminate | intros (x & _ & [=])].
Qed.

(** With the fuel [cascade_delete] gives it, the collector stops only when
    no surviving row replies to a removed one. *)
Lemma collect_replies_closed fuel : forall batch rest,
  (List.length rest <= fuel)%nat ->
  forall c, In c (collect_replies fuel batch rest) ->
    is_reply_to batch c = false /\
    (forall x, In x rest -> ~ In x (collect_replies fuel batch rest) ->
               parent_comment c <> Some (comment_id x)).
Proof.
  induction fuel as [|n IH]; intros batch rest Hlen c Hc; simpl in *.
  - destruct rest; [contradiction | simpl in Hlen; lia].
  - rewrite partition_as_filter in *.
    destruct (filter (is_reply_to batch) rest) as [|h hit] eqn:Hhit.
    + split; [|intros x Hx Hnx; contradiction].
      destruct (is_reply_to batch c) eqn:E; trivial.
      assert (In c (filter (is_reply_to batch) rest)) as Hin by (apply filter_In; auto).
      now rewrite Hhit in Hin.
    + set (keep := filter (fun x => negb (is_reply_to batch x)) rest) in *.
      assert (List.length keep <= n)%nat as Hlen'.
      { pose proof (filter_length (is_reply_to batch) rest) as Hfl.
        rewrite Hhit in Hfl. simpl in Hfl. unfold keep. lia. }
      destruct (IH (h :: hit) keep Hlen' c Hc) as [Hnohit Hkeep].
      pose proof (collect_replies_incl _ _ _ _ Hc) as Hck.
      apply filter_In in Hck as [Hcrest Hcb]. apply negb_true_iff in Hcb.
      split; trivial.
      intros x Hx Hnx Hpar.
      destruct (is_reply_to batch x) eqn:Ex.
      * assert (In x (h :: hit)) as Hxh by (rewrite <- Hhit; apply filter_In; auto).
        assert (is_reply_to (h :: hit) c = true) as Habs
          by (apply is_reply_to_spec; exists x; auto).
        congruence.
      * apply (Hkeep x); trivial. apply filter_In. split; trivial. now rewrite Ex.
Qed.

Lemma collect_replies_removed cs b fuel : forall batch rest,
  (forall x, In x batch -> In x cs /\ descends cs b x) ->
  (forall x, In x rest -> In x cs) ->
  forall c, In c rest -> In c (collect_replies fuel batch rest) \/ descends cs b c.
Proof.
  induction fuel as [|n IH]; intros batch rest Hbatch Hrest c Hc; simpl; [now left|].
  rewrite partition_as_filter.
  destruct (filter (is_reply_to batch) rest) as [|h hit] eqn:Hhit; [now left|].
  assert (forall x, In x (h :: hit) -> In x cs /\ descends cs b x) as Hhits.
  { intros x Hx. rewrite <- Hhit in Hx. apply filter_In in Hx as [Hx Hrep].
    split; [now apply Hrest|]. apply is_reply_to_spec in Hrep as (y & Hy & Hpar).
    destruct (Hbatch y Hy). now apply descends_reply with y. }
  destruct (is_reply_to batch c) eqn:E.
  - right. apply Hhits. rewrite <- Hhit. apply filter_In. auto.
  - apply IH; trivial.
    + intros x Hx. apply filter_In in Hx. now apply Hrest.
    + apply filter_In. split; trivial. now rewrite E.
Qed.

Lemma filter_filter_neg {A} (p : A -> bool) (l : list A) :
  filter p (filter (fun r => negb (p r)) l) = [].
Proof.
  induction l as [|a l IH]; simpl; trivial.
  destruct (p a) eqn:E; simpl; trivial. now rewrite E.
Qed.

Lemma filter_other_blog {A} (blog_of : A -> Z) (b b' : Z) (l : list A) :
  b' <> b ->
  filter (fun r => blog_of r =? b') (filter (fun r => negb (blog_of r =? b)) l) =
  filter (fun r => blog_of r =? b') l.
Proof.
  intros Hne. apply filter_filter_out. intros r Hr. apply Z.eqb_eq in Hr.
  apply Z.eqb_neq. congruence.
Qed.

Lemma cascade_delete_survivors d b c :
  In c (rows (comments (cascade_delete b d))) <->
  In c (rows (comments d)) /\ ~ descends (rows (comments d)) b c.
Proof.
  unfold cascade_delete. simpl.
  set (cs := rows (comments d)).
  set (seed := filter (fun c => comment_blog c =? b) cs).
  set (others := filter (fun c => negb (comment_blog c =? b)) cs).
  assert (forall x, In x seed -> In x cs /\ descends cs b x) as Hseed.
  { intros x Hx. apply filter_In in Hx as [Hx Hb]. apply Z.eqb_eq in Hb.
    split; trivial. now apply descends_own. }
  assert (forall x, In x others -> In x cs) as Hothers.
  { intros x Hx. now apply filter_In in Hx. }
  split.
  - intros Hc. split; [now apply Hothers, (collect_replies_incl _ _ _ _ Hc)|].
    intros Hd. revert Hc.
    induction Hd as [c Hb | c x Hx Hdx IH Hpar]; intros Hc.
    + apply collect_replies_incl, filter_In in Hc as [_ Hc].
      apply negb_true_iff, Z.eqb_neq in Hc. contradiction.
    + destruct (collect_replies_closed (List.length others) seed others (le_n _) c Hc)
        as [Hnoseed Hclosed].
      destruct (comment_blog x =? b) eqn:Ex.
      * assert (is_reply_to seed c = true) as Habs.
        { apply is_reply_to_spec. exists x. split; trivial. apply filter_In. auto. }
        congruence.
      * assert (In x others) as Hxo by (apply filter_In; split; trivial; now rewrite Ex).
        now apply (Hclosed x Hxo IH).
  - intros [Hc Hnd].
    assert (In c others) as Hco.
    { apply filter_In. split; trivial. apply negb_true_iff, Z.eqb_neq.
      intros Hb. apply Hnd. now apply descends_own. }
    destruct (collect_replies_removed cs b (List.length others) seed others
                Hseed Hothers c Hco); [trivial | contradiction].
Qed.

Lemma descends_same_post cs b c :
  same_post cs -> descends cs b c -> In c cs -> comment_blog c = b.
Proof.
  intros Hsp Hd. induction Hd as [c Hb | c x Hx Hdx IH Hpar]; intros Hc; trivial.
  rewrite (Hsp c x Hc Hx Hpar). now apply IH.
Qed.

Lemma filter_filter_keep {A} (p q : A -> bool) (l : list A) :
  (forall r, In r l -> q r = true -> p r = true) ->
  filter q (filter p l) = filter q l.
Proof.
  induction l as [|a l IH]; simpl; intros H; trivial.
  destruct (p a) eqn:E; simpl.
  - rewrite IH by auto. reflexivity.
  - destruct (q a) eqn:Eq.
    + rewrite (H a) in E by auto. discriminate.
    + apply IH. auto.
Qed.

Lemma filter_filter_and {A} (p q : A -> bool) (l : list A) :
  filter q (filter p l) = filter (fun r => p r && q r) l.
Proof.
  induction l as [|a l IH]; simpl; trivial.
  destruct (p a); simpl; [destruct (q a)|]; now rewrite IH.
Qed.

(** The rows [cascade_delete] leaves in the comment table, as a filter of
    the table. *)
Lemma cascade_delete_comments d b :
  exists keep,
    rows (comments (cascade_delete b d)) = filter keep (rows (comments d)) /\
    (forall c, In c (rows (comments d)) ->
               (keep c = true <-> ~ descends (rows (comments d)) b c)).
Proof.
  destruct (collect_replies_filter
              (List.length (filter (fun c => negb (comment_blog c =? b)) (rows (comments d))))
              (filter (fun c => comment_blog c =? b) (rows (comments d)))
              (filter (fun c => negb (comment_blog c =? b)) (rows (comments d))))
    as [keep Hkeep].
  exists (fun c => negb (comment_blog c =? b) && keep c).
  assert (rows (comments (cascade_delete b d)) =
          filter (fun c => negb (comment_blog c =? b) && keep c) (rows (comments d))) as Heq.
  { unfold cascade_delete. simpl. rewrite Hkeep. apply filter_filter_and. }
  split; trivial.
  intros c Hc. pose proof (cascade_delete_survivors d b c) as Hs.
  rewrite Heq, filter_In in Hs. tauto.
Qed.

Lemma cascade_delete_other_comments d b b' :
  same_post (rows (comments d)) -> b' <> b ->
  comments_on (cascade_delete b d) b' = comments_on d b'.
Proof.
  intros Hsp Hne. destruct (cascade_delete_comments d b) as (keep & Heq & Hkeep).
  unfold comments_on. rewrite Heq. apply filter_filter_keep.
  intros c Hc Hb. apply Z.eqb_eq in Hb. apply Hkeep; trivial.
  intros Hd. apply (descends_same_post _ _ _ Hsp Hd) in Hc. congruence.
Qed.

(** C6, as stated, fails: on [site2] the only comment of post 2 replies to
    a comment of post 1, and when alice deletes post 1 the cascade through
    [parent_comment] deletes it too. *)
Lemma C6_counterexample :
  ~ (forall w req pk u blog b',
        reachable w -> method req = POST -> user req = Some u ->
        blog_at (db w) pk = Some blog -> may_manage u blog = true -> b' <> pk ->
        comments_on (db (step w (mkCall route_blog_delete req pk))) b' =
        comments_on (db w) b').
Proof.
  intros H.
  specialize (H Example2.site2 (mkRequest POST (Some Example.alice) [] [] None 30 true) 1
                Example.alice Example.post1 2 Example2Facts.site2_reachable
                eq_refl eq_refl eq_refl eq_refl).
  vm_compute in H. discriminate H. lia.
Qed.

(** C6, amended. When its author or a staff member deletes a post, the post
    and all of its Likes, Dislikes, Favorites, Ratings and Comments are
    deleted, and so is every reply, at any depth, to one of its comments: a
    comment survives exactly when it does not descend from a comment of the
    deleted post.  Likes, Dislikes, Favorites and Ratings of other posts are
    unchanged; comments of other posts are unchanged as well when every stored
    reply belongs to the post of its parent, which the views do not enforce. *)
Theorem C6_delete_cascades w req pk u blog :
  method req = POST -> user req = Some u ->
  blog_at (db w) pk = Some blog -> may_manage u blog = true ->
  let d := db w in
  let d' := db (step w (mkCall route_blog_delete req pk)) in
  (filter (fun b => blog_id b =? pk) (rows (blogs d')) = [] /\
   likes_on d' pk = [] /\ dislikes_on d' pk = [] /\ favorites_on d' pk = [] /\
   ratings_on d' pk = [] /\ comments_on d' pk = []) /\
  (exists keep,
      rows (comments d') = filter keep (rows (comments d)) /\
      forall c, In c (rows (comments d)) ->
                (keep c = true <-> ~ descends (rows (comments d)) pk c)) /\
  (forall b', b' <> pk ->
      likes_on d' b' = likes_on d b' /\ dislikes_on d' b' = dislikes_on d b' /\
      favorites_on d' b' = favorites_on d b' /\ ratings_on d' b' = ratings_on d b' /\
      (same_post (rows (comments d)) -> comments_on d' b' = comments_on d b')).
Proof.
  intros Hm Hu Hb Hok d d'. subst d d'. unfold step.
  rewrite (blog_delete_found w req pk u blog Hm Hu Hb Hok). simpl snd. simpl db.
  split; [|split].
  - unfold likes_on, dislikes_on, favorites_on, ratings_on, comments_on.
    repeat split; try (unfold cascade_delete; simpl; apply filter_filter_neg).
    destruct (filter _ (rows (comments (cascade_delete pk (db w))))) as [|c cs] eqn:Hf; trivial.
    assert (In c (filter (fun c => comment_blog c =? pk)
                         (rows (comments (cascade_delete pk (db w)))))) as Hin
      by (rewrite Hf; now left).
    apply filter_In in Hin as [Hin Hcb]. apply Z.eqb_eq in Hcb.
    apply cascade_delete_survivors in Hin as [_ Hnd].
    exfalso. apply Hnd. now apply descends_own.
  - apply cascade_delete_comments.
  - intros b' Hne. unfold likes_on, dislikes_on, favorites_on, ratings_on.
    repeat split; try (unfold cascade_delete; simpl; now apply filter_other_blog).
    intros Hsp. now apply cascade_delete_other_comments.
Qed.

Lemma C6_witness :
  comments_on
    (db (step Example2.site2
           (mkCall route_blog_delete
              (mkRequest POST (Some Example.alice) [] [] None 30 true) 1))) 1 = [].
Proof.
  apply (proj2 (proj2 (proj2 (proj2 (proj2 (proj1
           (C6_delete_cascades Example2.site2
              (mkRequest POST (Some Example.alice) [] [] None 30 true) 1
              Example.alice Example.post1 eq_refl eq_refl eq_refl eq_refl))))))).
Defined.

(** ** Listing top-level comments *)

Lemma insert_newest_perm c l : Permutation (c :: l) (insert_newest c l).
Proof.
  induction l as [|c' l IH]; simpl; [reflexivity|].
  destruct (created_at c' <=? created_at c); [reflexivity|].
  rewrite perm_swap. now apply perm_skip.
Qed.

Lemma order_by_newest_perm l : Permutation l (order_by_newest l).
Proof.
  induction l as [|c l IH]; simpl; [constructor|].
  rewrite <- insert_newest_perm. now apply perm_skip.
Qed.

Lemma insert_newest_sorted c l :
  StronglySorted newest_first l -> StronglySorted newest_first (insert_newest c l).
Proof.
  induction l as [|c' l IH]; simpl; intros Hs.
  - repeat constructor.
  - inversion Hs as [|? ? Hs' Hall]; subst.
    destruct (Z.leb_spec (created_at c') (created_at c)) as [Hle|Hlt].
    + constructor; trivial. constructor; trivial.
      eapply Forall_impl; [|exact Hall]. unfold newest_first. intros; lia.
    + constructor; [now apply IH|].
      rewrite <- insert_newest_perm. constructor; trivial. unfold newest_first. lia.
Qed.

Lemma order_by_newest_sorted l : StronglySorted newest_first (order_by_newest l).
Proof.
  induction l as [|c l IH]; simpl; [constructor | now apply insert_newest_sorted].
Qed.

Lemma StronglySorted_skipn {A} (R : A -> A -> Prop) n (l : list A) :
  StronglySorted R l -> StronglySorted R (skipn n l).
Proof.
  revert l. induction n as [|n IH]; intros l Hs; simpl; trivial.
  destruct l; trivial. inversion Hs; subst. now apply IH.
Qed.

Lemma StronglySorted_firstn {A} (R : A -> A -> Prop) n (l : list A) :
  StronglySorted R l -> StronglySorted R (firstn n l).
Proof.
  revert l. induction n as [|n IH]; intros l Hs; simpl; [constructor|].
  destruct l; [constructor|]. inversion Hs as [|? ? Hs' Hall]; subst.
  constructor; [now apply IH|].
  rewrite Forall_forall in *. intros x Hx. apply Hall.
  rewrite <- (firstn_skipn n l). apply in_or_app. now left.
Qed.

Section PageFacts.
Context {A : Type}.
Variable l : list A.
Variable per_page : nat.
Hypothesis per_page_pos : (0 < per_page)%nat.

Lemma page_slice_eq n :
  Paginator.page_slice l per_page n = firstn per_page (skipn ((n - 1) * per_page) l).
Proof.
  unfold Paginator.page_slice, Paginator.count.
  set (bottom := ((n - 1) * per_page)%nat).
  destruct (Nat.leb_spec (List.length l) (bottom + per_page)) as [Hle|Hlt].
  - rewrite !firstn_all2; trivial; rewrite length_skipn; lia.
  - f_equal. lia.
Qed.

Lemma num_pages_pos : (1 <= Paginator.num_pages l per_page)%nat.
Proof.
  unfold Paginator.num_pages. apply Nat.div_le_lower_bound; lia.
Qed.

Lemma page_or_fallback_slice number :
  exists n, (1 <= n <= Paginator.num_pages l per_page)%nat /\
            Paginator.page_or_fallback l per_page number = Paginator.page_slice l per_page n.
Proof.
  pose proof num_pages_pos as Hpos.
  unfold Paginator.page_or_fallback, Paginator.page, Paginator.validate_number.
  destruct number as [s|]; [|exists 1%nat; split; [lia|reflexivity]].
  destruct (Py.int_of_str s) as [z|]; [|exists 1%nat; split; [lia|reflexivity]].
  destruct (Z.ltb_spec z 1); [eexists; split; [|reflexivity]; lia|].
  destruct (Z.ltb_spec (Z.of_nat (Paginator.num_pages l per_page)) z);
    [eexists; split; [|reflexivity]; lia|].
  exists (Z.to_nat z). split; [lia | reflexivity].
Qed.

(** The page the fallbacks settle on, as a page number. *)
Lemma page_or_fallback_number number :
  Paginator.page_or_fallback l per_page number =
    Paginator.page_slice l per_page
      match number with
      | None => 1%nat
      | Some s =>
          match Py.int_of_str s with
          | None => 1%nat
          | Some z =>
              if (z <? 1) || (Z.of_nat (Paginator.num_pages l per_page) <? z)
              then Paginator.num_pages l per_page
              else Z.to_nat z
          end
      end.
Proof.
  unfold Paginator.page_or_fallback, Paginator.page, Paginator.validate_number.
  destruct number as [s|]; [|reflexivity].
  destruct (Py.int_of_str s) as [z|]; [|reflexivity].
  destruct (z <? 1); [reflexivity|].
  now destruct (Z.of_nat (Paginator.num_pages l per_page) <? z).
Qed.

Lemma every_row_on_a_page x :
  In x l ->
  exists n, (1 <= n <= Paginator.num_pages l per_page)%nat /\
            In x (Paginator.page_slice l per_page n).
Proof.
  intros Hin. apply In_nth_error in Hin as [i Hi].
  assert (i < List.length l)%nat as Hlt by (apply nth_error_Some; congruence).
  exists (S (i / per_page)). split.
  - split; [lia|]. unfold Paginator.num_pages, Paginator.count.
    assert (i / per_page <= (Nat.max 1 (List.length l) - 1) / per_page)%nat as Hd
      by (apply Nat.Div0.div_le_mono; lia).
    replace (Nat.max 1 (List.length l) + per_page - 1)%nat
      with ((Nat.max 1 (List.length l) - 1) + 1 * per_page)%nat by lia.
    rewrite Nat.div_add by lia. lia.
  - rewrite page_slice_eq. apply nth_error_In with (n := (i mod per_page)%nat).
    rewrite nth_error_firstn.
    assert (i mod per_page < per_page)%nat as Hm by (apply Nat.mod_upper_bound; lia).
    apply Nat.ltb_lt in Hm. rewrite Hm, nth_error_skipn.
    replace ((S (i / per_page) - 1) * per_page + i mod per_page)%nat with i; trivial.
    pose proof (Nat.div_mod_eq i per_page). lia.
Qed.

End PageFacts.

(** A GET of the post page renders the page of top-level comments that the
    [comment_page] parameter selects, and changes nothing. *)
Lemma blog_detail_render w req pk blog :
  Inv (db w) -> method req = GET -> blog_at (db w) pk = Some blog ->
  exists ctx,
    handle (mkCall route_blog_detail req pk) w = (RenderDetail ctx, w) /\
    ctx_blog ctx = blog /\
    ctx_comments ctx =
      Paginator.page_or_fallback (top_level_comments blog (db w)) 10
        (dict_get "comment_page" (GET_data req)).
Proof.
  intros I Hm Hb.
  unfold handle, respond; simpl.
  unfold blog_detail, get_blog_or_404, render_detail, is_POST.
  rewrite Hm. unfold blog_at in Hb. destruct w as [d fl ob]. simpl in Hb, I.
  run_view.
  destruct (filter _ (rows (blogs d))) as [|b0 [|b1 l]] eqn:Hf; try discriminate.
  injection Hb as ->. run_view.
  destruct (user req) as [u|]; run_view.
  - pose proof (blog_at_id d pk blog) as Hid. unfold blog_at in Hid. rewrite Hf in Hid.
    specialize (Hid eq_refl).
    destruct (ratings_at_most_one d (user_id u) pk I) as [Hr | [r Hr]];
      unfold ratings_of in Hr; unfold rating_of; rewrite Hid, Hr; run_view;
      eexists; repeat split.
  - eexists; repeat split.
Qed.

(** C9. On a reachable site, a GET of a stored post's page lists top-level
    comments only: the full listing is a rearrangement of exactly the stored
    comments of that post that have no parent, ordered newest first.  It is
    shown ten to a page, and [comment_page] chooses the page: page [n] (the
    ten entries after the first [10 (n - 1)]) when it is the writing of a
    page number [n], the first page when it is missing or not a number, the
    last page for any other number.  So every entry shown is a parentless
    comment of the post, the page is itself newest first, and every such
    comment is shown on one of the pages 1..[num_pages]. *)
Theorem C9_top_level_listing w req pk blog :
  reachable w -> method req = GET -> blog_at (db w) pk = Some blog ->
  let listing := top_level_comments blog (db w) in
  let last := Paginator.num_pages listing 10 in
  let page n := firstn 10 (skipn ((n - 1) * 10) listing) in
  let asked := dict_get "comment_page" (GET_data req) in
  Permutation listing (filter (top_level_of pk) (rows (comments (db w)))) /\
  StronglySorted newest_first listing /\
  (exists ctx,
      handle (mkCall route_blog_detail req pk) w = (RenderDetail ctx, w) /\
      (asked = None -> ctx_comments ctx = page 1%nat) /\
      (forall n s,
          (1 <= n <= last)%nat -> PyInt.str_of_int (Z.of_nat n) = Some s ->
          asked = Some s -> ctx_comments ctx = page n) /\
      (forall s z,
          asked = Some s -> Py.int_of_str s = Some z -> z < 1 \/ Z.of_nat last < z ->
          ctx_comments ctx = page last) /\
      (forall s, asked = Some s -> Py.int_of_str s = None -> ctx_comments ctx = page 1%nat) /\
      (exists n, (1 <= n <= last)%nat /\ ctx_comments ctx = page n) /\
      StronglySorted newest_first (ctx_comments ctx) /\
      (forall c, In c (ctx_comments ctx) ->
                 In c (rows (comments (db w))) /\ comment_blog c = pk /\
                 parent_comment c = None)) /\
  (forall c, In c (rows (comments (db w))) -> comment_blog c = pk ->
             parent_comment c = None ->
             exists n, (1 <= n <= last)%nat /\ In c (page n)).
Proof.
  intros Hr Hm Hb listing last page asked. pose proof (reachable_Inv w Hr) as I.
  pose proof (blog_at_id _ _ _ Hb) as Hid.
  assert (Permutation listing (filter (top_level_of pk) (rows (comments (db w))))) as Hperm.
  { subst listing. unfold top_level_comments. rewrite Hid.
    symmetry. apply order_by_newest_perm. }
  assert (StronglySorted newest_first listing) as Hsorted.
  { subst listing. apply order_by_newest_sorted. }
  assert (forall c, In c listing <->
                    In c (rows (comments (db w))) /\ comment_blog c = pk /\
                    parent_comment c = None) as Hmem.
  { intros c.
    assert (In c listing <-> In c (filter (top_level_of pk) (rows (comments (db w))))) as ->
      by (split; apply Permutation_in; [exact Hperm | symmetry; exact Hperm]).
    rewrite filter_In. unfold top_level_of.
    rewrite andb_true_iff, Z.eqb_eq.
    destruct (parent_comment c); intuition (try discriminate; trivial). }
  assert (forall n, Paginator.page_slice listing 10 n = page n) as Hpage
    by (intros n; apply page_slice_eq; lia).
  pose proof (num_pages_pos listing 10 ltac:(lia)) as Hpos. fold last in Hpos.
  split; [exact Hperm | split; [exact Hsorted | split]].
  - destruct (blog_detail_render w req pk blog I Hm Hb) as (ctx & Hh & _ & Hc).
    fold listing asked in Hc.
    destruct (page_or_fallback_slice listing 10 ltac:(lia) asked) as (n & Hn & Hp).
    fold last in Hn. rewrite Hpage in Hp.
    exists ctx. split; [exact Hh|].
    split; [|split; [|split; [|split; [|split; [|split]]]]].
    + intros Ha. now rewrite Hc, page_or_fallback_number, Ha, Hpage.
    + intros k s Hk Hs Ha.
      rewrite Hc, page_or_fallback_number, Ha, Hpage.
      rewrite (PyFacts.int_of_str_of_int (Z.of_nat k) s ltac:(lia) Hs). fold last.
      replace (Z.of_nat k <? 1) with false by (symmetry; apply Z.ltb_ge; lia).
      replace (Z.of_nat last <? Z.of_nat k) with false by (symmetry; apply Z.ltb_ge; lia).
      cbn [orb]. now rewrite Nat2Z.id.
    + intros s z Ha Hz Hout.
      rewrite Hc, page_or_fallback_number, Ha, Hz, Hpage. fold last.
      replace ((z <? 1) || (Z.of_nat last <? z)) with true; [reflexivity|].
      symmetry. apply orb_true_iff. destruct Hout; [left | right]; apply Z.ltb_lt; lia.
    + intros s Ha Hz. now rewrite Hc, page_or_fallback_number, Ha, Hz, Hpage.
    + exists n. split; [exact Hn|]. now rewrite Hc, Hp.
    + rewrite Hc, Hp. now apply StronglySorted_firstn, StronglySorted_skipn.
    + intros c Hin. apply Hmem. rewrite Hc, Hp in Hin. unfold page in Hin.
      rewrite <- (firstn_skipn ((n - 1) * 10) listing). apply in_or_app. right.
      rewrite <- (firstn_skipn 10 (skipn ((n - 1) * 10) listing)). apply in_or_app. now left.
  - intros c Hin Hcb Hpc.
    destruct (every_row_on_a_page listing 10 ltac:(lia) c) as (n & Hn & Hp).
    + apply Hmem. auto.
    + exists n. split; trivial. now rewrite <- Hpage.
Qed.

Lemma C9_witness :
  exists ctx,
    handle (mkCall route_blog_detail (Example2.page_request "2") 1) Example2.site11 =
      (RenderDetail ctx, Example2.site11) /\
    ctx_comments ctx = [mkComment 1 1 8 "Again" 1 None].
Proof.
  destruct (C9_top_level_listing Example2.site11 (Example2.page_request "2") 1 Example.post1
              (ExampleFacts.site0_runs _) eq_refl eq_refl)
    as (_ & _ & (ctx & Hh & _ & Hn & _) & _).
  exists ctx. split; [exact Hh|].
  exact (Hn 2%nat "2" ltac:(vm_compute; split; apply Nat.leb_le; reflexivity) eq_refl eq_refl).
Defined.

(** ** The average rating *)

Module Float64Facts.
Import Float64.
Local Open Scope Q_scope.








End Float64Facts.

Module AverageRating.
Import Float64 Float64Facts.
Local Open Scope Q_scope.

(** [round64] against the kernel's binary64 arithmetic: the quotient 11/3,
    and the number written 3.7, which is the float nearest to 37/10. *)
Module Binary64Check.
Import PrimFloat.

Example float_11_3 :
  exact_of_float (11 / 3)%float = Some (round64 (11 # 3)).
Proof. vm_compute. reflexivity. Qed.

Example float_3_7 :
  exact_of_float (0x1.d99999999999ap+1)%float = Some (round64 (37 # 10)).
Proof. vm_compute. reflexivity. Qed.

Example float_9_4_rounds_to_even :
  exact_of_float (0x1.199999999999ap+1)%float = Some (py_round (round64 (9 # 4)) 1).
Proof. vm_compute. reflexivity. Qed.

End Binary64Check.



End AverageRating.

(** ** Further properties of the views *)

(** X1. The answer of an accepted toggle reports the state it leaves: the
    post's like and dislike counts and the user's reaction, all read after
    the change. *)
Theorem X1_toggle_reports_new_state w req pk u blog v :
  method req = POST -> user req = Some u ->
  blog_at (db w) pk = Some blog -> reaction_sent req = Some v ->
  let call := mkCall route_like_dislike_post req pk in
  let d' := db (step w call) in
  fst (handle call w) =
    JsonResponse 200
      (SuccessPayload (likes_count d' pk) (dislikes_count d' pk)
         (reaction_name (reaction d' (user_id u) pk))).
Proof.
  intros Hm Hu Hb Hr call d'. subst call d'. unfold step.
  now rewrite (like_dislike_post_found w req pk u blog v Hm Hu Hb Hr).
Qed.

Lemma X1_witness :
  fst (handle (toggle "like" Example.bob 1) Example.site0) =
    JsonResponse 200 (SuccessPayload 1 0 (Some "like")).
Proof.
  apply (X1_toggle_reports_new_state Example.site0 (react_request Example.bob "like") 1
           Example.bob Example.post1 (Some (JStr "like"))); reflexivity.
Defined.

(** X2. A rating form whose score is not one of "1".."5" changes no row: the
    page is rendered again. *)
Theorem X2_invalid_score_is_not_stored w req pk u blog :
  reachable w -> method req = POST -> user req = Some u ->
  dict_in "comment_form" (POST_data req) = false ->
  RatingForm_clean (POST_data req) = None ->
  blog_at (db w) pk = Some blog ->
  exists ctx, handle (mkCall route_blog_detail req pk) w = (RenderDetail ctx, w).
Proof.
  intros Hr Hm Hu Hc Hs Hb. pose proof (reachable_Inv w Hr) as I.
  pose proof (blog_at_id _ _ _ Hb) as Hid.
  pose proof (ratings_at_most_one (db w) (user_id u) pk I) as Hone.
  unfold handle, respond; simpl.
  unfold blog_detail, get_blog_or_404, render_detail, is_POST, ratings_of, rating_of in *.
  rewrite Hm, Hu, Hc, Hs. unfold blog_at in Hb. destruct w as [d fl ob]. simpl in Hb, Hone.
  run_view.
  destruct (filter _ (rows (blogs d))) as [|b0 [|b1 l]]; try discriminate.
  injection Hb as ->. run_view. rewrite Hid.
  destruct Hone as [Hone | [r Hone]]; rewrite Hone; run_view;
    destruct (dict_in "rating_form" (POST_data req)); run_view; eexists; reflexivity.
Qed.

Lemma X2_witness :
  exists ctx,
    handle (mkCall route_blog_detail (rating_request Example.bob "6") 1) Example.site0 =
      (RenderDetail ctx, Example.site0).
Proof.
  apply (X2_invalid_score_is_not_stored Example.site0 (rating_request Example.bob "6") 1
           Example.bob Example.post1 (ExampleFacts.site0_runs [])); reflexivity.
Defined.

(** X3. A comment form whose text is blank (no character but white space,
    as [str.strip] understands it: the no-break space and the ideographic
    space count), or which the form refuses for another reason, or which an
    anonymous visitor sends, stores no comment: the error "There was an
    error posting your comment." is flashed and the page is rendered. *)
Theorem X3_rejected_comment_is_not_stored w req pk blog :
  reachable w -> method req = POST ->
  dict_in "comment_form" (POST_data req) = true ->
  dict_in "rating_form" (POST_data req) = false ->
  (exists raw, dict_get "content" (POST_data req) = Some raw /\ Py.is_blank raw) \/
  CommentForm_clean (POST_data req) = None \/ user req = None ->
  blog_at (db w) pk = Some blog ->
  exists ctx,
    handle (mkCall route_blog_detail req pk) w =
      (RenderDetail ctx,
       mkWorld (db w) (flash w ++ [(ERROR, "There was an error posting your comment.")])
               (outbox w)).
Proof.
  intros Hr Hm Hc Hrf Hbad Hb. pose proof (reachable_Inv w Hr) as I.
  pose proof (blog_at_id _ _ _ Hb) as Hid.
  assert (CommentForm_clean (POST_data req) = None \/ user req = None) as Hbad'.
  { destruct Hbad as [(raw & Hraw & Hblank) | [Hbad | Hbad]]; auto.
    left. unfold CommentForm_clean. now rewrite Hraw, (PyFacts.strip_blank raw Hblank). }
  clear Hbad. rename Hbad' into Hbad.
  unfold handle, respond; simpl.
  unfold blog_detail, get_blog_or_404, render_detail, is_POST.
  rewrite Hm, Hc, Hrf. unfold blog_at in Hb. destruct w as [d fl ob]. simpl in Hb, I.
  run_view.
  destruct (filter _ (rows (blogs d))) as [|b0 [|b1 l]]; try discriminate.
  injection Hb as ->. run_view.
  destruct (user req) as [u|] eqn:Hu; run_view.
  - destruct Hbad as [Hbad | Hbad]; [|discriminate]. rewrite Hbad.
    destruct (ratings_at_most_one d (user_id u) pk I) as [Hone | [r Hone]];
      unfold ratings_of in Hone; unfold rating_of; rewrite Hid, Hone; run_view;
      eexists; reflexivity.
  - destruct (CommentForm_clean (POST_data req)); run_view; eexists; reflexivity.
Qed.

(** A comment made of a no-break space, a space and an ideographic space. *)
Lemma X3_witness :
  exists ctx,
    handle (mkCall route_blog_detail
              (comment_request Example.bob
                 (String.append Example.nbsp (String.append " " Example.ideographic_space))
                 None 5) 1)
           Example.site0 =
      (RenderDetail ctx,
       mkWorld (db Example.site0)
               [(ERROR, "There was an error posting your comment.")] []).
Proof.
  apply (X3_rejected_comment_is_not_stored Example.site0
           (comment_request Example.bob
              (String.append Example.nbsp (String.append " " Example.ideographic_space))
              None 5) 1 Example.post1
           (ExampleFacts.site0_runs []) eq_refl eq_refl eq_refl).
  - left. eexists. split; [reflexivity|]. repeat constructor.
  - reflexivity.
Defined.

(** X4. On a reachable site a reply has a larger primary key than the comment
    it replies to, so following [parent_comment] never comes back: no comment
    is its own ancestor. *)
Theorem X4_comment_threads_are_acyclic w :
  reachable w ->
  let cs := rows (comments (db w)) in
  (forall c a, In c cs -> ancestor cs c a -> comment_id a < comment_id c) /\
  (forall c, In c cs -> ~ ancestor cs c c).
Proof.
  intros Hr cs. pose proof (inv_parents _ (reachable_Inv w Hr)) as Hp.
  fold cs in Hp. rewrite Forall_forall in Hp.
  assert (forall c a, In c cs -> ancestor cs c a -> comment_id a < comment_id c) as Hlt.
  { intros c a Hc Ha. induction Ha as [c a Hin Hpar | c x a Hx Hpar Ha IH].
    - now apply (Hp c Hc).
    - specialize (IH Hx). specialize (Hp c Hc _ Hpar). lia. }
  split; trivial.
  intros c Hc Ha. specialize (Hlt c c Hc Ha). lia.
Qed.

Lemma X4_witness :
  ~ ancestor (rows (comments (db Example2.site2)))
      (mkComment 2 2 7 "Thanks" 20 (Some 1)) (mkComment 2 2 7 "Thanks" 20 (Some 1)).
Proof.
  apply (proj2 (X4_comment_threads_are_acyclic Example2.site2 Example2Facts.site2_reachable)
           (mkComment 2 2 7 "Thanks" 20 (Some 1))).
  right. left. reflexivity.
Defined.

(** ** Requests the views refuse *)

(** X5. The toggle answers anything but a POST with 405 and changes nothing.
    A POST of a signed-in user for a stored post whose body is not a JSON
    object is not handled by the view: the exception ([JSONDecodeError] when
    the body is no JSON document, [AttributeError] when it is one without
    [get]) surfaces as a server error, and the world stays as it was. *)
Theorem X5_toggle_malformed_request w req pk :
  (method req <> POST ->
   handle (mkCall route_like_dislike_post req pk) w = (HttpResponseNotAllowed, w)) /\
  (forall u blog,
      method req = POST -> user req = Some u -> blog_at (db w) pk = Some blog ->
      reaction_sent req = None ->
      handle (mkCall route_like_dislike_post req pk) w =
        (HttpResponseServerError
           match body req with None => JSONDecodeError | Some _ => AttributeError end,
         w)).
Proof.
  split.
  - intros Hm. unfold handle, respond; simpl. unfold like_dislike_post, require_POST.
    destruct (method req); try reflexivity. now contradiction Hm.
  - intros u blog Hm Hu Hb Hr. unfold handle, respond; simpl.
    unfold like_dislike_post, require_POST, like_dislike_post_body, get_reaction.
    rewrite Hm, Hu. unfold blog_at in Hb. destruct w as [d fl ob]. simpl in Hb. run_view.
    destruct (filter _ (rows (blogs d))) as [|b0 [|b1 l]]; try discriminate. run_view.
    unfold reaction_sent in Hr.
    destruct (body req) as [[]|]; try discriminate; reflexivity.
Qed.

Lemma X5_witness :
  handle (mkCall route_like_dislike_post
            (mkRequest POST (Some Example.bob) [] [] (Some (JArr [JStr "like"])) 0 true) 1)
         Example.site0 =
    (HttpResponseServerError AttributeError, Example.site0).
Proof.
  apply (proj2 (X5_toggle_malformed_request Example.site0
                  (mkRequest POST (Some Example.bob) [] [] (Some (JArr [JStr "like"])) 0 true) 1)
               Example.bob Example.post1); reflexivity.
Defined.

(** X6. [blog_delete] changes the database only on a POST of the post's
    author or of a staff member.  An anonymous visitor is sent to the login
    page; a signed-in user who is neither is sent to the list with the error
    "You can only edit or delete your own blogs."; a primary key no post has
    gives the error "The blog post you are trying to access does not
    exist."; and a request of a permitted user that is not a POST renders the
    confirmation page.  In each of these cases no row is touched. *)
Theorem X6_blog_delete_is_guarded w req pk :
  let call := mkCall route_blog_delete req pk in
  (user req = None -> handle call w = (HttpResponseRedirect url_login, w)) /\
  (forall u blog,
      user req = Some u -> blog_at (db w) pk = Some blog -> may_manage u blog = false ->
      handle call w =
        (HttpResponseRedirect url_blog_list,
         mkWorld (db w)
           (flash w ++ [(ERROR, "You can only edit or delete your own blogs.")]) (outbox w))) /\
  (forall u,
      user req = Some u -> (forall b, In b (rows (blogs (db w))) -> blog_id b <> pk) ->
      handle call w =
        (HttpResponseRedirect url_blog_list,
         mkWorld (db w)
           (flash w ++ [(ERROR, "The blog post you are trying to access does not exist.")])
           (outbox w))) /\
  (forall u blog,
      user req = Some u -> blog_at (db w) pk = Some blog -> may_manage u blog = true ->
      method req <> POST -> handle call w = (RenderConfirmDelete blog, w)) /\
  (db (step w call) <> db w ->
   method req = POST /\
   exists u blog, user req = Some u /\ blog_at (db w) pk = Some blog /\
                  may_manage u blog = true).
Proof.
  intros call. subst call. unfold step, handle, respond; simpl.
  unfold blog_delete, login_required, author_or_staff_required, blog_delete_body,
    get_blog_or_404, Blog_delete, blog_at, may_manage.
  destruct w as [d fl ob]. simpl db; simpl flash; simpl outbox.
  split; [|split; [|split; [|split]]].
  - intros ->. reflexivity.
  - intros u blog -> Hb Hok. run_view.
    destruct (filter _ (rows (blogs d))) as [|b0 [|b1 l]]; try discriminate.
    injection Hb as ->. run_view.
    apply orb_false_iff in Hok as [-> ->]. reflexivity.
  - intros u -> Hnone. run_view.
    destruct (filter _ (rows (blogs d))) as [|b0 l] eqn:Hf; [reflexivity|].
    assert (In b0 (filter (fun b => blog_id b =? pk) (rows (blogs d)))) as Hin
      by (rewrite Hf; now left).
    apply filter_In in Hin as [Hin Hid]. apply Z.eqb_eq in Hid. now apply Hnone in Hin.
  - intros u blog -> Hb Hok Hm. run_view.
    destruct (filter _ (rows (blogs d))) as [|b0 [|b1 l]] eqn:Hf; try discriminate.
    injection Hb as ->. run_view.
    destruct (blog_author blog =? user_id u), (is_staff u); try discriminate;
      run_view; rewrite Hf; run_view; destruct (method req); try reflexivity;
      now contradiction Hm.
  - destruct (user req) as [u|]; run_view; [|intros H; now contradiction H].
    destruct (filter _ (rows (blogs d))) as [|b0 [|b1 l]] eqn:Hf; run_view;
      try (intros H; now contradiction H).
    destruct (blog_author b0 =? user_id u) eqn:Ea, (is_staff u) eqn:Es; run_view;
      try (intros H; now contradiction H);
      rewrite Hf; run_view; (destruct (method req); run_view;
                             try (intros H; now contradiction H));
      intros _; (split; [reflexivity|]); exists u, b0; rewrite ?Ea, ?Es; auto.
Qed.

Lemma X6_witness :
  handle (mkCall route_blog_delete (mkRequest POST (Some Example.bob) [] [] None 0 true) 1)
         Example.site0 =
    (HttpResponseRedirect url_blog_list,
     mkWorld (db Example.site0)
       [(ERROR, "You can only edit or delete your own blogs.")] []).
Proof.
  apply (proj1 (proj2 (X6_blog_delete_is_guarded Example.site0
                         (mkRequest POST (Some Example.bob) [] [] None 0 true) 1))
               Example.bob Example.post1); reflexivity.
Defined.

(** X7. [toggle_favorite] sends an anonymous visitor to the login page and
    answers 404 for a primary key no post has, changing nothing in either
    case.  It reads nothing of the request but its user and whether mail can
    be sent: the method is not looked at, so a GET toggles the favorite just
    as a POST does. *)
Theorem X7_toggle_favorite_requests w req pk :
  let call := mkCall route_toggle_favorite req pk in
  (user req = None -> handle call w = (HttpResponseRedirect url_login, w)) /\
  (user req <> None -> (forall b, In b (rows (blogs (db w))) -> blog_id b <> pk) ->
   handle call w = (HttpResponseNotFound, w)) /\
  (forall req', user req' = user req -> mail_up req' = mail_up req ->
                handle (mkCall route_toggle_favorite req' pk) w = handle call w).
Proof.
  intros call. subst call. unfold handle, respond; simpl.
  unfold toggle_favorite, login_required, toggle_favorite_body, get_blog_or_404.
  split; [|split].
  - intros ->. reflexivity.
  - intros Hu Hnone. destruct (user req) as [u|]; [|now contradiction Hu].
    destruct w as [d fl ob]. simpl in Hnone. run_view.
    destruct (filter _ (rows (blogs d))) as [|b0 l] eqn:Hf; [reflexivity|].
    assert (In b0 (filter (fun b => blog_id b =? pk) (rows (blogs d)))) as Hin
      by (rewrite Hf; now left).
    apply filter_In in Hin as [Hin Hid]. apply Z.eqb_eq in Hid. now apply Hnone in Hin.
  - intros req' -> ->. reflexivity.
Qed.

Lemma X7_witness :
  handle (mkCall route_toggle_favorite (mkRequest GET (Some Example.bob) [] [] None 0 true) 1)
         Example.site0 =
  handle (mkCall route_toggle_favorite (mkRequest POST (Some Example.bob) [] [] None 0 true) 1)
         Example.site0.
Proof.
  apply (proj2 (proj2 (X7_toggle_favorite_requests Example.site0
                         (mkRequest POST (Some Example.bob) [] [] None 0 true) 1))
               (mkRequest GET (Some Example.bob) [] [] None 0 true)); reflexivity.
Defined.

(** ** The post page: forms that meet *)

(** What [blog_detail] does with a POST that carries both forms when the
    comment form is refused: the error is flashed and the rating form is
    handled after it. *)
Lemma blog_detail_refused_comment_then_rating w req pk u blog s :
  method req = POST -> user req = Some u -> blog_at (db w) pk = Some blog ->
  dict_in "comment_form" (POST_data req) = true ->
  dict_in "rating_form" (POST_data req) = true ->
  CommentForm_clean (POST_data req) = None ->
  RatingForm_clean (POST_data req) = Some s ->
  let fl := flash w ++ [(ERROR, "There was an error posting your comment.");
                        (SUCCESS, "Your rating has been saved!")] in
  handle (mkCall route_blog_detail req pk) w =
    match ratings_of (db w) (user_id u) pk with
    | [] =>
        (HttpResponseRedirect (url_blog_detail pk),
         mkWorld (add_rating (user_id u) pk s (db w)) fl (outbox w))
    | [r] =>
        (HttpResponseRedirect (url_blog_detail pk),
         mkWorld (save_rating r s (db w)) fl (outbox w))
    | _ :: _ :: _ => (HttpResponseServerError MultipleObjectsReturned, w)
    end.
Proof.
  intros Hm Hu Hb Hc Hrf Hbad Hs. pose proof (blog_at_id _ _ _ Hb) as Hid.
  unfold handle, respond; simpl.
  unfold blog_detail, get_blog_or_404, render_detail, Rating_update_or_create, is_POST,
    ratings_of, rating_of, add_rating, save_rating, rescore.
  rewrite Hu, Hm, Hc, Hrf, Hbad, Hs. unfold blog_at in Hb. destruct w as [d fl ob].
  simpl in Hb. run_view.
  destruct (filter _ (rows (blogs d))) as [|b0 [|b1 l]]; try discriminate.
  injection Hb as ->. run_view. rewrite Hid.
  destruct (filter _ (rows (ratings d))) as [|r [|r' l]] eqn:Hf; run_view; rewrite ?Hf;
    run_view; rewrite ?(existsb_filter_nil _ _ Hf); run_view; rewrite <- ?app_assoc;
    reflexivity.
Qed.

(** X8. When one POST carries both the comment form and a valid rating form,
    the comment form decides: an accepted comment is stored and the rating is
    dropped without a word (the Rating table is left as it was); a refused
    comment (a blank one, for instance) flashes its error, and then the
    rating is saved all the same and the answer is the redirect of a saved
    rating. *)
Theorem X8_comment_form_goes_first w req pk u blog s :
  reachable w -> method req = POST -> user req = Some u ->
  blog_at (db w) pk = Some blog ->
  dict_in "comment_form" (POST_data req) = true ->
  dict_in "rating_form" (POST_data req) = true ->
  RatingForm_clean (POST_data req) = Some s ->
  let call := mkCall route_blog_detail req pk in
  let w' := step w call in
  (forall text,
      CommentForm_clean (POST_data req) = Some text ->
      ratings (db w') = ratings (db w) /\
      (dict_get "parent_comment_id" (POST_data req) = None ->
       handle call w = comment_posted w req pk u text None)) /\
  (CommentForm_clean (POST_data req) = None ->
   fst (handle call w) = HttpResponseRedirect (url_blog_detail pk) /\
   (exists r, ratings_of (db w') (user_id u) pk = [r] /\ score r = s) /\
   comments (db w') = comments (db w) /\
   flash w' = flash w ++ [(ERROR, "There was an error posting your comment.");
                          (SUCCESS, "Your rating has been saved!")]).
Proof.
  intros Hr Hm Hu Hb Hc Hrf Hs call w'. subst call w'.
  pose proof (reachable_Inv w Hr) as I. unfold step. split.
  - intros text Ht.
    rewrite (blog_detail_comment w req pk u blog text
               (dict_get "parent_comment_id" (POST_data req)) I
               (conj Hm (conj Hu (conj Hc (conj Ht eq_refl)))) Hb).
    split.
    + destruct (dict_get "parent_comment_id" (POST_data req)) as [raw|]; [|reflexivity].
      destruct (Py.truthy raw); [|reflexivity].
      destruct (Py.int_of_str raw) as [i|]; [|reflexivity].
      destruct (filter _ (rows (comments (db w)))) as [|p [|p' ps]]; reflexivity.
    + intros ->. reflexivity.
  - intros Hbad.
    rewrite (blog_detail_refused_comment_then_rating w req pk u blog s Hm Hu Hb Hc Hrf Hbad Hs).
    destruct (ratings_at_most_one (db w) (user_id u) pk I) as [Hn | [r Hn]]; rewrite Hn; simpl.
    + repeat split. eexists. rewrite ratings_of_add, Hn, !Z.eqb_refl. simpl. split; reflexivity.
    + repeat split. eexists.
      rewrite (ratings_of_save _ r s _ _ _ _ (inv_rating_ids _ I) Hn), !Z.eqb_refl.
      simpl. split; reflexivity.
Qed.

(** A comment that is a single no-break space, sent with four stars: the
    comment is refused and the rating is saved. *)
Lemma X8_witness :
  exists r,
    ratings_of
      (db (step Example.site0
             (mkCall route_blog_detail
                (mkRequest POST (Some Example.bob)
                   [("comment_form", ""); ("content", Example.nbsp); ("rating_form", "");
                    ("score", "4")] [] None 5 true) 1))) 8 1 = [r] /\
    score r = 4.
Proof.
  apply (proj1 (proj2 (proj2 (X8_comment_form_goes_first Example.site0
                         (mkRequest POST (Some Example.bob)
                            [("comment_form", ""); ("content", Example.nbsp);
                             ("rating_form", ""); ("score", "4")] [] None 5 true)
                         1 Example.bob Example.post1 4
                         (ExampleFacts.site0_runs []) eq_refl eq_refl eq_refl eq_refl eq_refl
                         eq_refl) eq_refl))).
Defined.

(** X9. A comment form whose [parent_comment_id] is the empty string is a
    top-level comment like one without the field.  One whose
    [parent_comment_id] is not a text that [int] reads as a number is not
    refused by the view: the [ValueError] of the lookup surfaces as a server
    error; no comment is stored and nothing is flashed. *)
Theorem X9_parent_id_that_is_no_number w req pk u blog text raw :
  reachable w -> posts_comment req u text (Some raw) ->
  blog_at (db w) pk = Some blog ->
  let call := mkCall route_blog_detail req pk in
  (raw = "" -> handle call w = comment_posted w req pk u text None) /\
  (raw <> "" -> Py.int_of_str raw = None ->
   handle call w = (HttpResponseServerError ValueError, w)).
Proof.
  intros Hr Hp Hb call. subst call. pose proof (reachable_Inv w Hr) as I.
  rewrite (blog_detail_comment w req pk u blog text (Some raw) I Hp Hb). split.
  - intros ->. reflexivity.
  - intros Hne Hi. destruct raw; [now contradiction Hne|]. simpl. now rewrite Hi.
Qed.

(** A [parent_comment_id] that is the digit 1 after the separator U+001C,
    which [str.strip] would remove and [int] does not accept. *)
Lemma X9_witness :
  handle (mkCall route_blog_detail
            (comment_request Example.bob "Hello"
               (Some (String.append Example.file_separator "1")) 5) 1) Example2.site1 =
    (HttpResponseServerError ValueError, Example2.site1).
Proof.
  apply (proj2 (X9_parent_id_that_is_no_number Example2.site1
                  (comment_request Example.bob "Hello"
                     (Some (String.append Example.file_separator "1")) 5) 1 Example.bob
                  Example.post1 "Hello" (String.append Example.file_separator "1")
                  (ExampleFacts.site0_runs _)
                  (conj eq_refl (conj eq_refl (conj eq_refl (conj eq_refl eq_refl))))
                  eq_refl)).
  - discriminate.
  - reflexivity.
Defined.

(** ** The post page: what a GET shows *)

(** The whole context a GET of a stored post's page is rendered with. *)
Lemma blog_detail_get w req pk blog :
  Inv (db w) -> method req = GET -> blog_at (db w) pk = Some blog ->
  handle (mkCall route_blog_detail req pk) w =
    (RenderDetail
       (mkDetailContext blog
          match user req with
          | Some u => match favorites_of (db w) (user_id u) pk with [] => false | _ => true end
          | None => false
          end
          match user req with
          | Some u => hd_error (ratings_of (db w) (user_id u) pk)
          | None => None
          end
          (recent_blogs (db w))
          (Paginator.page_or_fallback (top_level_comments blog (db w)) 10
             (dict_get "comment_page" (GET_data req)))
          match user req with Some u => liked (db w) (user_id u) pk | None => false end
          match user req with Some u => disliked (db w) (user_id u) pk | None => false end),
     w).
Proof.
  intros I Hm Hb. pose proof (blog_at_id _ _ _ Hb) as Hid.
  unfold handle, respond; simpl.
  unfold blog_detail, get_blog_or_404, render_detail, is_POST, favorites_of, ratings_of,
    liked, disliked, favorite_of, rating_of, like_of, dislike_of.
  rewrite Hm. unfold blog_at in Hb. destruct w as [d fl ob]. simpl in Hb, I.
  run_view.
  destruct (filter _ (rows (blogs d))) as [|b0 [|b1 l]] eqn:Hf; try discriminate.
  injection Hb as ->. run_view.
  destruct (user req) as [u|]; run_view; [|reflexivity]. rewrite Hid.
  destruct (ratings_at_most_one d (user_id u) pk I) as [Hr | [r Hr]];
    unfold ratings_of in Hr; rewrite Hr; run_view;
    destruct (filter _ (rows (favorites d))) as [|f fs] eqn:Hfav;
    rewrite ?(existsb_filter_nil _ _ Hfav), ?(existsb_filter_cons _ _ _ _ Hfav); reflexivity.
Qed.

(** X10. On a reachable site the flags a GET of the post page is rendered
    with are the stored state of the visitor and the post: favorited exactly
    when the pair has a Favorite, the visitor's own Rating if there is one,
    liked and disliked as the toggle left them, and never both.  An anonymous
    visitor sees none of them set.  For a primary key no post has the page is
    a 404, whatever the request. *)
Theorem X10_post_page_reports_stored_state w req pk :
  reachable w ->
  let call := mkCall route_blog_detail req pk in
  ((forall b, In b (rows (blogs (db w))) -> blog_id b <> pk) ->
   handle call w = (HttpResponseNotFound, w)) /\
  (forall blog,
      method req = GET -> blog_at (db w) pk = Some blog ->
      exists ctx,
        handle call w = (RenderDetail ctx, w) /\ ctx_blog ctx = blog /\
        match user req with
        | None =>
            ctx_is_favorited ctx = false /\ ctx_user_rating ctx = None /\
            ctx_user_liked ctx = false /\ ctx_user_disliked ctx = false
        | Some u =>
            (ctx_is_favorited ctx = true <-> favorites_of (db w) (user_id u) pk <> []) /\
            (forall r, ctx_user_rating ctx = Some r <->
                       ratings_of (db w) (user_id u) pk = [r]) /\
            ctx_user_liked ctx = liked (db w) (user_id u) pk /\
            ctx_user_disliked ctx = disliked (db w) (user_id u) pk /\
            ctx_user_liked ctx && ctx_user_disliked ctx = false
        end).
Proof.
  intros Hr call. subst call. pose proof (reachable_Inv w Hr) as I. split.
  - intros Hnone. unfold handle, respond; simpl. unfold blog_detail, get_blog_or_404.
    destruct w as [d fl ob]. simpl in Hnone. run_view.
    destruct (filter _ (rows (blogs d))) as [|b0 l] eqn:Hf; [reflexivity|].
    assert (In b0 (filter (fun b => blog_id b =? pk) (rows (blogs d)))) as Hin
      by (rewrite Hf; now left).
    apply filter_In in Hin as [Hin Hid]. apply Z.eqb_eq in Hid. now apply Hnone in Hin.
  - intros blog Hm Hb. eexists. split; [apply (blog_detail_get w req pk blog I Hm Hb)|].
    split; [reflexivity|]. destruct (user req) as [u|]; simpl; [|auto].
    split; [|split; [|split; [reflexivity | split; [reflexivity|]]]].
    + destruct (favorites_of (db w) (user_id u) pk); split; congruence.
    + intros r.
      destruct (ratings_at_most_one (db w) (user_id u) pk I) as [-> | [r0 ->]]; simpl;
        split; congruence.
    + pose proof (inv_exclusive _ I (user_id u) pk) as Hex. unfold reaction in Hex.
      destruct (liked (db w) (user_id u) pk), (disliked (db w) (user_id u) pk);
        trivial. now contradiction Hex.
Qed.

Lemma X10_witness :
  exists ctx,
    handle (mkCall route_blog_detail (mkRequest GET (Some Example.bob) [] [] None 0 true) 1)
           (step Example.site0 (toggle "like" Example.bob 1)) =
      (RenderDetail ctx, step Example.site0 (toggle "like" Example.bob 1)) /\
    ctx_user_liked ctx = true /\ ctx_user_disliked ctx = false.
Proof.
  destruct (proj2 (X10_post_page_reports_stored_state
                     (step Example.site0 (toggle "like" Example.bob 1))
                     (mkRequest GET (Some Example.bob) [] [] None 0 true) 1
                     (ExampleFacts.site0_runs [toggle "like" Example.bob 1]))
                  Example.post1 eq_refl eq_refl) as (ctx & Hh & _ & _ & _ & Hl & Hd & _).
  exists ctx. split; [exact Hh|]. split; [exact Hl | exact Hd].
Defined.

Section PageBounds.
Context {A : Type}.
Variable l : list A.
Variable per_page : nat.
Hypothesis per_page_pos : (0 < per_page)%nat.

Lemma page_slice_length n :
  (List.length (Paginator.page_slice l per_page n) <= per_page)%nat.
Proof. rewrite page_slice_eq by assumption. apply firstn_le_length. Qed.

Lemma num_pages_covers : (List.length l <= Paginator.num_pages l per_page * per_page)%nat.
Proof.
  unfold Paginator.num_pages, Paginator.count.
  set (hits := Nat.max 1 (List.length l)).
  pose proof (Nat.div_mod_eq (hits + per_page - 1) per_page) as Hdm.
  pose proof (Nat.mod_upper_bound (hits + per_page - 1) per_page) as Hmod.
  nia.
Qed.

Lemma last_page_starts_inside :
  l <> [] -> ((Paginator.num_pages l per_page - 1) * per_page < List.length l)%nat.
Proof.
  intros Hne. unfold Paginator.num_pages, Paginator.count.
  assert (1 <= List.length l)%nat as Hlen by (destruct l; [congruence | simpl; lia]).
  replace (Nat.max 1 (List.length l)) with (List.length l) by lia.
  pose proof (Nat.Div0.mul_div_le (List.length l + per_page - 1) per_page) as Hle.
  pose proof (num_pages_pos l per_page per_page_pos) as Hpos.
  unfold Paginator.num_pages, Paginator.count in Hpos.
  replace (Nat.max 1 (List.length l)) with (List.length l) in Hpos by lia.
  nia.
Qed.

Lemma page_slice_nonempty n :
  l <> [] -> (1 <= n <= Paginator.num_pages l per_page)%nat ->
  Paginator.page_slice l per_page n <> [].
Proof.
  intros Hne Hn Hnil. pose proof (last_page_starts_inside Hne) as Hlast.
  apply (f_equal (@List.length A)) in Hnil.
  rewrite page_slice_eq, length_firstn, length_skipn in Hnil by assumption.
  simpl in Hnil. nia.
Qed.

Lemma last_page_is_the_rest :
  Paginator.page_slice l per_page (Paginator.num_pages l per_page) =
    skipn ((Paginator.num_pages l per_page - 1) * per_page) l.
Proof.
  rewrite page_slice_eq by assumption. apply firstn_all2. rewrite length_skipn.
  pose proof num_pages_covers. pose proof (num_pages_pos l per_page per_page_pos). nia.
Qed.

End PageBounds.

(** X11. The page of comments a GET shows, for every value of [comment_page]:
    without the parameter, or with one that [int] does not read as a number,
    the first ten of the listing; with a page number between 1 and the number
    of pages, in whatever writing [int] accepts, that page; with any other
    integer (zero, negative, or past the end), the last page, which is what
    is left after the full pages before it.  The page never holds more than ten comments, and it holds at least
    one as soon as the post has a top-level comment. *)
Theorem X11_comment_page_fallbacks w req pk blog :
  reachable w -> method req = GET -> blog_at (db w) pk = Some blog ->
  let listing := top_level_comments blog (db w) in
  let last := Paginator.num_pages listing 10 in
  exists ctx,
    handle (mkCall route_blog_detail req pk) w = (RenderDetail ctx, w) /\
    (List.length (ctx_comments ctx) <= 10)%nat /\
    (listing <> [] -> ctx_comments ctx <> []) /\
    ctx_comments ctx =
      match dict_get "comment_page" (GET_data req) with
      | None => firstn 10 listing
      | Some s =>
          match Py.int_of_str s with
          | None => firstn 10 listing
          | Some n =>
              if (1 <=? n) && (n <=? Z.of_nat last)
              then firstn 10 (skipn (Z.to_nat (n - 1) * 10) listing)
              else skipn ((last - 1) * 10) listing
          end
      end.
Proof.
  intros Hr Hm Hb listing last. pose proof (reachable_Inv w Hr) as I.
  eexists. split; [apply (blog_detail_get w req pk blog I Hm Hb)|]. simpl ctx_comments.
  fold listing.
  destruct (page_or_fallback_slice listing 10 ltac:(lia)
              (dict_get "comment_page" (GET_data req))) as (n & Hn & Hp).
  split; [|split].
  - rewrite Hp. apply page_slice_length. lia.
  - intros Hne. rewrite Hp. apply page_slice_nonempty; trivial. lia.
  - unfold Paginator.page_or_fallback, Paginator.page, Paginator.validate_number.
    destruct (dict_get "comment_page" (GET_data req)) as [s|];
      [|now rewrite page_slice_eq by lia].
    destruct (Py.int_of_str s) as [z|]; [|now rewrite page_slice_eq by lia].
    fold last.
    destruct (Z.ltb_spec z 1) as [Hlo|Hlo].
    + replace (1 <=? z) with false by (symmetry; apply Z.leb_gt; lia). cbn [andb].
      apply last_page_is_the_rest. lia.
    + replace (1 <=? z) with true by (symmetry; apply Z.leb_le; lia). cbn [andb].
      destruct (Z.ltb_spec (Z.of_nat last) z) as [Hhi|Hhi].
      * replace (z <=? Z.of_nat last) with false by (symmetry; apply Z.leb_gt; lia).
        apply last_page_is_the_rest. lia.
      * replace (z <=? Z.of_nat last) with true by (symmetry; apply Z.leb_le; lia).
        rewrite page_slice_eq by lia. do 2 f_equal. lia.
Qed.

(** On the page of post 1 with its eleven comments: a [comment_page] written
    with the Bengali digit two shows the second page, and the digit 2 after
    the separator U+001C, which is no number for [int], shows the first. *)
Lemma X11_witness :
  (exists ctx,
     handle (mkCall route_blog_detail (Example2.page_request Example.bengali_two) 1)
            Example2.site11 = (RenderDetail ctx, Example2.site11) /\
     ctx_comments ctx = [mkComment 1 1 8 "Again" 1 None]) /\
  (exists ctx,
     handle (mkCall route_blog_detail
               (Example2.page_request (String.append Example.file_separator "2")) 1)
            Example2.site11 = (RenderDetail ctx, Example2.site11) /\
     ctx_comments ctx = firstn 10 (top_level_comments Example.post1 (db Example2.site11))).
Proof.
  split.
  - destruct (X11_comment_page_fallbacks Example2.site11
                (Example2.page_request Example.bengali_two) 1 Example.post1
                (ExampleFacts.site0_runs _) eq_refl eq_refl) as (ctx & Hh & _ & _ & Hc).
    exists ctx. split; [exact Hh|]. rewrite Hc. vm_compute. reflexivity.
  - destruct (X11_comment_page_fallbacks Example2.site11
                (Example2.page_request (String.append Example.file_separator "2")) 1
                Example.post1
                (ExampleFacts.site0_runs _) eq_refl eq_refl) as (ctx & Hh & _ & _ & Hc).
    exists ctx. split; [exact Hh|]. rewrite Hc. vm_compute. reflexivity.
Defined.

(** ** Publishing and unpublishing *)

Lemma filter_singleton_only {A} (p : A -> bool) (l : list A) x r :
  filter p l = [x] -> In r l -> p r = true -> r = x.
Proof.
  intros Hf Hin Hp. assert (In r (filter p l)) as H by (apply filter_In; auto).
  rewrite Hf in H. destruct H as [->|[]]. reflexivity.
Qed.

(** Saving the loaded instance with a new flag is setting the flag on the
    row of that primary key. *)
Lemma save_published flag now pk blog (l : list Blog) :
  filter (fun b => blog_id b =? pk) l = [blog] ->
  map (fun r' => if blog_id r' =? blog_id (with_published flag now blog)
                 then with_published flag now blog else r') l =
  map (fun b => if blog_id b =? pk then with_published flag now b else b) l.
Proof.
  intros Hf. pose proof (filter_singleton_in _ _ _ Hf) as [_ Hid]. apply Z.eqb_eq in Hid.
  apply map_ext_in. intros r Hr. cbn [blog_id with_published]. rewrite Hid.
  destruct (blog_id r =? pk) eqn:E; trivial.
  now rewrite (filter_singleton_only _ _ _ _ Hf Hr E).
Qed.

Lemma publish_post_found w req pk u blog :
  method req = POST -> user req = Some u -> blog_at (db w) pk = Some blog ->
  may_manage u blog = true ->
  serve (mkHit on_publish_post req pk) w =
    (HttpResponseRedirect (url_blog_detail pk),
     mkWorld (set_published true (received_at req) pk (db w))
             (flash w ++ [(SUCCESS, "Blog published successfully!")]) (outbox w)).
Proof.
  intros Hm Hu Hb Hok. pose proof (blog_at_id _ _ _ Hb) as Hid.
  unfold serve, respond; simpl.
  unfold publish_post, login_required, author_or_staff_required, publish_post_body,
    get_blog_or_404, set_published.
  rewrite Hu, Hm. unfold blog_at in Hb. destruct w as [d fl ob]. simpl in Hb. run_view.
  destruct (filter _ (rows (blogs d))) as [|b0 [|b1 l]] eqn:Hf; try discriminate.
  injection Hb as ->. run_view. rewrite ?Hu. unfold may_manage in Hok.
  destruct (blog_author blog =? user_id u), (is_staff u); try discriminate;
    run_view; rewrite ?Hf; run_view;
    rewrite (save_published true _ pk blog _ Hf), Hid; reflexivity.
Qed.

Lemma unpublish_post_found w req pk u blog :
  method req = POST -> user req = Some u -> blog_at (db w) pk = Some blog ->
  may_manage u blog = true ->
  serve (mkHit on_unpublish_post req pk) w =
    (HttpResponseRedirect (url_blog_detail pk),
     mkWorld (set_published false (received_at req) pk (db w))
             (flash w ++ [(SUCCESS, "Blog unpublished successfully!")]) (outbox w)).
Proof.
  intros Hm Hu Hb Hok. pose proof (blog_at_id _ _ _ Hb) as Hid.
  unfold serve, respond; simpl.
  unfold unpublish_post, login_required, author_or_staff_required, unpublish_post_body,
    get_blog_or_404, set_published.
  rewrite Hu, Hm. unfold blog_at in Hb. destruct w as [d fl ob]. simpl in Hb. run_view.
  destruct (filter _ (rows (blogs d))) as [|b0 [|b1 l]] eqn:Hf; try discriminate.
  injection Hb as ->. run_view. rewrite ?Hu. unfold may_manage in Hok.
  destruct (blog_author blog =? user_id u), (is_staff u); try discriminate;
    run_view; rewrite ?Hf; run_view;
    rewrite (save_published false _ pk blog _ Hf), Hid; reflexivity.
Qed.

Lemma filter_id_set_published flag now pk pk' (l : list Blog) :
  filter (fun b => blog_id b =? pk')
         (map (fun b => if blog_id b =? pk then with_published flag now b else b) l) =
  map (fun b => if blog_id b =? pk then with_published flag now b else b)
      (filter (fun b => blog_id b =? pk') l).
Proof.
  apply filter_map_preserving. intros x _. now destruct (blog_id x =? pk).
Qed.

Lemma blog_at_set_published flag now pk pk' d :
  blog_at (set_published flag now pk d) pk' =
    option_map (fun b => if blog_id b =? pk then with_published flag now b else b)
               (blog_at d pk').
Proof.
  unfold blog_at, set_published. simpl. rewrite filter_id_set_published.
  now destruct (filter _ (rows (blogs d))) as [|b0 [|b1 l]].
Qed.

Lemma set_published_twice flag flag' now now' pk d :
  set_published flag now pk (set_published flag' now' pk d) = set_published flag now pk d.
Proof.
  unfold set_published, set_blogs. simpl. do 2 f_equal. rewrite map_map.
  apply map_ext. intros b. destruct (blog_id b =? pk) eqn:E; simpl; rewrite E; reflexivity.
Qed.

Lemma may_manage_with_published u flag now blog :
  may_manage u (with_published flag now blog) = may_manage u blog.
Proof. reflexivity. Qed.

(** X12. A POST of the author or of a staff member to [publish_post]
    ([unpublish_post]) sets (clears) the [published] flag of that post,
    stamps the row with the time of the request ([updated_at] is [auto_now])
    and answers with the redirect to the post page.  Title, author and
    creation time of the post, every other post and all likes, dislikes,
    favorites, ratings and comments stay as they were.  So publishing a post
    that is already published still rewrites its row: [updated_at] moves.
    Of two such requests in a row only the second counts, whatever the first
    was. *)
Theorem X12_publishing_sets_the_flag w req pk u blog :
  method req = POST -> user req = Some u -> blog_at (db w) pk = Some blog ->
  may_manage u blog = true ->
  let publish := mkHit on_publish_post req pk in
  let unpublish := mkHit on_unpublish_post req pk in
  let saved flag :=
    mkBlog (blog_id blog) (blog_title blog) (blog_author blog) (blog_created_at blog)
           (received_at req) flag in
  (blog_at (db (advance w publish)) pk = Some (saved true) /\
   blog_at (db (advance w unpublish)) pk = Some (saved false)) /\
  (forall h, h = publish \/ h = unpublish ->
     fst (serve h w) = HttpResponseRedirect (url_blog_detail pk) /\
     (forall pk', pk' <> pk -> blog_at (db (advance w h)) pk' = blog_at (db w) pk') /\
     likes (db (advance w h)) = likes (db w) /\
     dislikes (db (advance w h)) = dislikes (db w) /\
     favorites (db (advance w h)) = favorites (db w) /\
     ratings (db (advance w h)) = ratings (db w) /\
     comments (db (advance w h)) = comments (db w)) /\
  (forall req2 u2 h1 h2,
     method req2 = POST -> user req2 = Some u2 -> may_manage u2 blog = true ->
     h1 = publish \/ h1 = unpublish ->
     h2 = mkHit on_publish_post req2 pk \/ h2 = mkHit on_unpublish_post req2 pk ->
     db (browse [h1; h2] w) = db (browse [h2] w)).
Proof.
  intros Hm Hu Hb Hok publish unpublish saved. subst publish unpublish saved.
  pose proof (blog_at_id _ _ _ Hb) as Hid.
  assert (forall flag now, blog_at (set_published flag now pk (db w)) pk =
                           Some (with_published flag now blog)) as Hat.
  { intros flag now. rewrite blog_at_set_published, Hb. simpl. now rewrite Hid, Z.eqb_refl. }
  assert (forall flag now pk', pk' <> pk ->
            blog_at (set_published flag now pk (db w)) pk' = blog_at (db w) pk') as Hother.
  { intros flag now pk' Hne. rewrite blog_at_set_published.
    destruct (blog_at (db w) pk') as [b'|] eqn:Hb'; trivial. simpl.
    rewrite (blog_at_id _ _ _ Hb'). now apply Z.eqb_neq in Hne as ->. }
  split; [|split].
  - unfold advance.
    rewrite (publish_post_found w req pk u blog Hm Hu Hb Hok),
      (unpublish_post_found w req pk u blog Hm Hu Hb Hok). simpl snd. simpl db.
    split; apply Hat.
  - intros h [-> | ->]; unfold advance;
      [rewrite (publish_post_found w req pk u blog Hm Hu Hb Hok)
      |rewrite (unpublish_post_found w req pk u blog Hm Hu Hb Hok)];
      simpl; (split; [reflexivity|]); (split; [apply Hother|]); repeat split.
  - intros req2 u2 h1 h2 Hm2 Hu2 Hok2 H1 H2. unfold browse, advance. simpl fold_left.
    destruct H1 as [-> | ->];
      [rewrite (publish_post_found w req pk u blog Hm Hu Hb Hok)
      |rewrite (unpublish_post_found w req pk u blog Hm Hu Hb Hok)]; simpl snd;
      (destruct H2 as [-> | ->];
       [rewrite (publish_post_found (mkWorld _ _ _) req2 pk u2 _ Hm2 Hu2 (Hat _ _) Hok2),
          (publish_post_found w req2 pk u2 blog Hm2 Hu2 Hb Hok2)
       |rewrite (unpublish_post_found (mkWorld _ _ _) req2 pk u2 _ Hm2 Hu2 (Hat _ _) Hok2),
          (unpublish_post_found w req2 pk u2 blog Hm2 Hu2 Hb Hok2)]);
      simpl snd; simpl db; apply set_published_twice.
Qed.

(** alice publishes her post 1, which is published already, at time 9: the
    row is rewritten with the new time. *)
Lemma X12_witness :
  blog_at (db (advance Example.site0
                 (mkHit on_publish_post
                    (mkRequest POST (Some Example.alice) [] [] None 9 true) 1))) 1 =
    Some (mkBlog 1 "First post" 7 1 9 true).
Proof.
  apply (proj1 (proj1 (X12_publishing_sets_the_flag Example.site0
                         (mkRequest POST (Some Example.alice) [] [] None 9 true) 1
                         Example.alice Example.post1 eq_refl eq_refl eq_refl eq_refl))).
Defined.

(** X13. [publish_post] and [unpublish_post] change the database only on a
    POST of the post's author or of a staff member: an anonymous visitor is
    sent to the login page, any other signed-in user to the list with the
    error "You can only edit or delete your own blogs.", and a request of a
    permitted user that is not a POST is redirected to the post page with the
    flag untouched. *)
Theorem X13_publishing_is_guarded w req pk e :
  e = on_publish_post \/ e = on_unpublish_post ->
  let h := mkHit e req pk in
  (user req = None -> serve h w = (HttpResponseRedirect url_login, w)) /\
  (forall u blog,
      user req = Some u -> blog_at (db w) pk = Some blog -> may_manage u blog = false ->
      serve h w =
        (HttpResponseRedirect url_blog_list,
         mkWorld (db w)
           (flash w ++ [(ERROR, "You can only edit or delete your own blogs.")]) (outbox w))) /\
  (forall u blog,
      user req = Some u -> blog_at (db w) pk = Some blog -> may_manage u blog = true ->
      method req <> POST -> serve h w = (HttpResponseRedirect (url_blog_detail pk), w)) /\
  (db (advance w h) <> db w ->
   method req = POST /\
   exists u blog, user req = Some u /\ blog_at (db w) pk = Some blog /\
                  may_manage u blog = true).
Proof.
  intros He h. subst h. unfold advance, serve, respond.
  destruct w as [d fl ob]. simpl db; simpl flash; simpl outbox.
  destruct He as [-> | ->]; simpl;
    unfold publish_post, unpublish_post, login_required, author_or_staff_required,
      publish_post_body, unpublish_post_body, get_blog_or_404, blog_at, may_manage.
  all: split; [|split; [|split]].
  all: try (intros ->; reflexivity).
  all: try (intros u blog -> Hb Hok; run_view;
            destruct (filter _ (rows (blogs d))) as [|b0 [|b1 l]]; try discriminate;
            injection Hb as ->; run_view;
            apply orb_false_iff in Hok as [-> ->]; reflexivity).
  all: try (intros u blog -> Hb Hok Hm; run_view;
            destruct (filter _ (rows (blogs d))) as [|b0 [|b1 l]] eqn:Hf; try discriminate;
            pose proof (filter_singleton_in _ _ _ Hf) as [_ Hid]; apply Z.eqb_eq in Hid;
            injection Hb as ->; run_view;
            destruct (blog_author blog =? user_id u), (is_staff u); try discriminate;
            run_view; rewrite Hf; run_view; rewrite Hid;
            destruct (method req); try reflexivity; now contradiction Hm).
  all: destruct (user req) as [u|]; run_view; [|intros H; now contradiction H];
    destruct (filter _ (rows (blogs d))) as [|b0 [|b1 l]] eqn:Hf; run_view;
    try (intros H; now contradiction H);
    destruct (blog_author b0 =? user_id u) eqn:Ea, (is_staff u) eqn:Es; run_view;
    try (intros H; now contradiction H);
    rewrite Hf; run_view; (destruct (method req); run_view;
                           try (intros H; now contradiction H));
    intros _; (split; [reflexivity|]); exists u, b0; rewrite ?Ea, ?Es; auto.
Qed.

Lemma X13_witness :
  serve (mkHit on_unpublish_post (mkRequest POST (Some Example.bob) [] [] None 0 true) 1)
        Example.site0 =
    (HttpResponseRedirect url_blog_list,
     mkWorld (db Example.site0)
       [(ERROR, "You can only edit or delete your own blogs.")] []).
Proof.
  apply (proj1 (proj2 (X13_publishing_is_guarded Example.site0
                         (mkRequest POST (Some Example.bob) [] [] None 0 true) 1
                         on_unpublish_post (or_intror eq_refl)))
               Example.bob Example.post1); reflexivity.
Defined.

(** ** The six routes together *)

Lemma set_published_Inv flag now pk d : Inv d -> Inv (set_published flag now pk d).
Proof.
  intros [H1 H2 H3 H4 H5 H6 H7 H8 H9 H10 H11 H12 H13 H14].
  constructor; trivial. simpl. rewrite map_map.
  erewrite map_ext; [exact H1|]. intros b. now destruct (blog_id b =? pk).
Qed.

Lemma publishing_effect w req pk e :
  e = on_publish_post \/ e = on_unpublish_post ->
  db (advance w (mkHit e req pk)) = db w \/
  exists flag now, db (advance w (mkHit e req pk)) = set_published flag now pk (db w).
Proof.
  intros He. unfold advance, serve, respond. destruct w as [d fl ob]. simpl db.
  destruct He as [-> | ->]; simpl;
    unfold publish_post, unpublish_post, login_required, author_or_staff_required,
      publish_post_body, unpublish_post_body, get_blog_or_404.
  all: destruct (user req) as [u|]; run_view; auto;
    destruct (filter _ (rows (blogs d))) as [|b0 [|b1 l]] eqn:Hf; run_view; auto;
    destruct (negb (blog_author b0 =? user_id u) && negb (is_staff u)); run_view; auto;
    rewrite Hf; run_view; destruct (method req); run_view; auto;
    pose proof (filter_singleton_in _ _ _ Hf) as [_ Hid]; apply Z.eqb_eq in Hid;
    right; do 2 eexists; unfold set_published;
    rewrite <- (save_published _ _ pk b0 _ Hf); reflexivity.
Qed.

Lemma advance_cases w h :
  mutation (db w) (db (advance w h)) \/
  exists flag now pk, db (advance w h) = set_published flag now pk (db w).
Proof.
  destruct h as [[r| |] req pk].
  - left. apply (step_mutation w (mkCall r req pk)).
  - destruct (publishing_effect w req pk on_publish_post) as [-> | (flag & now & ->)]; eauto.
    left. apply mut_none.
  - destruct (publishing_effect w req pk on_unpublish_post) as [-> | (flag & now & ->)]; eauto.
    left. apply mut_none.
Qed.

Lemma advance_Inv w h : Inv (db w) -> Inv (db (advance w h)).
Proof.
  intros I. destruct (advance_cases w h) as [Hmut | (flag & now & pk & ->)].
  - now apply (mutation_Inv (db w)).
  - now apply set_published_Inv.
Qed.

Lemma browse_Inv hits : forall w, Inv (db w) -> Inv (db (browse hits w)).
Proof.
  induction hits as [|h hits IH]; intros w I; simpl; trivial.
  apply IH. now apply advance_Inv.
Qed.

Lemma live_Inv w : live w -> Inv (db w).
Proof. intros (w0 & hits & H0 & ->). apply browse_Inv. now apply fresh_site_Inv. Qed.

Lemma browse_of_calls calls : forall w, browse (map of_call calls) w = run calls w.
Proof. induction calls as [|c calls IH]; intros w; simpl; [reflexivity | apply IH]. Qed.

Lemma reachable_live w : reachable w -> live w.
Proof.
  intros (w0 & calls & H0 & ->). exists w0, (map of_call calls). split; trivial.
  symmetry. apply browse_of_calls.
Qed.

Lemma live_advance w h : live w -> live (advance w h).
Proof.
  intros (w0 & hits & H0 & ->). exists w0, (hits ++ [h]). split; trivial.
  unfold browse. now rewrite fold_left_app.
Qed.

(** X14. What the four engagement routes keep true they keep true together
    with the two publishing routes: on every site reached from a fresh one
    through any of the six, posts have distinct primary keys, no (user, post)
    pair is both liked and disliked, a pair has at most one Rating and at
    most one Favorite, and every stored score is in 1..5. *)
Theorem X14_invariants_survive_publishing :
  (forall w, reachable w -> live w) /\
  (forall w h, live w -> live (advance w h)) /\
  (forall w, live w ->
     NoDup (map blog_id (rows (blogs (db w)))) /\
     (forall u b, reaction (db w) u b <> both) /\
     (forall u b, (List.length (ratings_of (db w) u b) <= 1)%nat) /\
     (forall u b, (List.length (favorites_of (db w) u b) <= 1)%nat) /\
     Forall (fun r => valid_score (score r)) (rows (ratings (db w)))).
Proof.
  split; [exact reachable_live | split; [exact live_advance|]].
  intros w Hl. pose proof (live_Inv w Hl) as I.
  split; [apply (inv_blogs _ I)|]. split; [apply (inv_exclusive _ I)|].
  split; [|split; [|apply (inv_scores _ I)]].
  - intros u b. destruct (ratings_at_most_one (db w) u b I) as [-> | [r ->]]; simpl; lia.
  - intros u b. destruct (favorites_at_most_one (db w) u b I) as [-> | [f ->]]; simpl; lia.
Qed.

Lemma X14_witness :
  reaction
    (db (browse [of_call (toggle "like" Example.bob 1);
                 mkHit on_unpublish_post
                   (mkRequest POST (Some Example.alice) [] [] None 0 true) 1;
                 of_call (toggle "dislike" Example.bob 1)] Example.site0)) 8 1 <> both.
Proof.
  apply (proj1 (proj2 (proj2 (proj2 X14_invariants_survive_publishing) _
           (ex_intro _ Example.site0 (ex_intro _ _ (conj ExampleFacts.site0_fresh eq_refl)))))).
Defined.

(** ** Engagement and publication are independent *)

Lemma blog_id_after_flag flag now pk b :
  blog_id (if blog_id b =? pk then with_published flag now b else b) = blog_id b.
Proof. now destruct (blog_id b =? pk). Qed.















(** ** Threads of replies *)

Lemma comments_react_db u b v d : comments (react_db u b v d) = comments d.
Proof.
  unfold react_db. repeat match goal with |- context [if ?c then _ else _] => destruct c end;
    reflexivity.
Qed.

Lemma mutation_parents d d' : mutation d d' -> parents_stored d -> parents_stored d'.
Proof.
  unfold parents_stored.
  intros Hmut Hp. destruct Hmut; try exact Hp; try (simpl; exact Hp).
  - rewrite comments_react_db. exact Hp.
  - simpl. intros c p Hc Hpar. apply in_app_or in Hc as [Hc | [<- | []]].
    + destruct (Hp c p Hc Hpar) as (x & Hx & Hid). exists x. split; trivial.
      apply in_or_app. now left.
    + simpl in Hpar. specialize (H p Hpar). apply existsb_exists in H as (x & Hx & Hid).
      apply Z.eqb_eq in Hid. exists x. split; trivial. apply in_or_app. now left.
  - intros c p Hc Hpar. apply cascade_delete_survivors in Hc as [Hc Hnd].
    destruct (Hp c p Hc Hpar) as (x & Hx & Hid). exists x. split; trivial.
    apply cascade_delete_survivors. split; trivial.
    intros Hd. apply Hnd. apply descends_reply with x; trivial. now rewrite Hid.
Qed.

Lemma advance_parents w h : parents_stored (db w) -> parents_stored (db (advance w h)).
Proof.
  intros Hp. destruct (advance_cases w h) as [Hmut | (flag & now & pk & ->)].
  - now apply (mutation_parents (db w)).
  - exact Hp.
Qed.

Lemma live_parents w : live w -> parents_stored (db w).
Proof.
  intros (w0 & hits & H0 & ->). revert w0 H0.
  induction hits as [|h hits IH]; intros w0 H0; simpl.
  - destruct H0 as (_ & _ & _ & _ & _ & Hc). unfold parents_stored. rewrite Hc.
    intros c p [].
  - assert (forall w, parents_stored (db w) -> parents_stored (db (browse hits w))) as Hall.
    { clear. induction hits as [|h' hits IH]; intros w Hp; simpl; trivial.
      apply IH. now apply advance_parents. }
    apply Hall, advance_parents.
    destruct H0 as (_ & _ & _ & _ & _ & Hc). unfold parents_stored. rewrite Hc.
    intros c p [].
Qed.

Lemma In_get_replies x d c :
  In c (get_replies x d) <->
  In c (rows (comments d)) /\ parent_comment c = Some (comment_id x).
Proof.
  unfold get_replies.
  assert (In c (order_by_newest (filter (is_reply_of x) (rows (comments d)))) <->
          In c (filter (is_reply_of x) (rows (comments d)))) as ->.
  { split; apply Permutation_in;
      [symmetry; apply order_by_newest_perm | apply order_by_newest_perm]. }
  rewrite filter_In. unfold is_reply_of.
  destruct (parent_comment c) as [p|]; [|intuition discriminate].
  rewrite Z.eqb_eq. intuition congruence.
Qed.

(** X16. [get_replies] lists, newest first, exactly the stored comments whose
    parent is the comment asked about.  On every site reached through the six
    routes a reply is never left without its parent: each stored reply is in
    [get_replies] of exactly one stored comment, and a comment without a
    parent is in none. *)
Theorem X16_every_reply_has_its_thread w :
  live w ->
  let d := db w in
  (forall x c, In c (get_replies x d) <->
               In c (rows (comments d)) /\ parent_comment c = Some (comment_id x)) /\
  (forall x, StronglySorted newest_first (get_replies x d)) /\
  (forall c p, In c (rows (comments d)) -> parent_comment c = Some p ->
     exists x, In x (rows (comments d)) /\ comment_id x = p /\ In c (get_replies x d) /\
               forall y, In y (rows (comments d)) -> In c (get_replies y d) -> y = x) /\
  (forall c, parent_comment c = None -> forall x, ~ In c (get_replies x d)).
Proof.
  intros Hl d. pose proof (live_Inv w Hl) as I. pose proof (live_parents w Hl) as Hp.
  split; [intros x c; apply In_get_replies|].
  split; [intros x; apply order_by_newest_sorted|]. split.
  - intros c p Hc Hpar. destruct (Hp c p Hc Hpar) as (x & Hx & Hid).
    exists x. split; [exact Hx | split; [exact Hid | split]].
    + apply In_get_replies. split; trivial. now rewrite Hid.
    + intros y Hy Hin. apply In_get_replies in Hin as [_ Hpar'].
      rewrite Hpar in Hpar'. injection Hpar' as Hpy.
      apply (NoDup_map_injective_in comment_id (rows (comments (db w)))); trivial.
      * apply (inv_comment_ids _ I).
      * congruence.
  - intros c Hnone x Hin. apply In_get_replies in Hin as [_ Hpar]. congruence.
Qed.

Lemma X16_witness :
  In (mkComment 2 2 7 "Thanks" 20 (Some 1)) (get_replies Example2.comment1 (db Example2.site2)).
Proof.
  apply (proj1 (X16_every_reply_has_its_thread Example2.site2
                  (reachable_live _ Example2Facts.site2_reachable))).
  split; [right; left|]; reflexivity.
Defined.

(** ** The admin's columns *)

Section Previews.
Import Py PyFacts.

(** What the two preview columns have in common, for the text [s] and what
    is shown for it. *)
Lemma preview_facts (s : string) :
  let shown := if (50 <? len s)%nat then String.append (slice_to 50 s) "..." else s in
  ((len s <= 50)%nat -> shown = s) /\
  ((50 < len s)%nat -> len shown = 53%nat) /\
  (len shown <= 53)%nat /\
  slice_to 50 shown = slice_to 50 s /\
  (if (50 <? len shown)%nat
   then String.append (slice_to 50 shown) "..." else shown) = shown.
Proof.
  intros shown. subst shown.
  destruct (Nat.ltb_spec 50 (len s)) as [Hlong|Hshort].
  - assert (List.length (firstn 50 (chars s)) = 50%nat) as Hfirst
      by (rewrite length_firstn; unfold len in Hlong; lia).
    assert (chars (String.append (slice_to 50 s) "...") =
            firstn 50 (chars s) ++ ["."; "."; "."]) as Hchars.
    { unfold slice_to. rewrite chars_join_app; [reflexivity | apply well_cut_firstn |].
      reflexivity. }
    assert (len (String.append (slice_to 50 s) "...") = 53%nat) as Hlen.
    { unfold len. rewrite Hchars, length_app, Hfirst. reflexivity. }
    assert (slice_to 50 (String.append (slice_to 50 s) "...") = slice_to 50 s) as Hslice.
    { unfold slice_to at 1. rewrite Hchars, firstn_app, Hfirst, Nat.sub_diag.
      rewrite firstn_firstn. simpl firstn at 2. now rewrite app_nil_r. }
    split; [|split; [|split; [|split]]].
    + lia.
    + intros _. exact Hlen.
    + lia.
    + exact Hslice.
    + rewrite Hlen. simpl Nat.ltb. cbv iota. now rewrite Hslice.
  - split; [|split; [|split; [|split]]]; try reflexivity; try lia.
    replace (50 <? len s)%nat with false by (symmetry; apply Nat.ltb_ge; lia).
    reflexivity.
Qed.

End Previews.

(** X17. The preview columns of the admin ([content_preview] of a comment,
    [message_preview] of a contact message) count characters, not bytes: a
    text of at most 50 characters is shown as it is, whatever its script,
    and a longer one as 53 characters, its first 50 followed by three dots,
    so a text of 51 or 52 characters is shown longer than it is.  The first
    50 characters shown are always those of the text, and the preview of a
    preview is the preview. *)
Theorem X17_admin_previews :
  (forall obj : Comment,
      let text := content obj in
      let shown := Admin.content_preview obj in
      ((Py.len text <= 50)%nat -> shown = text) /\
      ((50 < Py.len text)%nat -> Py.len shown = 53%nat) /\
      (Py.len shown <= 53)%nat /\
      Py.slice_to 50 shown = Py.slice_to 50 text /\
      Admin.content_preview
        (mkComment (comment_id obj) (comment_blog obj) (comment_user obj) shown
                   (created_at obj) (parent_comment obj)) = shown) /\
  (forall obj : ContactMessage,
      let text := contact_message obj in
      let shown := Admin.message_preview obj in
      ((Py.len text <= 50)%nat -> shown = text) /\
      ((50 < Py.len text)%nat -> Py.len shown = 53%nat) /\
      (Py.len shown <= 53)%nat /\
      Py.slice_to 50 shown = Py.slice_to 50 text /\
      Admin.message_preview
        (mkContactMessage (contact_id obj) (contact_name obj) (contact_email obj) shown
                          (submitted_at obj)) = shown).
Proof.
  split; intros obj; apply preview_facts.
Qed.

(** A comment of forty Bengali letters, 120 bytes in UTF-8, is shown
    whole. *)
Lemma X17_witness :
  Admin.content_preview (mkComment 1 1 8 (Example.times 40 Example.bengali_a) 10 None) =
    Example.times 40 Example.bengali_a.
Proof.
  apply (proj1 (proj1 X17_admin_previews
                  (mkComment 1 1 8 (Example.times 40 Example.bengali_a) 10 None))).
  apply Nat.leb_le. vm_compute. reflexivity.
Defined.

Module AdminRating.
Import Float64 Float64Facts Admin PyInt.
Local Open Scope Q_scope.




End AdminRating.



(** ** The contact form *)

(** X19. [contact] stores the message before it sends the mail, and no failure
    takes the row back.  A valid POST appends exactly one row, with the
    name, email and message as the form cleaned them (stripped of the white
    space [str.strip] removes; a name may have up to 100 characters,
    whatever their script) and the next primary key; when the mail
    goes out the visitor is redirected to the success page, and when it does
    not the form is shown again with "There was an error sending your
    message. Please try again later." although the row is stored, so that a
    visitor who does try again leaves the message twice.  An invalid POST
    stores nothing and flashes "Please correct the errors below."; any other
    method changes nothing.  No request removes or alters a stored row. *)
Theorem X19_contact_stores_before_it_mails EmailValidator CONTACT_EMAIL request k :
  let contact := contact EmailValidator CONTACT_EMAIL in
  let out := contact request k in
  let k' := snd out in
  (exists new, rows (inbox k') = rows (inbox k) ++ new /\ (List.length new <= 1)%nat) /\
  (method request <> POST -> out = (RenderContact false, k)) /\
  (method request = POST ->
   ContactForm_clean EmailValidator (POST_data request) = None ->
   out = (RenderContact true, desk_message ERROR "Please correct the errors below." k)) /\
  (forall name email message,
      method request = POST ->
      ContactForm_clean EmailValidator (POST_data request) = Some (name, email, message) ->
      let row := mkContactMessage (seq (inbox k)) name email message (received_at request) in
      inbox k' = mkTable (rows (inbox k) ++ [row]) (seq (inbox k) + 1) /\
      (mail_up request = true ->
       fst out = RedirectContactSuccess /\
       desk_outbox k' =
         desk_outbox k ++ [(contact_subject row, contact_body row, CONTACT_EMAIL)] /\
       desk_flash k' =
         desk_flash k ++
         [(SUCCESS, "Your message was sent successfully! We will get back to you shortly.")]) /\
      (mail_up request = false ->
       fst out = RenderContact true /\ desk_outbox k' = desk_outbox k /\
       desk_flash k' =
         desk_flash k ++
         [(ERROR, "There was an error sending your message. Please try again later.")] /\
       forall retry,
         method retry = POST -> POST_data retry = POST_data request ->
         rows (inbox (snd (contact retry k'))) =
           rows (inbox k) ++
           [row; mkContactMessage (seq (inbox k) + 1) name email message (received_at retry)])).
Proof.
  intros contact0 out k'. subst contact0 out k'. unfold contact.
  split; [|split; [|split]].
  - destruct (method request); try (exists []; rewrite app_nil_r; simpl; split; [reflexivity|lia]).
    destruct (ContactForm_clean EmailValidator (POST_data request)) as [[[name email] message]|];
      [|exists []; rewrite app_nil_r; simpl; split; [reflexivity|lia]].
    simpl. destruct (mail_up request); simpl; eexists; split; try reflexivity; simpl; lia.
  - intros Hm. destruct (method request); try reflexivity. now contradiction Hm.
  - intros -> ->. reflexivity.
  - intros name email message Hm Hc. rewrite Hm, Hc. simpl.
    split; [destruct (mail_up request); reflexivity|]. split.
    + intros ->. simpl. repeat split.
    + intros ->. simpl. repeat split.
      intros retry -> ->. rewrite Hc. simpl.
      destruct (mail_up retry); simpl; rewrite <- app_assoc; reflexivity.
Qed.

(** A name of forty Bengali letters (120 bytes) between two no-break
    spaces: the form accepts it and stores it stripped, while the mail
    fails. *)
Lemma X19_witness :
  rows (inbox (snd (contact (fun _ => true) "desk@example.org"
                      (mkRequest POST None
                         [("name",
                           String.append Example.nbsp
                             (String.append (Example.times 40 Example.bengali_a)
                                            Example.nbsp));
                          ("email", "ann@example.org"); ("message", "Hi")]
                         [] None 3 false)
                      (mkDesk empty_table [] [])))) =
    [mkContactMessage 1 (Example.times 40 Example.bengali_a) "ann@example.org" "Hi" 3].
Proof.
  apply (f_equal rows
           (proj1 (proj2 (proj2 (proj2
              (X19_contact_stores_before_it_mails (fun _ => true) "desk@example.org"
                 (mkRequest POST None
                    [("name",
                      String.append Example.nbsp
                        (String.append (Example.times 40 Example.bengali_a) Example.nbsp));
                     ("email", "ann@example.org"); ("message", "Hi")]
                    [] None 3 false)
                 (mkDesk empty_table [] []))))
              (Example.times 40 Example.bengali_a) "ann@example.org" "Hi" eq_refl eq_refl))).
Defined.

(** ** Verifying an email address *)

Module VerifyFacts.
Import Accounts.

(** The outcome of [verify_email] for a token that one profile carries, the
    profile of a stored user. *)
Lemma verify_email_found token g p a :
  filter (has_token token) (profiles g) = [p] ->
  filter (fun a' => account_id a' =? profile_user p) (accounts g) = [a] ->
  NoDup (map profile_id (profiles g)) ->
  verify_email token g =
    (RedirectLogin,
     mkRegistry
       (map (fun a' => if account_id a' =? profile_user p then activated a' else a')
            (accounts g))
       (map (fun p' => if has_token token p' then verified p' else p') (profiles g))
       (registry_flash g ++ [(SUCCESS, "Email verified! You can now log in.")])).
Proof.
  intros Hp Ha Hnd. unfold verify_email. fold (has_token token). rewrite Hp. cbn [profile_user].
  rewrite Ha. unfold registry_message, save_profile, save_account. simpl. f_equal. f_equal.
  - apply map_ext_in. intros a' Hin.
    pose proof (filter_singleton_in _ _ _ Ha) as [_ Hid]. apply Z.eqb_eq in Hid.
    rewrite <- Hid. destruct (account_id a' =? account_id a) eqn:E; trivial.
    rewrite <- Hid in Ha. now rewrite (filter_singleton_only _ _ _ _ Ha Hin E).
  - apply map_ext_in. intros p' Hin.
    pose proof (filter_singleton_in _ _ _ Hp) as [Hpin Htok].
    destruct (has_token token p') eqn:E.
    + rewrite (filter_singleton_only _ _ _ _ Hp Hin E), Z.eqb_refl. reflexivity.
    + destruct (Z.eqb_spec (profile_id p') (profile_id p)) as [Heq|]; trivial.
      rewrite (NoDup_map_injective_in profile_id _ p' p Hnd Hin Hpin Heq) in E. congruence.
Qed.

End VerifyFacts.

(** X20. [verify_email] with a token no profile carries flashes "Invalid
    verification token." and changes neither table.  With the token of
    exactly one profile it marks that profile verified and its user active,
    leaves every other row as it was, and redirects to the login page.  The
    token is not used up: the same link is accepted again, and it activates
    the user again whatever [is_active] and [email_verified] were before.  A
    token that two profiles carry is an uncaught
    [MultipleObjectsReturned]. *)
Theorem X20_verify_email_keeps_the_token token g :
  let out := Accounts.verify_email token g in
  let g' := snd out in
  ((forall p, In p (Accounts.profiles g) -> Accounts.verification_token p <> token) ->
   out = (Accounts.RedirectLogin,
          Accounts.registry_message ERROR "Invalid verification token." g)) /\
  (forall p q rest,
      filter (Accounts.has_token token) (Accounts.profiles g) = p :: q :: rest ->
      out = (Accounts.VerifyServerError MultipleObjectsReturned, g)) /\
  (forall p a,
      filter (Accounts.has_token token) (Accounts.profiles g) = [p] ->
      filter (fun a' => Accounts.account_id a' =? Accounts.profile_user p)
             (Accounts.accounts g) = [a] ->
      NoDup (map Accounts.profile_id (Accounts.profiles g)) ->
      fst out = Accounts.RedirectLogin /\
      Accounts.registry_flash g' =
        Accounts.registry_flash g ++ [(SUCCESS, "Email verified! You can now log in.")] /\
      Accounts.accounts g' =
        map (fun a' => if Accounts.account_id a' =? Accounts.profile_user p
                       then Accounts.activated a' else a') (Accounts.accounts g) /\
      Accounts.profiles g' =
        map (fun p' => if Accounts.has_token token p'
                       then Accounts.verified p' else p') (Accounts.profiles g) /\
      In (Accounts.activated a) (Accounts.accounts g') /\
      In (Accounts.verified p) (Accounts.profiles g') /\
      fst (Accounts.verify_email token g') = Accounts.RedirectLogin /\
      Accounts.accounts (snd (Accounts.verify_email token g')) = Accounts.accounts g' /\
      Accounts.profiles (snd (Accounts.verify_email token g')) = Accounts.profiles g').
Proof.
  intros out g'. subst out g'. split; [|split].
  - intros Hnone. unfold Accounts.verify_email.
    destruct (filter _ (Accounts.profiles g)) as [|p l] eqn:Hf; [reflexivity|].
    assert (In p (filter (fun p => String.eqb (Accounts.verification_token p) token)
                         (Accounts.profiles g))) as Hin by (rewrite Hf; now left).
    apply filter_In in Hin as [Hin Htok]. apply String.eqb_eq in Htok.
    now apply Hnone in Hin.
  - intros p q rest Hf. unfold Accounts.verify_email.
    fold (Accounts.has_token token). now rewrite Hf.
  - intros p a Hp Ha Hnd.
    rewrite (VerifyFacts.verify_email_found token g p a Hp Ha Hnd). simpl.
    set (act := fun a' => if Accounts.account_id a' =? Accounts.profile_user p
                          then Accounts.activated a' else a').
    set (ver := fun p' => if Accounts.has_token token p'
                          then Accounts.verified p' else p').
    pose proof (filter_singleton_in _ _ _ Hp) as [Hpin Htok].
    pose proof (filter_singleton_in _ _ _ Ha) as [Hain Hid].
    assert (map ver (Accounts.profiles g) = map ver (map ver (Accounts.profiles g))) as Hvv.
    { rewrite map_map. apply map_ext. intros p'. unfold ver.
      destruct (Accounts.has_token token p') eqn:E; [|now rewrite E].
      unfold Accounts.has_token in *. simpl. now rewrite E. }
    assert (map act (Accounts.accounts g) = map act (map act (Accounts.accounts g))) as Haa.
    { rewrite map_map. apply map_ext. intros a'. unfold act.
      destruct (Accounts.account_id a' =? Accounts.profile_user p) eqn:E; [|now rewrite E].
      simpl. now rewrite E. }
    assert (In (Accounts.activated a) (map act (Accounts.accounts g))) as Hact.
    { apply in_map_iff. exists a. split; trivial. unfold act. now rewrite Hid. }
    assert (In (Accounts.verified p) (map ver (Accounts.profiles g))) as Hver.
    { apply in_map_iff. exists p. split; trivial. unfold ver. now rewrite Htok. }
    repeat (split; [first [reflexivity | assumption]|]).
    assert (filter (Accounts.has_token token) (map ver (Accounts.profiles g)) =
            [Accounts.verified p]) as Hp'.
    { rewrite filter_map_preserving, Hp; [simpl; unfold ver; now rewrite Htok|].
      intros x _. unfold ver. destruct (Accounts.has_token token x) eqn:E; trivial. }
    assert (filter (fun a' => Accounts.account_id a' =?
                              Accounts.profile_user (Accounts.verified p))
                   (map act (Accounts.accounts g)) = [Accounts.activated a]) as Ha'.
    { simpl Accounts.profile_user. rewrite filter_map_preserving, Ha;
        [simpl; unfold act; now rewrite Hid|].
      intros x _. unfold act.
      destruct (Accounts.account_id x =? Accounts.profile_user p) eqn:E; trivial. }
    assert (NoDup (map Accounts.profile_id (map ver (Accounts.profiles g)))) as Hnd'.
    { rewrite map_map. erewrite map_ext; [exact Hnd|]. intros p'. unfold ver.
      now destruct (Accounts.has_token token p'). }
    rewrite (VerifyFacts.verify_email_found token (Accounts.mkRegistry _ _ _)
               (Accounts.verified p) (Accounts.activated a) Hp' Ha' Hnd').
    simpl. fold act ver. rewrite <- Hvv, <- Haa. repeat split.
Qed.

Lemma X20_witness :
  Accounts.accounts
    (snd (Accounts.verify_email "3f2b"
            (Accounts.mkRegistry
               [Accounts.mkAccount 7 "alice" "alice@example.org" false]
               [Accounts.mkProfile 1 7 "reader" false "3f2b"] []))) =
    [Accounts.mkAccount 7 "alice" "alice@example.org" true].
Proof.
  destruct (proj2 (proj2 (X20_verify_email_keeps_the_token "3f2b"
                            (Accounts.mkRegistry
                               [Accounts.mkAccount 7 "alice" "alice@example.org" false]
                               [Accounts.mkProfile 1 7 "reader" false "3f2b"] [])))
                  (Accounts.mkProfile 1 7 "reader" false "3f2b")
                  (Accounts.mkAccount 7 "alice" "alice@example.org" false)
                  eq_refl eq_refl
                  (NoDup_cons 1%Z (fun H : In 1%Z [] => H) (NoDup_nil Z)))
    as (_ & _ & Hacc & _).
  exact Hacc.
Defined.

(** ** What each route can write *)

Lemma CommentForm_clean_clean post text :
  CommentForm_clean post = Some text -> clean_text text.
Proof.
  unfold CommentForm_clean, clean_text. destruct (dict_get "content" post) as [raw|]; [|discriminate].
  destruct (Py.truthy (Py.strip raw)) eqn:Et; [|discriminate].
  destruct (Py.contains_nul (Py.strip raw)) eqn:En; [discriminate|].
  simpl. intros [= <-]. split; [|split; [exact En | apply PyFacts.strip_idem]].
  intros Hempty. rewrite Hempty in Et. discriminate.
Qed.

Lemma blog_at_of_filter d pk b0 :
  filter (fun b => blog_id b =? pk) (rows (blogs d)) = [b0] ->
  blog_at d (blog_id b0) = Some b0.
Proof.
  intros Hf. pose proof (filter_singleton_in _ _ _ Hf) as [_ Hid]. apply Z.eqb_eq in Hid.
  unfold blog_at. now rewrite Hid, Hf.
Qed.

Lemma like_dislike_post_change w req pk :
  change (on_engagement route_like_dislike_post) (db w)
         (db (step w (mkCall route_like_dislike_post req pk))).
Proof.
  unfold step.
  destruct (method req) eqn:Hm, (user req) as [u|] eqn:Hu,
    (blog_at (db w) pk) as [blog|] eqn:Hb, (reaction_sent req) as [v|] eqn:Hr;
    try (rewrite (like_dislike_post_found w req pk u blog v) by assumption;
         simpl; now apply change_react with blog);
    unfold handle, respond; simpl;
    unfold like_dislike_post, require_POST, like_dislike_post_body;
    rewrite ?Hm, ?Hu; destruct w as [d fl ob]; run_view; try apply change_none;
    unfold blog_at in Hb; simpl in Hb;
    destruct (filter _ (rows (blogs d))) as [|b0 [|b1 l]]; try discriminate; run_view;
    try apply change_none;
    unfold reaction_sent in Hr;
    destruct (body req) as [[]|]; try discriminate; run_view; apply change_none.
Qed.

Lemma toggle_favorite_change w req pk :
  change (on_engagement route_toggle_favorite) (db w)
         (db (step w (mkCall route_toggle_favorite req pk))).
Proof.
  unfold step.
  destruct (user req) as [u|] eqn:Hu, (blog_at (db w) pk) as [blog|] eqn:Hb;
    try (rewrite (toggle_favorite_found w req pk u blog) by assumption;
         destruct (favorites_of (db w) (user_id u) pk) as [|f [|f' l]] eqn:Hf; simpl;
         eauto using change);
    unfold handle, respond; simpl;
    unfold toggle_favorite, login_required, toggle_favorite_body, get_blog_or_404;
    rewrite ?Hu; destruct w as [d fl ob]; run_view; try apply change_none;
    unfold blog_at in Hb; simpl in Hb;
    destruct (filter _ (rows (blogs d))) as [|b0 [|b1 l]]; try discriminate; run_view;
    apply change_none.
Qed.

Lemma blog_delete_change w req pk :
  change (on_engagement route_blog_delete) (db w)
         (db (step w (mkCall route_blog_delete req pk))).
Proof.
  unfold step, handle, respond; simpl.
  unfold blog_delete, login_required, author_or_staff_required, blog_delete_body,
    get_blog_or_404, Blog_delete.
  destruct w as [d fl ob].
  destruct (user req) as [u|] eqn:Hu; run_view; try apply change_none.
  destruct (filter _ (rows (blogs d))) as [|b0 [|b1 l]] eqn:Hf; run_view; try apply change_none.
  rewrite ?Hu.
  destruct (negb (blog_author b0 =? user_id u) && negb (is_staff u)); run_view;
    try apply change_none.
  rewrite Hf; run_view.
  destruct (method req); run_view; try apply change_none.
  apply change_blog_delete with b0. now apply blog_at_of_filter with pk.
Qed.

Ltac finish_change d b0 Hat :=
  first
    [ apply change_none
    | apply (change_comment_add d _ _ _ _ None b0 Hat);
      [eapply CommentForm_clean_clean; eassumption | discriminate]
    | match goal with
      | H : filter _ (rows (comments d)) = [?c] |- _ =>
          apply (change_comment_add d _ _ _ _ (Some (comment_id c)) b0 Hat);
          [ eapply CommentForm_clean_clean; eassumption
          | intros ? [= <-]; apply existsb_exists; exists c;
            apply filter_singleton_in in H; split; [tauto | apply Z.eqb_refl] ]
      end
    | match goal with
      | H : filter (rating_of ?u ?b) (rows (ratings d)) = [],
        V : RatingForm_clean _ = Some _ |- _ =>
          apply (change_rating_add d (user_id u) (blog_id b) _ b0 Hat H
                   (RatingForm_clean_valid _ _ V))
      end
    | match goal with
      | H : filter (rating_of ?u ?b) (rows (ratings d)) = [_],
        V : RatingForm_clean _ = Some _ |- _ =>
          apply (change_rating_save d (user_id u) (blog_id b) _ _ H
                   (RatingForm_clean_valid _ _ V))
      end ].

Lemma blog_detail_change w req pk :
  change (on_engagement route_blog_detail) (db w)
         (db (step w (mkCall route_blog_detail req pk))).
Proof.
  unfold step, handle, respond; simpl.
  unfold blog_detail, get_blog_or_404, render_detail, Rating_update_or_create.
  destruct w as [d fl ob]. run_view.
  destruct (filter _ (rows (blogs d))) as [|b0 [|b1 l]] eqn:Hf; run_view;
    try apply change_none.
  pose proof (blog_at_of_filter d pk b0 Hf) as Hat.
  destruct (user req) as [u|] eqn:Hu; run_view.
  - destruct (filter (rating_of u b0) (rows (ratings d))) as [|r0 [|r1 l]] eqn:Hr; run_view;
      try apply change_none.
    all: repeat (case_scrutinee; run_view; try apply change_none).
    all: finish_change d b0 Hat.
  - repeat (case_scrutinee; run_view; try apply change_none).
Qed.

Lemma publishing_change w req pk e :
  e = on_publish_post \/ e = on_unpublish_post ->
  change e (db w) (db (advance w (mkHit e req pk))).
Proof.
  intros He. unfold advance, serve, respond. destruct w as [d fl ob]. simpl db.
  destruct He as [-> | ->]; simpl;
    unfold publish_post, unpublish_post, login_required, author_or_staff_required,
      publish_post_body, unpublish_post_body, get_blog_or_404.
  all: destruct (user req) as [u|]; run_view; try apply change_none;
    destruct (filter _ (rows (blogs d))) as [|b0 [|b1 l]] eqn:Hf; run_view;
    try apply change_none;
    destruct (negb (blog_author b0 =? user_id u) && negb (is_staff u)); run_view;
    try apply change_none;
    rewrite Hf; run_view; destruct (method req); run_view; try apply change_none;
    pose proof (blog_at_of_filter d pk b0 Hf) as Hat;
    pose proof (filter_singleton_in _ _ _ Hf) as [_ Hid]; apply Z.eqb_eq in Hid;
    rewrite (save_published _ _ pk b0 _ Hf); rewrite <- Hid.
  - now apply (change_publish d (blog_id b0) _ b0).
  - now apply (change_unpublish d (blog_id b0) _ b0).
Qed.

(** Every request changes the database in one of the ways of [change]. *)
Lemma advance_change w h : change (endpoint h) (db w) (db (advance w h)).
Proof.
  destruct h as [[[]| |] req pk]; simpl endpoint.
  - apply blog_detail_change.
  - apply toggle_favorite_change.
  - apply like_dislike_post_change.
  - apply blog_delete_change.
  - apply publishing_change. now left.
  - apply publishing_change. now right.
Qed.

(** ** Invariants of the six routes *)

Lemma live_induction (P : DB -> Prop) :
  (forall w, fresh_site w -> P (db w)) ->
  (forall e d d', Inv d -> P d -> change e d d' -> P d') ->
  forall w, live w -> P (db w).
Proof.
  intros Hfresh Hstep w (w0 & hits & H0 & ->).
  assert (forall w, Inv (db w) -> P (db w) -> P (db (browse hits w))) as Hall.
  { induction hits as [|h hits IH]; intros w I Hp; simpl; trivial.
    apply IH; [now apply advance_Inv|].
    apply (Hstep (endpoint h) (db w)); trivial. apply advance_change. }
  apply Hall; [now apply fresh_site_Inv | now apply Hfresh].
Qed.

Lemma stored_of_blog_at d b blog : blog_at d b = Some blog -> stored d b.
Proof.
  intros Hb. pose proof (blog_at_id _ _ _ Hb) as Hid. unfold blog_at in Hb.
  destruct (filter _ (rows (blogs d))) as [|b0 [|b1 l]] eqn:Hf; try discriminate.
  injection Hb as ->. exists blog. split; trivial. now apply (filter_singleton_in _ _ _ Hf).
Qed.

Lemma Forall_stored_weaken {A} (blog_of : A -> Z) d d' (l : list A) :
  (forall b, stored d b -> stored d' b) ->
  Forall (fun r => stored d (blog_of r)) l -> Forall (fun r => stored d' (blog_of r)) l.
Proof. intros Hsub. apply Forall_impl. intros r. apply Hsub. Qed.

Lemma Forall_stored_after_delete {A} (blog_of : A -> Z) d b (l : list A) :
  Forall (fun r => stored d (blog_of r)) l ->
  Forall (fun r => stored (cascade_delete b d) (blog_of r))
         (filter (fun r => negb (blog_of r =? b)) l).
Proof.
  intros Hall. rewrite Forall_forall in *. intros r Hr. apply filter_In in Hr as [Hr Hne].
  apply negb_true_iff, Z.eqb_neq in Hne.
  destruct (Hall r Hr) as (blog & Hin & Hid). exists blog. split; trivial.
  unfold cascade_delete. simpl. apply filter_In. split; trivial.
  apply negb_true_iff, Z.eqb_neq. congruence.
Qed.

Lemma stored_set_published flag now pk d b : stored d b -> stored (set_published flag now pk d) b.
Proof.
  intros (blog & Hin & Hid). unfold stored, set_published. simpl.
  exists (if blog_id blog =? pk then with_published flag now blog else blog). split.
  - apply in_map_iff. now exists blog.
  - now rewrite blog_id_after_flag.
Qed.

Ltac keep_orphan_free d Hst :=
  apply (Forall_stored_weaken _ d); [intros ? Hx; exact Hx|]; simpl;
  first [ assumption
        | apply Forall_filter; assumption
        | apply Forall_snoc; [assumption | exact Hst] ].

Lemma change_no_orphans e d d' : change e d d' -> no_orphans d -> no_orphans d'.
Proof.
  intros Hc (Hl & Hd & Hf & Hr & Hcm). unfold no_orphans.
  destruct Hc as [e d | d u b v blog Hb | d u b blog Hb Hnone | d u b f Hone
                 | d u b s blog Hb Hnone Hs | d u b r s Hone Hs
                 | d b u text now parent blog Hb Hclean Hpar | d b blog Hb
                 | d b blog Hb | d b blog Hb].
  - auto.
  - pose proof (stored_of_blog_at _ _ _ Hb) as Hst. unfold react_db.
    repeat match goal with |- context [if ?c then _ else _] => destruct c end;
      unfold add_like, drop_likes, add_dislike, drop_dislikes;
      repeat split; keep_orphan_free d Hst.
  - pose proof (stored_of_blog_at _ _ _ Hb) as Hst. unfold add_favorite.
    repeat split; keep_orphan_free d Hst.
  - unfold del_favorite. repeat split; keep_orphan_free d Hf.
  - pose proof (stored_of_blog_at _ _ _ Hb) as Hst. unfold add_rating.
    repeat split; keep_orphan_free d Hst.
  - unfold save_rating. repeat split; try keep_orphan_free d Hr.
    apply (Forall_stored_weaken _ d); [intros ? Hx; exact Hx|]; simpl.
    rewrite Forall_forall in *. intros r' Hin. apply in_map_iff in Hin as (r0 & <- & Hin).
    destruct (rating_id r0 =? rating_id r); [|now apply Hr].
    simpl. apply Hr. now apply (filter_singleton_in _ _ _ Hone).
  - pose proof (stored_of_blog_at _ _ _ Hb) as Hst. unfold add_comment.
    repeat split; keep_orphan_free d Hst.
  - repeat split;
      try (unfold cascade_delete at 2; simpl; now apply Forall_stored_after_delete).
    rewrite Forall_forall. intros c Hin. unfold cascade_delete in Hin. simpl in Hin.
    apply collect_replies_incl in Hin.
    pose proof (Forall_stored_after_delete comment_blog d b _ Hcm) as Hfd.
    rewrite Forall_forall in Hfd. now apply Hfd.
  - repeat split; eapply Forall_stored_weaken; try eassumption;
      intros b0; apply stored_set_published.
  - repeat split; eapply Forall_stored_weaken; try eassumption;
      intros b0; apply stored_set_published.
Qed.

Lemma fresh_no_orphans w : fresh_site w -> no_orphans (db w).
Proof.
  intros (_ & Hl & Hd & Hf & Hr & Hc). unfold no_orphans.
  rewrite Hl, Hd, Hf, Hr, Hc. repeat split; constructor.
Qed.

Lemma change_clean_comments e d d' :
  change e d d' ->
  Forall (fun c => clean_text (content c)) (rows (comments d)) ->
  Forall (fun c => clean_text (content c)) (rows (comments d')).
Proof.
  intros Hc Hall.
  destruct Hc; try exact Hall.
  - now rewrite comments_react_db.
  - unfold add_comment. simpl. apply Forall_snoc; assumption.
  - rewrite Forall_forall in *. intros c Hin.
    apply cascade_delete_survivors in Hin as [Hin _]. now apply Hall.
Qed.

(** X23. On every site reached through the six routes the content of each
    stored comment is what [CommentForm] accepts: not empty, without a NUL,
    and with no white space left to strip at either end: [str.strip] leaves
    it as it is, and neither its first nor its last character is white
    space, in ASCII or outside it. *)
Theorem X23_stored_comments_are_clean w :
  live w ->
  Forall (fun c => content c <> EmptyString /\ Py.contains_nul (content c) = false /\
                   Py.strip (content c) = content c /\
                   (forall ch, hd_error (Py.chars (content c)) = Some ch ->
                               Py.is_space ch = false) /\
                   (forall ch, hd_error (rev (Py.chars (content c))) = Some ch ->
                               Py.is_space ch = false))
         (rows (comments (db w))).
Proof.
  intros Hl.
  assert (Forall (fun c => clean_text (content c)) (rows (comments (db w)))) as Hall.
  { revert w Hl.
    apply (live_induction
             (fun d => Forall (fun c => clean_text (content c)) (rows (comments d)))).
    - intros w0 (_ & _ & _ & _ & _ & ->). constructor.
    - intros e d d' _ Hall Hc. now apply (change_clean_comments e d). }
  apply (Forall_impl _ (P := fun c => clean_text (content c))); [|exact Hall].
  intros c (Hne & Hnul & Hstrip). repeat split; trivial; now apply PyFacts.strip_ends.
Qed.

(** bob's comment arrives between two no-break spaces and is stored without
    them. *)
Lemma X23_witness :
  rows (comments
          (db (run [mkCall route_blog_detail
                      (comment_request Example.bob
                         (String.append Example.nbsp (String.append "hi" Example.nbsp))
                         None 10) 1]
                   Example.site0))) = [mkComment 1 1 8 "hi" 10 None] /\
  Forall (fun c => content c <> EmptyString /\ Py.contains_nul (content c) = false /\
                   Py.strip (content c) = content c /\
                   (forall ch, hd_error (Py.chars (content c)) = Some ch ->
                               Py.is_space ch = false) /\
                   (forall ch, hd_error (rev (Py.chars (content c))) = Some ch ->
                               Py.is_space ch = false))
         (rows (comments
                  (db (run [mkCall route_blog_detail
                              (comment_request Example.bob
                                 (String.append Example.nbsp (String.append "hi" Example.nbsp))
                                 None 10) 1]
                           Example.site0)))).
Proof.
  split; [reflexivity|].
  apply (X23_stored_comments_are_clean _ (reachable_live _ (ExampleFacts.site0_runs _))).
Defined.

(** X24. On every site reached through the six routes there is no orphan:
    each Like, Dislike, Favorite, Rating and Comment belongs to a post that
    is stored.  The views create such rows for stored posts only, and
    deleting a post takes all of its rows with it. *)
Theorem X24_no_orphan_rows w :
  live w ->
  let post_stored b := exists blog, In blog (rows (blogs (db w))) /\ blog_id blog = b in
  (forall r, In r (rows (likes (db w))) -> post_stored (like_blog r)) /\
  (forall r, In r (rows (dislikes (db w))) -> post_stored (dislike_blog r)) /\
  (forall r, In r (rows (favorites (db w))) -> post_stored (favorite_blog r)) /\
  (forall r, In r (rows (ratings (db w))) -> post_stored (rating_blog r)) /\
  (forall c, In c (rows (comments (db w))) -> post_stored (comment_blog c)).
Proof.
  intros Hl post_stored. subst post_stored.
  assert (no_orphans (db w)) as (H1 & H2 & H3 & H4 & H5).
  { revert w Hl. apply (live_induction no_orphans).
    - apply fresh_no_orphans.
    - intros e d d' _ Hn Hc. now apply (change_no_orphans e d). }
  rewrite Forall_forall in H1, H2, H3, H4, H5. repeat split; assumption.
Qed.

Lemma X24_witness :
  Forall (fun c => exists blog, In blog (rows (blogs (db Example2.site2))) /\
                                blog_id blog = comment_blog c)
         (rows (comments (db Example2.site2))).
Proof.
  apply Forall_forall.
  apply (proj2 (proj2 (proj2 (proj2
           (X24_no_orphan_rows Example2.site2
              (reachable_live _ Example2Facts.site2_reachable)))))).
Defined.

(** ** What only a deletion takes away *)

Lemma ratings_react_db u b v d : ratings (react_db u b v d) = ratings d.
Proof.
  unfold react_db. repeat match goal with |- context [if ?c then _ else _] => destruct c end;
    reflexivity.
Qed.

Lemma blogs_react_db u b v d : blogs (react_db u b v d) = blogs d.
Proof.
  unfold react_db. repeat match goal with |- context [if ?c then _ else _] => destruct c end;
    reflexivity.
Qed.

Lemma change_keeps e d d' :
  change e d d' -> e <> on_engagement route_blog_delete -> Inv d ->
  (exists new, rows (comments d') = rows (comments d) ++ new /\ (List.length new <= 1)%nat) /\
  (forall u b, ratings_of d u b <> [] -> ratings_of d' u b <> []) /\
  map blog_id (rows (blogs d')) = map blog_id (rows (blogs d)).
Proof.
  intros Hc Hne I.
  assert (forall l : list Comment, exists new, l = l ++ new /\ (List.length new <= 1)%nat)
    as Hsame by (intros l; exists []; rewrite app_nil_r; simpl; split; [reflexivity | lia]).
  assert (forall flag now b,
            map blog_id (rows (blogs (set_published flag now b d))) = map blog_id (rows (blogs d)))
    as Hpub.
  { intros flag now b. unfold set_published. simpl. rewrite map_map. apply map_ext.
    intros x. apply blog_id_after_flag. }
  destruct Hc as [e d | d u b v blog Hb | d u b blog Hb Hnone | d u b f Hone
                 | d u b s blog Hb Hnone Hs | d u b r s Hone Hs
                 | d b u text now parent blog Hb Hclean Hpar | d b blog Hb
                 | d b blog Hb | d b blog Hb].
  - auto.
  - unfold ratings_of. rewrite comments_react_db, ratings_react_db, blogs_react_db. auto.
  - unfold ratings_of, add_favorite. simpl. auto.
  - unfold ratings_of, del_favorite. simpl. auto.
  - split; [apply Hsame | split; [|reflexivity]].
    intros u' b' Hhad. rewrite ratings_of_add. intros Happ.
    apply app_eq_nil in Happ as [Happ _]. contradiction.
  - split; [apply Hsame | split; [|reflexivity]].
    intros u' b' Hhad. rewrite (ratings_of_save _ r s u b u' b' (inv_rating_ids _ I) Hone).
    destruct ((u' =? u) && (b' =? b)); [discriminate | exact Hhad].
  - split; [|split; [|reflexivity]].
    + unfold add_comment. simpl. eexists. split; [reflexivity | simpl; lia].
    + unfold ratings_of, add_comment. simpl. auto.
  - now contradiction Hne.
  - split; [apply Hsame | split; [|apply Hpub]]. unfold ratings_of, set_published. simpl. auto.
  - split; [apply Hsame | split; [|apply Hpub]]. unfold ratings_of, set_published. simpl. auto.
Qed.

(** X22. Only the deletion of a post takes anything away.  A request to any
    of the other five routes leaves every stored comment in place and as it
    was (the table grows by at most one row, at its end), leaves a Rating to
    every (user, post) pair that had one, so a rating can be changed but not
    withdrawn, and leaves the set of posts as it was. *)
Theorem X22_only_delete_removes w h :
  live w -> endpoint h <> on_engagement route_blog_delete ->
  let d := db w in
  let d' := db (advance w h) in
  (exists new, rows (comments d') = rows (comments d) ++ new /\ (List.length new <= 1)%nat) /\
  (forall u b, ratings_of d u b <> [] -> ratings_of d' u b <> []) /\
  map blog_id (rows (blogs d')) = map blog_id (rows (blogs d)).
Proof.
  intros Hl Hne d d'. subst d d'.
  apply (change_keeps (endpoint h)); trivial; [apply advance_change | now apply live_Inv].
Qed.

Lemma X22_witness :
  ratings_of
    (db (advance (run [mkCall route_blog_detail (rating_request Example.bob "4") 1]
                      Example.site0)
                 (of_call (mkCall route_blog_detail (rating_request Example.bob "2") 1))))
    8 1 <> [].
Proof.
  apply (proj1 (proj2 (X22_only_delete_removes
                         (run [mkCall route_blog_detail (rating_request Example.bob "4") 1]
                              Example.site0)
                         (of_call (mkCall route_blog_detail (rating_request Example.bob "2") 1))
                         (reachable_live _ (ExampleFacts.site0_runs _))
                         ltac:(discriminate)))).
  vm_compute. discriminate.
Defined.

(** ** Toggling a favorite twice *)

(** X21. Two requests of the same user to [toggle_favorite] for the same post
    bring the pair back to where it was: favorited if it was, not favorited
    if it was not, with the favorites of every other pair untouched.  A
    Favorite that comes back is a new row: its primary key is larger than the
    one it replaces. *)
Theorem X21_favorite_toggled_twice w req1 req2 pk u blog :
  reachable w -> user req1 = Some u -> user req2 = Some u ->
  blog_at (db w) pk = Some blog ->
  let w2 := run [mkCall route_toggle_favorite req1 pk;
                 mkCall route_toggle_favorite req2 pk] w in
  (favorites_of (db w) (user_id u) pk = [] -> favorites_of (db w2) (user_id u) pk = []) /\
  (forall f, favorites_of (db w) (user_id u) pk = [f] ->
     exists f', favorites_of (db w2) (user_id u) pk = [f'] /\
                favorite_id f < favorite_id f') /\
  (forall u' b', (u', b') <> (user_id u, pk) ->
                 favorites_of (db w2) u' b' = favorites_of (db w) u' b').
Proof.
  intros Hr Hu1 Hu2 Hb w2. subst w2. unfold run. simpl fold_left.
  pose proof (reachable_Inv w Hr) as I.
  set (w1 := step w (mkCall route_toggle_favorite req1 pk)).
  assert (Inv (db w1)) as I1 by (apply reachable_Inv, reachable_step, Hr).
  assert (blog_at (db w1) pk = Some blog) as Hb1.
  { unfold w1, step. rewrite (toggle_favorite_found w req1 pk u blog Hu1 Hb).
    destruct (favorites_of (db w) (user_id u) pk) as [|f [|f' l]]; exact Hb. }
  unfold step at 1 2 3. rewrite (toggle_favorite_found w1 req2 pk u blog Hu2 Hb1).
  destruct (favorites_at_most_one (db w) (user_id u) pk I) as [Hf | [f Hf]].
  - assert (db w1 = add_favorite (user_id u) pk (db w)) as Hd1
      by (unfold w1, step; now rewrite (toggle_favorite_found w req1 pk u blog Hu1 Hb), Hf).
    assert (favorites_of (db w1) (user_id u) pk =
            [mkFavorite (seq (favorites (db w))) (user_id u) pk]) as Hf1
      by (rewrite Hd1, favorites_of_add, Hf, !Z.eqb_refl; reflexivity).
    rewrite Hf1. simpl snd. simpl db. split; [|split].
    + intros _. now apply favorites_of_del_same.
    + intros f. rewrite Hf. intros [=].
    + intros u' b' Hne.
      rewrite (favorites_of_del_other _ (user_id u) pk _ u' b' (inv_favorite_ids _ I1) Hf1 Hne).
      rewrite Hd1, favorites_of_add.
      destruct (Z.eqb_spec (user_id u) u'), (Z.eqb_spec pk b'); subst; simpl;
        try congruence; apply app_nil_r.
  - assert (db w1 = del_favorite f (db w)) as Hd1
      by (unfold w1, step; now rewrite (toggle_favorite_found w req1 pk u blog Hu1 Hb), Hf).
    assert (favorites_of (db w1) (user_id u) pk = []) as Hf1
      by (rewrite Hd1; now apply favorites_of_del_same).
    rewrite Hf1. simpl snd. simpl db. split; [|split].
    + rewrite Hf. intros [=].
    + intros f0 Hf0. rewrite Hf in Hf0. injection Hf0 as <-. eexists. split.
      * rewrite favorites_of_add, Hf1, !Z.eqb_refl. reflexivity.
      * simpl. rewrite Hd1. simpl.
        pose proof (inv_favorite_seq _ I) as Hseq. rewrite Forall_forall in Hseq.
        apply Hseq. now apply (filter_singleton_in _ _ _ Hf).
    + intros u' b' Hne. rewrite favorites_of_add.
      replace ((user_id u =? u') && (pk =? b')) with false.
      * rewrite app_nil_r, Hd1.
        apply (favorites_of_del_other _ (user_id u) pk); trivial. apply (inv_favorite_ids _ I).
      * symmetry. destruct (Z.eqb_spec (user_id u) u'), (Z.eqb_spec pk b'); subst; simpl;
          trivial. congruence.
Qed.

Lemma X21_witness :
  favorites_of
    (db (run [mkCall route_toggle_favorite (mkRequest GET (Some Example.bob) [] [] None 0 true) 1;
              mkCall route_toggle_favorite (mkRequest GET (Some Example.bob) [] [] None 1 true) 1]
             Example.site0)) 8 1 = [].
Proof.
  apply (proj1 (X21_favorite_toggled_twice Example.site0
                  (mkRequest GET (Some Example.bob) [] [] None 0 true)
                  (mkRequest GET (Some Example.bob) [] [] None 1 true) 1
                  Example.bob Example.post1 (ExampleFacts.site0_runs []) eq_refl eq_refl
                  eq_refl)).
  reflexivity.
Defined.

(** ** Routes *)

Module UrlFacts.
Import Urls.

Lemma strip_prefix_append text : forall rest,
  strip_prefix text (String.append text rest) = Some rest.
Proof.
  induction text as [|a text IH]; intros rest; simpl; [now destruct rest|].
  now rewrite Ascii.eqb_refl.
Qed.

End UrlFacts.

Module RouteFacts.
Import Urls UrlFacts.

Lemma append_assoc (a b c : string) :
  String.append (String.append a b) c = String.append a (String.append b c).
Proof. induction a as [|x a IH]; simpl; [reflexivity | now rewrite IH]. Qed.

Lemma append_nil_r (a : string) : String.append a EmptyString = a.
Proof. induction a as [|x a IH]; simpl; [reflexivity | now rewrite IH]. Qed.

Lemma span_exact p text : forall rest,
  all_in p text = true -> stops p rest -> span p (String.append text rest) = (text, rest).
Proof.
  induction text as [|c text IH]; intros rest Hall Hstop; simpl.
  - destruct rest as [|ch r]; simpl in *; [reflexivity | now rewrite Hstop].
  - simpl in Hall. apply andb_true_iff in Hall as [-> Hall]. now rewrite IH.
Qed.

Lemma take_class_append p n : forall s a r,
  take_class p n s = Some (a, r) ->
  s = String.append a r /\ forall r', take_class p n (String.append a r') = Some (a, r').
Proof.
  induction n as [|n IH]; intros s a r H; simpl in H.
  - injection H as <- <-. split; reflexivity.
  - destruct s as [|c s]; [discriminate|]. destruct (p c) eqn:Hc; [|discriminate].
    destruct (take_class p n s) as [[a' b']|] eqn:E; [|discriminate].
    injection H as <- <-. destruct (IH _ _ _ E) as [-> Hall]. split; [reflexivity|].
    intros r'. simpl. now rewrite Hc, Hall.
Qed.

Lemma take_groups_append g : forall s a r,
  take_groups g s = Some (a, r) ->
  s = String.append a r /\ forall r', take_groups g (String.append a r') = Some (a, r').
Proof.
  induction g as [|n g IH]; intros s a r H.
  - simpl in H. injection H as <- <-. split; reflexivity.
  - destruct g as [|m g].
    + now apply take_class_append.
    + change (take_groups (n :: m :: g) s)
        with (match take_class is_hex n s with
              | Some (a, String "-" rest) =>
                  match take_groups (m :: g) rest with
                  | Some (b, r) => Some (String.append a (String "-" b), r)
                  | None => None
                  end
              | _ => None
              end) in H.
      destruct (take_class is_hex n s) as [[a0 [|c rest]]|] eqn:E; try discriminate.
      destruct (Ascii.eqb_spec c "-") as [->|Hne];
        [|destruct c as [[] [] [] [] [] [] [] []]; try discriminate; now contradiction Hne].
      destruct (take_groups (m :: g) rest) as [[b r0]|] eqn:E'; [|discriminate].
      injection H as <- <-.
      destruct (take_class_append _ _ _ _ _ E) as [-> Ha].
      destruct (IH _ _ _ E') as [-> Hb]. split.
      * now rewrite append_assoc.
      * intros r'.
        change (take_groups (n :: m :: g) (String.append (String.append a0 (String "-" b)) r'))
          with (match take_class is_hex n (String.append (String.append a0 (String "-" b)) r') with
                | Some (a, String "-" rest) =>
                    match take_groups (m :: g) rest with
                    | Some (b, r) => Some (String.append a (String "-" b), r)
                    | None => None
                    end
                | _ => None
                end).
        rewrite append_assoc. simpl String.append at 2. rewrite Ha, Hb. reflexivity.
Qed.

(** What [substitute] writes after a converter begins outside the
    converter's class, in a route where converters are delimited. *)
Lemma substitute_stops c more args rest :
  delimited (Conv c :: more) = true -> substitute more args = Some rest ->
  stops (class c) rest.
Proof.
  simpl. destruct more as [|[[|ch x]|c'] more]; try discriminate.
  - intros _. simpl. destruct args; [intros [= <-]; exact I | discriminate].
  - intros Hd. apply andb_true_iff in Hd as [Hch _]. apply negb_true_iff in Hch.
    simpl. destruct (substitute more args); [|discriminate]. intros [= <-]. exact Hch.
Qed.

Lemma delimited_tail p more : delimited (p :: more) = true -> delimited more = true.
Proof.
  destruct p as [text|c]; simpl; trivial.
  destruct more as [|[[|ch x]|c'] more]; try discriminate; trivial.
  intros Hd. now apply andb_true_iff in Hd as [_ Hd].
Qed.

Lemma all_in_append p a b :
  all_in p (String.append a b) = all_in p a && all_in p b.
Proof. induction a as [|c a IH]; simpl; [reflexivity | now rewrite IH, andb_assoc]. Qed.

Lemma all_in_impl (p q : ascii -> bool) s :
  (forall c, p c = true -> q c = true) -> all_in p s = true -> all_in q s = true.
Proof.
  intros Hpq. induction s as [|c s IH]; simpl; trivial.
  intros H. apply andb_true_iff in H as [Hc H]. now rewrite (Hpq c Hc), IH.
Qed.

Lemma digit_safe c : is_digit c = true -> is_safe c = true.
Proof.
  intros Hc. apply PyFacts.is_digit_bounds in Hc. unfold is_safe.
  replace ((48 <=? Py.byte c) && (Py.byte c <=? 57)) with true; [reflexivity|].
  symmetry. apply andb_true_iff. split; apply Z.leb_le; lia.
Qed.

Lemma negative_decimal z : z < 0 -> exists t, PyInt.decimal z = String "-" t.
Proof. destruct z as [|p|p]; try lia. intros _. eexists. reflexivity. Qed.

Lemma take_int_digits text rest :
  text <> EmptyString -> all_in is_digit text = true -> stops is_digit rest ->
  take conv_int (String.append text rest) = Some (text, rest).
Proof.
  intros Hne Hall Hstop. unfold take. rewrite (span_exact is_digit _ rest Hall Hstop).
  destruct text; [now contradiction Hne | reflexivity].
Qed.

(** Matching a route that takes numbers against what [substitute] wrote for
    it, once [search] has accepted it, gives the arguments back; and what
    was written needs no quoting. *)
Lemma match_substitute route : forall args s,
  delimited route = true -> int_route route = true -> Forall is_int args ->
  substitute route args = Some s -> search route s = true ->
  match_route route s = Some args /\
  (literals is_safe route = true -> all_in is_safe s = true).
Proof.
  induction route as [|[text|c] more IH]; intros args s Hd Hi Hargs Hs Hsearch.
  - simpl in *. destruct args; [|discriminate]. injection Hs as <-. auto.
  - simpl in Hs. destruct (substitute more args) as [rest|] eqn:E; [|discriminate].
    injection Hs as <-. simpl in Hsearch |- *. rewrite strip_prefix_append in *.
    destruct (IH args rest (delimited_tail _ _ Hd) Hi Hargs E Hsearch) as [Hm Hsafe].
    split; trivial. intros Hl. apply andb_true_iff in Hl as [Ht Hl].
    now rewrite all_in_append, Ht, Hsafe.
  - destruct c; try discriminate. simpl in Hs.
    destruct args as [|a args]; [discriminate|].
    inversion Hargs as [|? ? Ha Hargs']; subst. destruct a as [z|]; [|contradiction].
    simpl in Hs. destruct (PyInt.str_of_int z) as [text|] eqn:Et; [|discriminate].
    destruct (substitute more args) as [rest|] eqn:E; [|discriminate].
    injection Hs as <-.
    pose proof (substitute_stops conv_int more args rest Hd E) as Hstop.
    destruct (PyFacts.str_of_int_decimal z text Et) as [-> _].
    destruct (Z.lt_ge_cases z 0) as [Hneg|Hpos].
    + exfalso. destruct (negative_decimal z Hneg) as [t Ht]. rewrite Ht in Hsearch.
      simpl in Hsearch. discriminate.
    + pose proof (proj2 (PyFacts.decimal_digits z) Hpos) as Hall.
      pose proof (take_int_digits _ rest (PyFacts.decimal_nonempty z) Hall Hstop) as Htake.
      cbn [search] in Hsearch. rewrite Htake in Hsearch.
      destruct (IH args rest (delimited_tail _ _ Hd) Hi Hargs' E Hsearch) as [Hm Hsafe].
      split.
      * cbn [match_route]. unfold convert. rewrite Htake. cbn [to_python].
        rewrite (PyFacts.int_of_str_of_int z _ Hpos Et). cbn [option_map]. now rewrite Hm.
      * intros Hl. rewrite all_in_append, (Hsafe Hl), andb_true_r.
        apply (all_in_impl is_digit); [apply digit_safe | exact Hall].
Qed.

Lemma quote_safe s : all_in is_safe s = true -> quote s = s.
Proof.
  induction s as [|c s IH]; simpl; trivial.
  intros H. apply andb_true_iff in H as [-> H]. now rewrite IH.
Qed.

(** What [substitute] writes for a route that begins with a letter does not
    begin with a slash, so [escape_leading_slashes] has nothing to do. *)
Lemma substitute_no_leading_slash route args s :
  match route with
  | [] => true
  | Lit (String a _) :: _ => negb (Ascii.eqb a "/")
  | _ => false
  end = true ->
  substitute route args = Some s ->
  escape_leading_slashes (String "/" s) = String "/" s.
Proof.
  destruct route as [|[[|a x]|c] more]; try discriminate.
  - intros _. simpl. destruct args; [intros [= <-]; reflexivity | discriminate].
  - intros Ha. apply negb_true_iff in Ha. simpl.
    destruct (substitute more args); [|discriminate]. intros [= <-]. simpl.
    destruct (Ascii.eqb_spec a "/") as [->|Hne]; [discriminate|].
    destruct a as [[] [] [] [] [] [] [] []]; try reflexivity. now contradiction Hne.
Qed.

(** *** Routes that no path can both match *)

Lemma convert_first c s a rest :
  convert c s = Some (a, rest) -> exists ch s', s = String ch s' /\ class c ch = true.
Proof.
  destruct s as [|ch s]; [destruct c; discriminate|].
  intros H. exists ch, s. split; trivial.
  unfold convert in H. destruct c; simpl in *.
  - destruct (is_digit ch); [reflexivity | discriminate].
  - destruct (not_slash ch); [reflexivity | discriminate].
  - unfold take_uuid in H. simpl in H. destruct (is_hex ch); [reflexivity | discriminate].
Qed.

Lemma match_lit_cons a x more s :
  match_route (Lit (String a x) :: more) s =
    match s with
    | String b s' => if Ascii.eqb a b then match_route (Lit x :: more) s' else None
    | EmptyString => None
    end.
Proof. destruct s as [|b s]; simpl; trivial. now destruct (Ascii.eqb a b). Qed.

Lemma match_conv_first c more s args :
  match_route (Conv c :: more) s = Some args ->
  exists ch s', s = String ch s' /\ class c ch = true.
Proof.
  simpl. destruct (convert c s) as [[a rest]|] eqn:E; [|discriminate].
  intros _. now apply convert_first in E.
Qed.

Lemma apart_sound fuel : forall p q,
  apart fuel p q = true -> forall s, match_route p s = None \/ match_route q s = None.
Proof.
  induction fuel as [|fuel IH]; intros p q H s; [discriminate|].
  destruct p as [|[[|a x]|c] p'].
  - destruct q as [|[[|b y]|c'] q']; simpl in H; try discriminate.
    + apply (IH [] q' H s).
    + destruct s; [right; reflexivity | left; reflexivity].
    + destruct s; [right; destruct c'; reflexivity | left; reflexivity].
  - simpl in H. destruct (IH p' q H s); auto.
  - destruct q as [|[[|b y]|c'] q']; simpl in H.
    + destruct s; [left; reflexivity | right; reflexivity].
    + destruct (IH (Lit (String a x) :: p') q' H s); auto.
    + rewrite !match_lit_cons. destruct s as [|ch s]; [now left|].
      destruct (Ascii.eqb a ch) eqn:Ea; [|now left].
      apply Ascii.eqb_eq in Ea. subst ch.
      destruct (Ascii.eqb a b) eqn:Eb.
      * apply Ascii.eqb_eq in Eb. subst b. rewrite Ascii.eqb_refl. apply (IH _ _ H s).
      * right. rewrite Ascii.eqb_sym, Eb. reflexivity.
    + apply negb_true_iff in H.
      destruct (match_route (Conv c' :: q') s) as [args|] eqn:E; [|now right].
      left. apply match_conv_first in E as (ch & s' & -> & Hc).
      rewrite match_lit_cons. destruct (Ascii.eqb a ch) eqn:Ea; [|reflexivity].
      apply Ascii.eqb_eq in Ea. congruence.
  - destruct q as [|[[|b y]|c'] q']; simpl in H.
    + destruct s; [left; destruct c; reflexivity | right; reflexivity].
    + destruct (IH (Conv c :: p') q' H s); auto.
    + apply negb_true_iff in H.
      destruct (match_route (Conv c :: p') s) as [args|] eqn:E; [|now left].
      right. apply match_conv_first in E as (ch & s' & -> & Hc).
      rewrite match_lit_cons. destruct (Ascii.eqb b ch) eqn:Eb; [|reflexivity].
      apply Ascii.eqb_eq in Eb. congruence.
    + assert (c = c' /\ apart fuel p' q' = true) as [<- Hrec]
        by (destruct c, c'; try discriminate; auto).
      cbn [match_route]. destruct (convert c s) as [[a rest]|]; [|now left].
      destruct (IH p' q' Hrec rest) as [-> | ->]; auto.
Qed.

Lemma unique_match patterns :
  pairwise_apart patterns = true ->
  forall x y s, In x patterns -> In y patterns ->
    match_route (fst x) s <> None -> match_route (fst y) s <> None -> x = y.
Proof.
  induction patterns as [|[route name] more IH]; intros Hpa x y s Hx Hy Mx My;
    [contradiction|].
  cbn [pairwise_apart] in Hpa. apply andb_true_iff in Hpa as [Hhead Hrest].
  rewrite forallb_forall in Hhead.
  destruct Hx as [<- | Hx], Hy as [<- | Hy]; trivial.
  - destruct (apart_sound _ _ _ (Hhead y Hy) s); contradiction.
  - destruct (apart_sound _ _ _ (Hhead x Hx) s); contradiction.
  - now apply (IH Hrest x y s).
Qed.

Lemma resolve_in_first patterns s name args :
  resolve_in patterns s = Some (name, args) ->
  exists route, In (route, name) patterns /\ match_route route s = Some args.
Proof.
  induction patterns as [|[route n] more IH]; simpl; [discriminate|].
  destruct (match_route route s) as [a|] eqn:E.
  - intros [= <- <-]. exists route. auto.
  - intros H. destruct (IH H) as (r & Hin & Hm). exists r. auto.
Qed.

Lemma resolve_in_match patterns s route name args :
  pairwise_apart patterns = true ->
  In (route, name) patterns -> match_route route s = Some args ->
  resolve_in patterns s = Some (name, args).
Proof.
  intros Hpa Hin Hm.
  destruct (resolve_in patterns s) as [[n a]|] eqn:E.
  - destruct (resolve_in_first _ _ _ _ E) as (r & Hin' & Hm').
    assert ((route, name) = (r, n)) as Heq.
    { apply (unique_match patterns Hpa _ _ s); trivial; simpl; congruence. }
    injection Heq as <- <-. congruence.
  - exfalso. clear Hpa. induction patterns as [|[r n] more IH]; [contradiction|].
    simpl in E. destruct (match_route r s) eqn:Er; [discriminate|].
    destruct Hin as [[= -> ->] | Hin]; [congruence | now apply IH].
Qed.

Lemma urlpatterns_apart : pairwise_apart urlpatterns = true.
Proof. vm_compute. reflexivity. Qed.

Lemma urlpatterns_delimited route name :
  In (route, name) urlpatterns -> delimited route = true.
Proof.
  assert (forallb (fun p => delimited (fst p)) urlpatterns = true) as H
    by (vm_compute; reflexivity).
  rewrite forallb_forall in H. intros Hin. apply (H _ Hin).
Qed.

End RouteFacts.

Module ResolveFacts.
Import Urls UrlFacts RouteFacts.

Lemma resolve_in_none patterns s :
  resolve_in patterns s = None <->
  forall x, In x patterns -> match_route (fst x) s = None.
Proof.
  induction patterns as [|[route name] more IH]; simpl.
  - split; [intros _ x [] | reflexivity].
  - destruct (match_route route s) eqn:E.
    + split; [discriminate|]. intros H. specialize (H (route, name) (or_introl eq_refl)).
      simpl in H. congruence.
    + rewrite IH. split.
      * intros H x [<- | Hx]; [exact E | now apply H].
      * intros H x Hx. apply H. now right.
Qed.

Lemma resolve_in_the_match patterns s route name args :
  (forall x y, In x patterns -> In y patterns ->
     match_route (fst x) s <> None -> match_route (fst y) s <> None -> x = y) ->
  In (route, name) patterns -> match_route route s = Some args ->
  resolve_in patterns s = Some (name, args).
Proof.
  intros Huniq Hin Hm.
  destruct (resolve_in patterns s) as [[n a]|] eqn:E.
  - destruct (resolve_in_first _ _ _ _ E) as (r & Hin' & Hm').
    assert ((route, name) = (r, n)) as Heq
      by (apply Huniq; trivial; simpl; congruence).
    injection Heq as <- <-. congruence.
  - rewrite resolve_in_none in E. specialize (E _ Hin). simpl in E. congruence.
Qed.

End ResolveFacts.


Module ReverseFacts.
Import Urls UrlFacts RouteFacts.

Lemma urlpatterns_int_route route name :
  In (route, name) urlpatterns ->
  name <> "verify_email" -> name <> "password_reset_confirm" -> int_route route = true.
Proof.
  assert (forallb (fun p => int_route (fst p) || String.eqb (snd p) "verify_email" ||
                            String.eqb (snd p) "password_reset_confirm")
                  urlpatterns = true) as H by (vm_compute; reflexivity).
  rewrite forallb_forall in H. intros Hin H1 H2. specialize (H _ Hin). simpl in H.
  apply String.eqb_neq in H1, H2. rewrite H1, H2 in H. now rewrite !orb_false_r in H.
Qed.

Lemma urlpatterns_safe route name :
  In (route, name) urlpatterns -> literals is_safe route = true.
Proof.
  assert (forallb (fun p => literals is_safe (fst p)) urlpatterns = true) as H
    by (vm_compute; reflexivity).
  rewrite forallb_forall in H. intros Hin. apply (H _ Hin).
Qed.

Lemma urlpatterns_begin route name :
  In (route, name) urlpatterns ->
  match route with
  | [] => true
  | Lit (String a _) :: _ => negb (Ascii.eqb a "/")
  | _ => false
  end = true.
Proof.
  assert (forallb (fun p => match fst p with
                            | [] => true
                            | Lit (String a _) :: _ => negb (Ascii.eqb a "/")
                            | _ => false
                            end) urlpatterns = true) as H by (vm_compute; reflexivity).
  rewrite forallb_forall in H. intros Hin. apply (H _ Hin).
Qed.

(** A URL built from numbers leads back to the route and the numbers. *)
Lemma reverse_numbers name args url :
  name <> "verify_email" -> name <> "password_reset_confirm" ->
  Forall is_int args ->
  reverse name args = Some url -> resolve url = Some (name, args).
Proof.
  intros H1 H2 Hargs. unfold reverse.
  destruct (find _ urlpatterns) as [[route n]|] eqn:Ef; [|discriminate].
  apply find_some in Ef as [Hin Hn]. simpl in Hn. apply String.eqb_eq in Hn. subst n.
  destruct (substitute route args) as [s|] eqn:Es; [|discriminate].
  destruct (search route s) eqn:Hs; [|discriminate].
  destruct (match_substitute route args s (urlpatterns_delimited route name Hin)
              (urlpatterns_int_route route name Hin H1 H2) Hargs Es Hs) as [Hm Hsafe].
  specialize (Hsafe (urlpatterns_safe route name Hin)).
  rewrite quote_safe by (simpl; exact Hsafe).
  rewrite (substitute_no_leading_slash route args s (urlpatterns_begin route name Hin) Es).
  intros [= <-]. unfold resolve.
  now apply (resolve_in_match _ s route name args urlpatterns_apart Hin).
Qed.

(** The URL of a route made of a literal, a primary key and a literal. *)
Lemma reverse_pk name a b pk :
  find (fun p => String.eqb (snd p) name) urlpatterns =
    Some ([Lit a; Conv conv_int; Lit (String "/" b)], name) ->
  all_in is_safe a = true -> all_in is_safe b = true ->
  match a with String c _ => negb (Ascii.eqb c "/") | EmptyString => false end = true ->
  reverse name [ArgInt pk] =
    if (0 <=? pk) && (String.length (PyInt.decimal pk) <=? Py.int_max_str_digits)%nat
    then Some (String "/" (String.append a
                             (String.append (PyInt.decimal pk) (String "/" b))))
    else None.
Proof.
  intros Hfind Ha Hb Hbegin. unfold reverse. rewrite Hfind.
  cbn [substitute to_url]. unfold PyInt.str_of_int.
  destruct (Z.leb_spec 0 pk) as [Hpk|Hpk]; cbn [andb].
  - pose proof (proj2 (PyFacts.decimal_digits pk) Hpk) as Hall.
    rewrite (PyFacts.count_digits_all _ Hall).
    destruct (Nat.leb_spec (String.length (PyInt.decimal pk)) Py.int_max_str_digits)
      as [Hlen|Hlen].
    + apply Nat.ltb_ge in Hlen. rewrite Hlen.
      cbn [search]. rewrite strip_prefix_append.
      rewrite (take_int_digits _ _ (PyFacts.decimal_nonempty pk) Hall) by reflexivity.
      rewrite strip_prefix_append. cbn [search].
      rewrite append_nil_r.
      rewrite quote_safe.
      2:{ simpl. rewrite !all_in_append. simpl.
          rewrite Ha, Hb, (all_in_impl is_digit is_safe _ digit_safe Hall). reflexivity. }
      destruct a as [|c a']; [discriminate|]. apply negb_true_iff in Hbegin.
      simpl. destruct (Ascii.eqb_spec c "/") as [->|Hne]; [discriminate|].
      destruct c as [[] [] [] [] [] [] [] []]; try reflexivity. now contradiction Hne.
    + apply Nat.ltb_lt in Hlen. now rewrite Hlen.
  - destruct (negative_decimal pk Hpk) as [t Ht].
    destruct (Py.int_max_str_digits <? Py.count_digits (PyInt.decimal pk))%nat; trivial.
    rewrite Ht. cbn [search]. rewrite strip_prefix_append. reflexivity.
Qed.

Lemma digits_total s : forall acc b,
  s <> EmptyString -> all_in is_digit s = true -> exists z, Py.digits acc b s = Some z.
Proof.
  induction s as [|c s IH]; intros acc b Hne Hall; [now contradiction Hne|].
  simpl in Hall. apply andb_true_iff in Hall as [Hc Hall]. simpl.
  unfold is_digit in Hc. destruct (Py.digit c) as [d|]; [|discriminate].
  destruct s as [|c' s']; [eexists; reflexivity|]. apply IH; [discriminate | exact Hall].
Qed.

(** The text of a number given for a primary key is put in the URL as it
    is, and the URL leads to the number it writes. *)
Lemma reverse_text s :
  s <> EmptyString -> all_in is_digit s = true ->
  (String.length s <= Py.int_max_str_digits)%nat ->
  reverse "blog_detail" [ArgStr s] = Some (String.append "/blog/" (String.append s "/")) /\
  exists z, Py.int_of_str s = Some z /\
            resolve (String.append "/blog/" (String.append s "/")) =
              Some ("blog_detail", [ArgInt z]).
Proof.
  intros Hne Hall Hlen.
  assert (take conv_int (String.append s "/") = Some (s, "/")) as Htake
    by (apply take_int_digits; trivial; reflexivity).
  split.
  - unfold reverse. cbn [find urlpatterns snd String.eqb Ascii.eqb Bool.eqb substitute to_url].
    cbn [search]. rewrite strip_prefix_append.
    change (String.append "/" EmptyString) with "/". rewrite Htake. cbn [search strip_prefix].
    rewrite Ascii.eqb_refl. rewrite quote_safe.
    + reflexivity.
    + simpl. rewrite all_in_append, (all_in_impl is_digit is_safe _ digit_safe Hall).
      reflexivity.
  - destruct (digits_total s 0 false Hne Hall) as [z Hz]. exists z.
    assert (Py.int_of_str s = Some z) as Hint.
    { rewrite PyFacts.int_of_digits by trivial. apply Nat.ltb_ge in Hlen. now rewrite Hlen. }
    split; [exact Hint|].
    unfold resolve. change (String.append "/blog/" (String.append s "/"))
      with (String "/" (String.append "blog/" (String.append s "/"))).
    apply (resolve_in_match _ (String.append "blog/" (String.append s "/"))
             [Lit "blog/"; Conv conv_int; Lit "/"] "blog_detail" [ArgInt z]
             urlpatterns_apart).
    + right. right. left. reflexivity.
    + cbn [match_route]. rewrite strip_prefix_append. unfold convert. rewrite Htake.
      cbn [to_python]. rewrite Hint. reflexivity.
Qed.

Lemma take_class_all p n : forall s a r,
  take_class p n s = Some (a, r) -> all_in p a = true.
Proof.
  induction n as [|n IH]; intros s a r H; simpl in H.
  - now injection H as <- <-.
  - destruct s as [|c s]; [discriminate|]. destruct (p c) eqn:Hc; [|discriminate].
    destruct (take_class p n s) as [[a' b']|] eqn:E; [|discriminate].
    injection H as <- <-. simpl. now rewrite Hc, (IH _ _ _ E).
Qed.

Lemma take_groups_all g : forall s a r,
  take_groups g s = Some (a, r) ->
  all_in (fun c => is_hex c || Ascii.eqb c "-") a = true.
Proof.
  induction g as [|n g IH]; intros s a r H.
  - simpl in H. now injection H as <- <-.
  - destruct g as [|m g].
    + apply (all_in_impl is_hex); [intros c ->; reflexivity|].
      now apply (take_class_all _ _ _ _ _ H).
    + change (take_groups (n :: m :: g) s)
        with (match take_class is_hex n s with
              | Some (a, String "-" rest) =>
                  match take_groups (m :: g) rest with
                  | Some (b, r) => Some (String.append a (String "-" b), r)
                  | None => None
                  end
              | _ => None
              end) in H.
      destruct (take_class is_hex n s) as [[a0 [|c rest]]|] eqn:E; try discriminate.
      destruct (Ascii.eqb_spec c "-") as [->|Hne];
        [|destruct c as [[] [] [] [] [] [] [] []]; try discriminate; now contradiction Hne].
      destruct (take_groups (m :: g) rest) as [[b r0]|] eqn:E'; [|discriminate].
      injection H as <- <-. rewrite all_in_append. simpl.
      rewrite (IH _ _ _ E'), andb_true_r.
      apply (all_in_impl is_hex); [intros c ->; reflexivity|].
      now apply (take_class_all _ _ _ _ _ E).
Qed.

Lemma append_slash_inj a : forall b,
  String.append a "/" = String.append b "/" -> a = b.
Proof.
  induction a as [|x a IH]; intros [|y b] H; simpl in H; trivial.
  - injection H as _ H. destruct b; discriminate.
  - injection H as _ H. destruct a; discriminate.
  - injection H as -> H. f_equal. now apply IH.
Qed.

Lemma hex_or_dash_safe c : is_hex c || Ascii.eqb c "-" = true -> is_safe c = true.
Proof.
  intros H. apply orb_true_iff in H as [H | H].
  - unfold is_hex in H. apply orb_true_iff in H as [H | H]; [now apply digit_safe|].
    apply andb_true_iff in H as [H1 H2]. apply Nat.leb_le in H1, H2. unfold is_safe, Py.byte.
    replace ((97 <=? Z.of_nat (nat_of_ascii c)) && (Z.of_nat (nat_of_ascii c) <=? 122))
      with true; [now rewrite !orb_true_r|].
    symmetry. apply andb_true_iff. split; apply Z.leb_le; lia.
  - apply Ascii.eqb_eq in H. subst c. reflexivity.
Qed.

(** The link [register] mails: built from the text of a UUID, it leads back
    to [verify_email] with that text. *)
Lemma reverse_token u url :
  reverse "verify_email" [ArgStr u] = Some url ->
  url = String.append "/verify-email/" (String.append u "/") /\
  resolve url = Some ("verify_email", [ArgStr u]).
Proof.
  unfold reverse. cbn [find urlpatterns snd String.eqb Ascii.eqb Bool.eqb substitute to_url].
  change (String.append "/" EmptyString) with "/".
  destruct (search _ _) eqn:Hs; [|discriminate].
  cbn [search] in Hs. rewrite strip_prefix_append in Hs. unfold take in Hs.
  destruct (take_uuid (String.append u "/")) as [[v r]|] eqn:Eu; [|discriminate].
  pose proof (take_groups_all _ _ _ _ Eu) as Hv.
  destruct (take_groups_append _ _ _ _ Eu) as [Hu Hall].
  assert (r = "/") as ->.
  { cbn [search strip_prefix] in Hs. destruct r as [|c r]; [discriminate|].
    destruct (Ascii.eqb_spec "/" c) as [<-|]; [|discriminate].
    destruct r; [reflexivity | discriminate]. }
  apply append_slash_inj in Hu. subst v.
  rewrite quote_safe.
  2:{ simpl. rewrite all_in_append. simpl.
      now rewrite (all_in_impl _ is_safe _ hex_or_dash_safe Hv). }
  intros [= <-]. split; [reflexivity|].
  unfold resolve.
  change (escape_leading_slashes (String "/" (String.append "verify-email/" (String.append u "/"))))
    with (String "/" (String.append "verify-email/" (String.append u "/"))).
  apply (resolve_in_match _ (String.append "verify-email/" (String.append u "/"))
           [Lit "verify-email/"; Conv conv_uuid; Lit "/"] "verify_email"
           [ArgStr u] urlpatterns_apart).
  - do 12 right. left. reflexivity.
  - cbn [match_route]. rewrite strip_prefix_append. unfold convert, take.
    rewrite Eu. reflexivity.
Qed.

End ReverseFacts.

(** X25. A URL that [reverse] builds leads back to where it was built for.
    For every route but the two that take texts, a URL built from numbers
    resolves to that route with those numbers; in particular every redirect
    of the views to a post page lands on [blog_detail] with the same primary
    key.  For the routes with a primary key [reverse] succeeds exactly for
    keys that are not negative (the writing of a negative number does not
    match [[0-9]+]) and have at most 4300 digits (beyond which [str] raises
    [ValueError]), and writes the key in decimal between the literal parts.
    A primary key given as a text of digits is put in the URL as it is, so
    the URL leads to the number the text writes ("007" leads to 7).  The
    link [register] mails, built from the text of a UUID, leads back to
    [verify_email] with that text. *)
Theorem X25_reverse_then_resolve :
  (forall name args url,
      name <> "verify_email" -> name <> "password_reset_confirm" ->
      Forall Urls.is_int args ->
      Urls.reverse name args = Some url -> Urls.resolve url = Some (name, args)) /\
  (forall name pk,
      In name ["blog_detail"; "author_detail"; "blog_update"; "blog_delete";
               "toggle_favorite"; "publish_post"; "unpublish_post"; "like_dislike_post"] ->
      (Urls.reverse name [Urls.ArgInt pk] <> None <->
       0 <= pk /\ (String.length (PyInt.decimal pk) <= 4300)%nat)) /\
  (forall pk,
      0 <= pk -> (String.length (PyInt.decimal pk) <= 4300)%nat ->
      Urls.reverse "blog_detail" [Urls.ArgInt pk] =
        Some (String.append "/blog/" (String.append (PyInt.decimal pk) "/"))) /\
  (forall s,
      s <> EmptyString -> Urls.all_in Urls.is_digit s = true ->
      (String.length s <= 4300)%nat ->
      Urls.reverse "blog_detail" [Urls.ArgStr s] =
        Some (String.append "/blog/" (String.append s "/")) /\
      exists z, Py.int_of_str s = Some z /\
                Urls.resolve (String.append "/blog/" (String.append s "/")) =
                  Some ("blog_detail", [Urls.ArgInt z])) /\
  (forall u url,
      Urls.reverse "verify_email" [Urls.ArgStr u] = Some url ->
      url = String.append "/verify-email/" (String.append u "/") /\
      Urls.resolve url = Some ("verify_email", [Urls.ArgStr u])).
Proof.
  split; [exact ReverseFacts.reverse_numbers|].
  split; [|split; [|split; [exact ReverseFacts.reverse_text | exact ReverseFacts.reverse_token]]].
  - intros name pk Hname. simpl in Hname.
    assert (forall a b,
              Urls.reverse name [Urls.ArgInt pk] =
                (if (0 <=? pk) &&
                    (String.length (PyInt.decimal pk) <=? Py.int_max_str_digits)%nat
                 then Some (String "/" (String.append a
                                          (String.append (PyInt.decimal pk) (String "/" b))))
                 else None) ->
              Urls.reverse name [Urls.ArgInt pk] <> None <->
              0 <= pk /\ (String.length (PyInt.decimal pk) <= 4300)%nat) as Hiff.
    { intros a b ->.
      destruct (Z.leb_spec 0 pk) as [Hpk|Hpk]; cbn [andb];
        [destruct (Nat.leb_spec (String.length (PyInt.decimal pk)) Py.int_max_str_digits)
           as [Hlen|Hlen]|].
      - split; [intros _; split; assumption | intros _; discriminate].
      - split; [intros Hx; now contradiction Hx | intros [_ Hx]; unfold Py.int_max_str_digits in Hlen; lia].
      - split; [intros Hx; now contradiction Hx | intros [Hx _]; lia]. }
    repeat (destruct Hname as [<- | Hname];
            [eapply Hiff; apply ReverseFacts.reverse_pk; reflexivity |]).
    contradiction.
  - intros pk Hpk Hlen.
    rewrite (ReverseFacts.reverse_pk "blog_detail" "blog/" "" pk eq_refl eq_refl eq_refl eq_refl).
    replace (0 <=? pk) with true by (symmetry; apply Z.leb_le; lia).
    apply Nat.leb_le in Hlen. unfold Py.int_max_str_digits. rewrite Hlen. reflexivity.
Qed.

(** The redirect of [toggle_favorite] for post 12, and the link for a
    token. *)
Lemma X25_witness :
  Urls.resolve "/blog/12/favorite/" = Some ("toggle_favorite", [Urls.ArgInt 12]) /\
  Urls.resolve "/verify-email/3f2b8c1e-0a4d-4e6f-9b7a-5c2d1e0f9a8b/" =
    Some ("verify_email", [Urls.ArgStr "3f2b8c1e-0a4d-4e6f-9b7a-5c2d1e0f9a8b"]).
Proof.
  split.
  - apply (proj1 X25_reverse_then_resolve "toggle_favorite" [Urls.ArgInt 12]).
    + discriminate.
    + discriminate.
    + repeat constructor.
    + reflexivity.
  - apply (proj2 (proj2 (proj2 (proj2 X25_reverse_then_resolve)))
             "3f2b8c1e-0a4d-4e6f-9b7a-5c2d1e0f9a8b"). reflexivity.
Defined.

(** X26. No path is served by two routes of urls.py: at most one pattern
    matches any path, so the order of [urlpatterns] never decides, and
    resolving against the patterns in any other order gives the same view
    and arguments ("blog/create/" is [blog_create] and cannot be taken for a
    post page). *)
Theorem X26_routes_do_not_overlap :
  (forall s x y,
      In x Urls.urlpatterns -> In y Urls.urlpatterns ->
      Urls.match_route (fst x) s <> None -> Urls.match_route (fst y) s <> None -> x = y) /\
  (forall patterns s,
      Permutation Urls.urlpatterns patterns ->
      Urls.resolve_in patterns s = Urls.resolve_in Urls.urlpatterns s).
Proof.
  assert (forall s x y,
      In x Urls.urlpatterns -> In y Urls.urlpatterns ->
      Urls.match_route (fst x) s <> None -> Urls.match_route (fst y) s <> None -> x = y)
    as Huniq.
  { intros s x y. apply RouteFacts.unique_match, RouteFacts.urlpatterns_apart. }
  split; [exact Huniq|].
  intros patterns s Hperm.
  destruct (Urls.resolve_in Urls.urlpatterns s) as [[name args]|] eqn:E.
  - destruct (RouteFacts.resolve_in_first _ _ _ _ E) as (route & Hin & Hm).
    apply ResolveFacts.resolve_in_the_match with route; trivial.
    + intros x y Hx Hy. apply Huniq; eapply Permutation_in; try eassumption;
        now apply Permutation_sym.
    + now apply (Permutation_in _ Hperm).
  - rewrite ResolveFacts.resolve_in_none in *. intros x Hx. apply E.
    apply (Permutation_in _ (Permutation_sym Hperm) Hx).
Qed.

Lemma X26_witness :
  Urls.resolve_in (rev Urls.urlpatterns) "blog/create/" =
  Urls.resolve_in Urls.urlpatterns "blog/create/".
Proof.
  apply (proj2 X26_routes_do_not_overlap). apply Permutation_rev.
Defined.

(** ** Pages *)

Section PagePartition.
Context {A : Type}.
Variable l : list A.
Variable per_page : nat.
Hypothesis per_page_pos : (0 < per_page)%nat.

Lemma firstn_plus a b : forall (x : list A),
  firstn (a + b) x = firstn a x ++ firstn b (skipn a x).
Proof.
  induction a as [|a IH]; intros x; simpl; trivial.
  destruct x as [|h x]; simpl; [now rewrite firstn_nil | now rewrite IH].
Qed.

Lemma pages_up_to k :
  List.concat (map (Paginator.page_slice l per_page) (List.seq 1 k)) = firstn (k * per_page) l.
Proof.
  induction k as [|k IH]; [reflexivity|].
  rewrite seq_S, map_app, concat_app, IH. simpl map. simpl List.concat. rewrite app_nil_r.
  rewrite page_slice_eq by assumption.
  replace (S k - 1)%nat with k by lia.
  replace (S k * per_page)%nat with (k * per_page + per_page)%nat by lia.
  now rewrite firstn_plus.
Qed.

Lemma full_page_length n :
  (1 <= n < Paginator.num_pages l per_page)%nat ->
  List.length (Paginator.page_slice l per_page n) = per_page.
Proof.
  intros Hn.
  assert (n * per_page < List.length l)%nat as Hin.
  { unfold Paginator.num_pages, Paginator.count in Hn.
    set (hits := Nat.max 1 (List.length l)) in Hn.
    pose proof (Nat.Div0.mul_div_le (hits + per_page - 1) per_page) as Hle.
    assert (hits = 1 \/ hits = List.length l)%nat as [H1 | Hl] by (subst hits; lia);
      nia. }
  rewrite page_slice_eq, length_firstn, length_skipn by assumption. nia.
Qed.

End PagePartition.

(** X27. The pagination every listing view uses, for any list and any page
    size: the pages 1 to [num_pages] laid end to end are the list, so nothing
    is lost and nothing is shown twice; every page before the last is full,
    and no page of a non-empty list is empty; and whatever the [page]
    parameter says, the fallbacks deliver one of these pages. *)
Theorem X27_pages_partition_the_list {A : Type} (l : list A) (per_page : nat) :
  (0 < per_page)%nat ->
  let last := Paginator.num_pages l per_page in
  List.concat (map (Paginator.page_slice l per_page) (List.seq 1 last)) = l /\
  (forall n, (1 <= n < last)%nat ->
             List.length (Paginator.page_slice l per_page n) = per_page) /\
  (l <> [] -> forall n, (1 <= n <= last)%nat -> Paginator.page_slice l per_page n <> []) /\
  (forall number, exists n,
      (1 <= n <= last)%nat /\
      Paginator.page_or_fallback l per_page number = Paginator.page_slice l per_page n).
Proof.
  intros Hpos last. subst last. split; [|split; [|split]].
  - rewrite pages_up_to by assumption. apply firstn_all2.
    now apply num_pages_covers.
  - intros n Hn. now apply full_page_length.
  - intros Hne n Hn. now apply page_slice_nonempty.
  - intros number. now apply page_or_fallback_slice.
Qed.

Lemma X27_witness :
  List.concat (map (Paginator.page_slice [1; 2; 3; 4; 5; 6; 7; 8; 9; 10; 11; 12; 13] 6%nat)
              (List.seq 1 (Paginator.num_pages [1; 2; 3; 4; 5; 6; 7; 8; 9; 10; 11; 12; 13] 6))) =
    [1; 2; 3; 4; 5; 6; 7; 8; 9; 10; 11; 12; 13].
Proof.
  apply (proj1 (X27_pages_partition_the_list [1; 2; 3; 4; 5; 6; 7; 8; 9; 10; 11; 12; 13] 6%nat
                  ltac:(lia))).
Defined.

(** ** Mail *)






